(** * The hybrid search resolver of LogosX (debate_arena/search)

    A shallow embedding of [embedder.py], [redis_vector_cache.py],
    [sqlite_cache.py] and [hybrid_search.py], and the properties of the
    resolver's specification stated over it.

    Conventions of the embedding.
    - A Python [str] is represented by its UTF-8 encoding, a [string] of
      bytes; [bytes] values are [string]s as well, so [.encode("utf-8")] is
      the identity and [.decode("utf-8")] is a well-formedness check.
    - 64-bit and 32-bit machine integers are [Z] with the wrap-around
      written out.
    - [float32] vectors are lists of real numbers: the accumulation of
      [_hash_embed] only ever adds [+1.0] or [-1.0], which float32 does
      exactly, so it is carried out in [Z]; the normalisation is the exact
      one.
    - Exceptions and mutable backends are threaded through a state and error
      monad that also logs every call made to a backend. *)

From Stdlib Require Import ZArith QArith List String Ascii Bool Lia Reals Lra.
From stdpp Require Import gmap strings.
Import ListNotations.

Set Warnings "-register-all".

Local Open Scope string_scope.
Local Open Scope list_scope.
Local Open Scope Z_scope.

(** ** Bytes and text *)

Module Bytes.

Definition code (a : ascii) : Z := Z.of_N (N_of_ascii a).
Definition chr (z : Z) : ascii := ascii_of_N (Z.to_N (z mod 256)).

Definition of_string (s : string) : list Z := map code (list_ascii_of_string s).
Definition to_string (l : list Z) : string := string_of_list_ascii (map chr l).

(** [int.from_bytes(b, byteorder="little", signed=False)] *)
Fixpoint from_le (l : list Z) : Z :=
  match l with
  | [] => 0
  | b :: t => b + 256 * from_le t
  end.

(** The [n] low bytes of [z], least significant first. *)
Fixpoint to_le (n : nat) (z : Z) : list Z :=
  match n with
  | O => []
  | S k => z mod 256 :: to_le k (z / 256)
  end.

(** The [n] low bytes of [z], most significant first. *)
Definition to_be (n : nat) (z : Z) : list Z := rev (to_le n z).

Definition from_be (l : list Z) : Z := from_le (rev l).

Definition hex_digit (z : Z) : ascii :=
  if z <? 10 then chr (48 + z) else chr (87 + z).

(** [bytes.hex()] *)
Definition hex (l : list Z) : string :=
  string_of_list_ascii
    (flat_map (fun b => [hex_digit (b / 16); hex_digit (b mod 16)]) l).

End Bytes.

(** ** [str.strip()]

    Python strips the characters for which [str.isspace()] holds:
    U+0009..U+000D, U+001C..U+0020, U+0085, U+00A0, U+1680, U+2000..U+200A,
    U+2028, U+2029, U+202F, U+205F and U+3000.  On the UTF-8 representation
    these are the one-, two- and three-byte sequences below. *)

Module Text.

Definition space1 (c : Z) : bool :=
  ((9 <=? c) && (c <=? 13)) || ((28 <=? c) && (c <=? 32)).

Definition space2 (c1 c2 : Z) : bool :=
  (c1 =? 0xC2) && ((c2 =? 0x85) || (c2 =? 0xA0)).

Definition space3 (c1 c2 c3 : Z) : bool :=
  ((c1 =? 0xE1) && (c2 =? 0x9A) && (c3 =? 0x80))
  || ((c1 =? 0xE2) && (c2 =? 0x80)
      && (((0x80 <=? c3) && (c3 <=? 0x8A)) || (c3 =? 0xA8) || (c3 =? 0xA9)
          || (c3 =? 0xAF)))
  || ((c1 =? 0xE2) && (c2 =? 0x81) && (c3 =? 0x9F))
  || ((c1 =? 0xE3) && (c2 =? 0x80) && (c3 =? 0x80)).

Fixpoint lstrip (l : list Z) : list Z :=
  match l with
  | [] => []
  | c1 :: t1 =>
      if space1 c1 then lstrip t1
      else match t1 with
           | [] => l
           | c2 :: t2 =>
               if space2 c1 c2 then lstrip t2
               else match t2 with
                    | [] => l
                    | c3 :: t3 => if space3 c1 c2 c3 then lstrip t3 else l
                    end
           end
  end.

(** The same scan from the right end, on the reversed byte list. *)
Fixpoint lstrip_rev (l : list Z) : list Z :=
  match l with
  | [] => []
  | c1 :: t1 =>
      if space1 c1 then lstrip_rev t1
      else match t1 with
           | [] => l
           | c2 :: t2 =>
               if space2 c2 c1 then lstrip_rev t2
               else match t2 with
                    | [] => l
                    | c3 :: t3 => if space3 c3 c2 c1 then lstrip_rev t3 else l
                    end
           end
  end.

Definition rstrip (l : list Z) : list Z := rev (lstrip_rev (rev l)).

Definition strip (s : string) : string :=
  Bytes.to_string (rstrip (lstrip (Bytes.of_string s))).

(** Python truthiness of a [str] or [bytes] value. *)
Definition nonempty (s : string) : bool :=
  match s with EmptyString => false | _ => true end.

End Text.

(** ** BLAKE2b (RFC 7693), unkeyed, as [hashlib.blake2b(data, digest_size=n)] *)

Module Blake2b.

Definition mask64 : Z := 0xFFFFFFFFFFFFFFFF.
Definition add64 (a b : Z) : Z := Z.land (a + b) mask64.
Definition rotr64 (x n : Z) : Z :=
  Z.lor (Z.shiftr x n) (Z.land (Z.shiftl x (64 - n)) mask64).

Definition IV : list Z :=
  [ 0x6a09e667f3bcc908; 0xbb67ae8584caa73b; 0x3c6ef372fe94f82b;
    0xa54ff53a5f1d36f1; 0x510e527fade682d1; 0x9b05688c2b3e6c1f;
    0x1f83d9abfb41bd6b; 0x5be0cd19137e2179 ].

Definition SIGMA : list (list nat) :=
  [ [0; 1; 2; 3; 4; 5; 6; 7; 8; 9; 10; 11; 12; 13; 14; 15];
    [14; 10; 4; 8; 9; 15; 13; 6; 1; 12; 0; 2; 11; 7; 5; 3];
    [11; 8; 12; 0; 5; 2; 15; 13; 10; 14; 3; 6; 7; 1; 9; 4];
    [7; 9; 3; 1; 13; 12; 11; 14; 2; 6; 5; 10; 4; 0; 15; 8];
    [9; 0; 5; 7; 2; 4; 10; 15; 14; 1; 11; 12; 6; 8; 3; 13];
    [2; 12; 6; 10; 0; 11; 8; 3; 4; 13; 7; 5; 15; 14; 1; 9];
    [12; 5; 1; 15; 14; 13; 4; 10; 0; 7; 6; 3; 9; 2; 8; 11];
    [13; 11; 7; 14; 12; 1; 3; 9; 5; 0; 15; 4; 8; 6; 2; 10];
    [6; 15; 14; 9; 11; 3; 0; 8; 12; 2; 13; 7; 1; 4; 10; 5];
    [10; 2; 8; 4; 7; 6; 1; 5; 15; 11; 9; 14; 3; 12; 13; 0] ]%nat.

Definition get (v : list Z) (i : nat) : Z := nth i v 0.

Fixpoint put (v : list Z) (i : nat) (x : Z) : list Z :=
  match v, i with
  | [], _ => []
  | _ :: t, O => x :: t
  | h :: t, S k => h :: put t k x
  end.

(** The mixing function G. *)
Definition G (v : list Z) (a b c d : nat) (x y : Z) : list Z :=
  let v := put v a (add64 (add64 (get v a) (get v b)) x) in
  let v := put v d (rotr64 (Z.lxor (get v d) (get v a)) 32) in
  let v := put v c (add64 (get v c) (get v d)) in
  let v := put v b (rotr64 (Z.lxor (get v b) (get v c)) 24) in
  let v := put v a (add64 (add64 (get v a) (get v b)) y) in
  let v := put v d (rotr64 (Z.lxor (get v d) (get v a)) 16) in
  let v := put v c (add64 (get v c) (get v d)) in
  put v b (rotr64 (Z.lxor (get v b) (get v c)) 63).

Definition round (m : list Z) (v : list Z) (r : nat) : list Z :=
  let s := nth (r mod 10)%nat SIGMA [] in
  let w i := get m (nth i s O) in
  let v := G v 0 4 8 12 (w 0%nat) (w 1%nat) in
  let v := G v 1 5 9 13 (w 2%nat) (w 3%nat) in
  let v := G v 2 6 10 14 (w 4%nat) (w 5%nat) in
  let v := G v 3 7 11 15 (w 6%nat) (w 7%nat) in
  let v := G v 0 5 10 15 (w 8%nat) (w 9%nat) in
  let v := G v 1 6 11 12 (w 10%nat) (w 11%nat) in
  let v := G v 2 7 8 13 (w 12%nat) (w 13%nat) in
  G v 3 4 9 14 (w 14%nat) (w 15%nat).

Fixpoint words (n : nat) (block : list Z) : list Z :=
  match n with
  | O => []
  | S k => Bytes.from_le (firstn 8 block) :: words k (skipn 8 block)
  end.

(** The compression function F: [h] is the chaining value, [block] the 128
    message bytes (zero-padded), [t] the number of bytes fed so far. *)
Definition compress (h : list Z) (block : list Z) (t : Z) (last : bool) : list Z :=
  let m := words 16 (block ++ repeat 0 128) in
  let v := h ++ IV in
  let v := put v 12 (Z.lxor (get v 12) (Z.land t mask64)) in
  let v := put v 13 (Z.lxor (get v 13) (Z.shiftr t 64)) in
  let v := if last then put v 14 (Z.lxor (get v 14) mask64) else v in
  let v := fold_left (round m) (seq 0 12) v in
  map (fun i => Z.lxor (Z.lxor (get h i) (get v i)) (get v (i + 8)%nat)) (seq 0 8).

(** All blocks but the last are full; the last one holds 1 to 128 bytes (or
    none for the empty message). *)
Fixpoint absorb (fuel : nat) (h : list Z) (data : list Z) (t : Z) : list Z :=
  match fuel with
  | O => h
  | S k =>
      if (Z.of_nat (length data) <=? 128)
      then compress h data (t + Z.of_nat (length data)) true
      else absorb k (compress h (firstn 128 data) (t + 128) false)
                  (skipn 128 data) (t + 128)
  end.

Definition digest (data : list Z) (digest_size : Z) : list Z :=
  let h0 := put IV 0 (Z.lxor (get IV 0) (Z.lxor 0x01010000 digest_size)) in
  let h := absorb (S (length data)) h0 data 0 in
  firstn (Z.to_nat digest_size) (flat_map (Bytes.to_le 8) h).

End Blake2b.

(** ** SHA-256 (FIPS 180-4), as [hashlib.sha256(data)] *)

Module Sha256.

Definition mask32 : Z := 0xFFFFFFFF.
Definition add32 (a b : Z) : Z := Z.land (a + b) mask32.
Definition rotr32 (x n : Z) : Z :=
  Z.lor (Z.shiftr x n) (Z.land (Z.shiftl x (32 - n)) mask32).
Definition not32 (x : Z) : Z := Z.lxor x mask32.

(** The round constants and the initial hash value are the first 32 bits
    of the fractional parts of the cube roots of the first 64 primes and of
    the square roots of the first 8 primes. *)
Definition is_prime (n : Z) : bool :=
  forallb (fun d => negb (n mod Z.of_nat d =? 0)) (seq 2 (Z.to_nat n - 2)).

Definition primes (count : nat) : list Z :=
  firstn count (List.filter is_prime (map Z.of_nat (seq 2 310))).

(** The integer cube root, one bit at a time. *)
Fixpoint cube_root (bits : nat) (n r : Z) : Z :=
  match bits with
  | O => r
  | S k =>
      let c := r + Z.shiftl 1 (Z.of_nat k) in
      cube_root k n (if c * c * c <=? n then c else r)
  end.

Definition K : list Z :=
  Eval vm_compute in
    map (fun p => Z.land (cube_root 36 (Z.shiftl p 96) 0) mask32) (primes 64).

Definition H0 : list Z :=
  Eval vm_compute in
    map (fun p => Z.land (Z.sqrt (Z.shiftl p 64)) mask32) (primes 8).

Definition pad (data : list Z) : list Z :=
  let len := Z.of_nat (length data) in
  let zeros := Z.to_nat ((55 - len) mod 64) in
  data ++ [0x80] ++ repeat 0 zeros ++ Bytes.to_be 8 (8 * len).

Fixpoint words (n : nat) (block : list Z) : list Z :=
  match n with
  | O => []
  | S k => Bytes.from_be (firstn 4 block) :: words k (skipn 4 block)
  end.

Definition sig0 (x : Z) := Z.lxor (Z.lxor (rotr32 x 7) (rotr32 x 18)) (Z.shiftr x 3).
Definition sig1 (x : Z) := Z.lxor (Z.lxor (rotr32 x 17) (rotr32 x 19)) (Z.shiftr x 10).
Definition Sig0 (x : Z) := Z.lxor (Z.lxor (rotr32 x 2) (rotr32 x 13)) (rotr32 x 22).
Definition Sig1 (x : Z) := Z.lxor (Z.lxor (rotr32 x 6) (rotr32 x 11)) (rotr32 x 25).
Definition Ch (x y z : Z) := Z.lxor (Z.land x y) (Z.land (not32 x) z).
Definition Maj (x y z : Z) :=
  Z.lxor (Z.lxor (Z.land x y) (Z.land x z)) (Z.land y z).

(** The message schedule, most recent word first. *)
Fixpoint schedule (n : nat) (w : list Z) : list Z :=
  match n with
  | O => w
  | S k =>
      let x :=
        add32 (add32 (sig1 (nth 1 w 0)) (nth 6 w 0))
              (add32 (sig0 (nth 14 w 0)) (nth 15 w 0)) in
      schedule k (x :: w)
  end.

Definition step (s : list Z) (kw : Z * Z) : list Z :=
  match s with
  | [a; b; c; d; e; f; g; h] =>
      let t1 := add32 (add32 (add32 h (Sig1 e)) (Ch e f g))
                      (add32 (fst kw) (snd kw)) in
      let t2 := add32 (Sig0 a) (Maj a b c) in
      [add32 t1 t2; a; b; c; add32 d t1; e; f; g]
  | _ => s
  end.

Definition compress (h : list Z) (block : list Z) : list Z :=
  let w := rev (schedule 48 (rev (words 16 block))) in
  let s := fold_left step (combine K w) h in
  map (fun p => add32 (fst p) (snd p)) (combine h s).

Fixpoint blocks (fuel : nat) (h : list Z) (data : list Z) : list Z :=
  match fuel, data with
  | S k, _ :: _ => blocks k (compress h (firstn 64 data)) (skipn 64 data)
  | _, _ => h
  end.

Definition digest (data : list Z) : list Z :=
  let p := pad data in
  flat_map (Bytes.to_be 4) (blocks (length p) H0 p).

Definition hexdigest (data : list Z) : string := Bytes.hex (digest data).

End Sha256.

(** ** [embedder.py]: the deterministic embedding

    [ndarray] stands for a one-dimensional [np.ndarray] of [float32]. *)

Definition ndarray := list R.

Definition sum_squares (v : list R) : R :=
  fold_right (fun x acc => (x * x + acc)%R) 0%R v.

(** [float(np.linalg.norm(v))] *)
Definition l2_norm (v : ndarray) : R := sqrt (sum_squares v).

(** The loop of [_hash_embed]: one linear-congruential step per byte, then
    [v[idx] += sign].  The entries stay integers, so [v] is a [list Z]. *)
Fixpoint hash_loop (data : list Z) (seed : Z) (dim : Z) (v : list Z) : list Z :=
  match data with
  | [] => v
  | b :: rest =>
      let seed := Z.land (seed * 6364136223846793005 + 1 + b) 0xFFFFFFFFFFFFFFFF in
      let idx := seed mod dim in
      let sign := if Z.shiftr seed 63 =? 0 then 1 else -1 in
      hash_loop rest seed dim (alter (Z.add sign) (Z.to_nat idx) v)
  end.

(** The accumulator of [_hash_embed] just before the normalisation (the
    vector returned early for a blank text is the zero vector as well). *)
Definition hash_counts (text : string) (dim : Z) : list Z :=
  let dim := if 0 <? dim then dim else 384 in
  let v := repeat 0 (Z.to_nat dim) in
  let s := Text.strip text in
  if negb (Text.nonempty s) then v
  else
    let data := Bytes.of_string s in
    let h := Blake2b.digest data 32 in
    let seed := Bytes.from_le (firstn 8 h) in
    hash_loop data seed dim v.

Definition _hash_embed (text : string) (dim : Z) : ndarray :=
  let v := map IZR (hash_counts text dim) in
  if negb (Text.nonempty (Text.strip text)) then v
  else
    let norm := l2_norm v in
    if Rlt_dec 0 norm then map (fun x => (x / norm)%R) v else v.

(** ** Python values that travel through the caches

    A Python [float] outside the embedding is carried as the exact number
    it denotes: a rational, or one of the three non-finite values. *)

Inductive pyfloat :=
| Fin (q : Q)
| PosInf
| NegInf
| NaN.

Definition float_zero : pyfloat := Fin (0 # 1).

(** ** UTF-8 *)

Module Utf8.

Definition cont (b : Z) : bool := (0x80 <=? b) && (b <=? 0xBF).
Definition within (lo hi b : Z) : bool := (lo <=? b) && (b <=? hi).

(** Well-formedness of a byte sequence under the strict UTF-8 codec. *)
Fixpoint valid (l : list Z) : bool :=
  match l with
  | [] => true
  | b0 :: t0 =>
      if b0 <? 0x80 then valid t0
      else match t0 with
      | [] => false
      | b1 :: t1 =>
          if within 0xC2 0xDF b0 then cont b1 && valid t1
          else match t1 with
          | [] => false
          | b2 :: t2 =>
              if b0 =? 0xE0 then within 0xA0 0xBF b1 && cont b2 && valid t2
              else if b0 =? 0xED then within 0x80 0x9F b1 && cont b2 && valid t2
              else if within 0xE1 0xEF b0 then cont b1 && cont b2 && valid t2
              else match t2 with
              | [] => false
              | b3 :: t3 =>
                  if b0 =? 0xF0
                  then within 0x90 0xBF b1 && cont b2 && cont b3 && valid t3
                  else if within 0xF1 0xF3 b0
                  then cont b1 && cont b2 && cont b3 && valid t3
                  else if b0 =? 0xF4
                  then within 0x80 0x8F b1 && cont b2 && cont b3 && valid t3
                  else false
              end
          end
      end
  end.

(** The encoding of one code point. *)
Definition encode_point (c : Z) : list Z :=
  if c <? 0x80 then [c]
  else if c <? 0x800 then [0xC0 + c / 64; 0x80 + c mod 64]
  else if c <? 0x10000
  then [0xE0 + c / 4096; 0x80 + (c / 64) mod 64; 0x80 + c mod 64]
  else [0xF0 + c / 262144; 0x80 + (c / 4096) mod 64;
        0x80 + (c / 64) mod 64; 0x80 + c mod 64].

End Utf8.

(** ** JSON: the data model, [json.dumps] and [json.loads] *)

Module Json.

Inductive value :=
| JNull
| JBool (b : bool)
| JInt (z : Z)
| JFloat (f : pyfloat)
| JStr (s : string)
| JList (l : list value)
| JDict (kv : list (string * value)).

(** Python truthiness, as tested by [if exact:]. *)
Definition truthy (v : value) : bool :=
  match v with
  | JNull => false
  | JBool b => b
  | JInt z => negb (z =? 0)
  | JFloat (Fin q) => negb (Qnum q =? 0)
  | JFloat _ => true
  | JStr s => Text.nonempty s
  | JList l => match l with [] => false | _ => true end
  | JDict kv => match kv with [] => false | _ => true end
  end.

(** [d[k] = v] on an insertion-ordered dict. *)
Fixpoint dict_set (kv : list (string * value)) (k : string) (v : value)
  : list (string * value) :=
  match kv with
  | [] => [(k, v)]
  | (k', v') :: t =>
      if String.eqb k k' then (k, v) :: t else (k', v') :: dict_set t k v
  end.

(** [d.get(k)] *)
Fixpoint dict_get (kv : list (string * value)) (k : string) : option value :=
  match kv with
  | [] => None
  | (k', v') :: t => if String.eqb k k' then Some v' else dict_get t k
  end.

(** *** Printing *)

Definition digit_char (d : Z) : ascii := Bytes.chr (48 + d).

Fixpoint digits_of (fuel : nat) (n : Z) (acc : list ascii) : list ascii :=
  match fuel with
  | O => acc
  | S k =>
      let acc := digit_char (n mod 10) :: acc in
      if n <? 10 then acc else digits_of k (n / 10) acc
  end.

(** Decimal rendering of a natural number. *)
Definition nat_digits (n : Z) : list ascii :=
  digits_of (S (Z.to_nat (Z.log2 n))) n [].

Definition int_chars (z : Z) : list ascii :=
  if z <? 0 then "-"%char :: nat_digits (- z) else nat_digits z.

(** The fractional digits of [r / d], for [0 <= r < d]; at least one. *)
Fixpoint frac_digits (fuel : nat) (r d : Z) : list ascii :=
  match fuel with
  | O => []
  | S k =>
      let r10 := 10 * r in
      digit_char (r10 / d)
        :: (if r10 mod d =? 0 then [] else frac_digits k (r10 mod d) d)
  end.

Definition float_chars (f : pyfloat) : list ascii :=
  match f with
  | NaN => list_ascii_of_string "NaN"
  | PosInf => list_ascii_of_string "Infinity"
  | NegInf => list_ascii_of_string "-Infinity"
  | Fin q =>
      let n := Qnum q in
      let d := Z.pos (Qden q) in
      let a := Z.abs n in
      (if n <? 0 then ["-"%char] else [])
        ++ nat_digits (a / d) ++ ["."%char]
        ++ frac_digits (S (Z.to_nat (Z.log2 d))) (a mod d) d
  end.

Definition hex4 (c : Z) : list ascii :=
  [ Bytes.hex_digit (c / 4096 mod 16); Bytes.hex_digit (c / 256 mod 16);
    Bytes.hex_digit (c / 16 mod 16); Bytes.hex_digit (c mod 16) ].

Definition dquote : ascii := Bytes.chr 34.
Definition backslash : ascii := Bytes.chr 92.

(** The replacement of one character by [json.dumps(..., ensure_ascii=False)]. *)
Definition escape_char (a : ascii) : list ascii :=
  let c := Bytes.code a in
  if c =? 34 then [backslash; dquote]
  else if c =? 92 then [backslash; backslash]
  else if c =? 10 then list_ascii_of_string "\n"
  else if c =? 13 then list_ascii_of_string "\r"
  else if c =? 9 then list_ascii_of_string "\t"
  else if c =? 8 then list_ascii_of_string "\b"
  else if c =? 12 then list_ascii_of_string "\f"
  else if c <? 32 then list_ascii_of_string "\u" ++ hex4 c
  else [a].

Definition string_chars (s : string) : list ascii :=
  dquote :: flat_map escape_char (list_ascii_of_string s) ++ [dquote].

Definition comma : list ascii := list_ascii_of_string ", ".
Definition colon : list ascii := list_ascii_of_string ": ".

Fixpoint chars (v : value) : list ascii :=
  match v with
  | JNull => list_ascii_of_string "null"
  | JBool true => list_ascii_of_string "true"
  | JBool false => list_ascii_of_string "false"
  | JInt z => int_chars z
  | JFloat f => float_chars f
  | JStr s => string_chars s
  | JList l =>
      let fix items (l : list value) : list ascii :=
        match l with
        | [] => []
        | [x] => chars x
        | x :: t => chars x ++ comma ++ items t
        end in
      "["%char :: items l ++ ["]"%char]
  | JDict kv =>
      let fix items (kv : list (string * value)) : list ascii :=
        match kv with
        | [] => []
        | [(k, x)] => string_chars k ++ colon ++ chars x
        | (k, x) :: t => string_chars k ++ colon ++ chars x ++ comma ++ items t
        end in
      "{"%char :: items kv ++ ["}"%char]
  end.

(** [json.dumps(v, ensure_ascii=False)] *)
Definition dumps (v : value) : string := string_of_list_ascii (chars v).

(** *** Parsing *)

Definition has_code (c : ascii) (z : Z) : bool := Bytes.code c =? z.

Definition is_digit (c : ascii) : bool :=
  (48 <=? Bytes.code c) && (Bytes.code c <=? 57).

Definition digit_val (c : ascii) : Z := Bytes.code c - 48.

Fixpoint skip_ws (s : list ascii) : list ascii :=
  match s with
  | c :: t => if has_code c 32 || has_code c 9 || has_code c 10 || has_code c 13 then skip_ws t else s
  | [] => []
  end.

Fixpoint drop_prefix (p s : list ascii) : option (list ascii) :=
  match p, s with
  | [], _ => Some s
  | a :: p', b :: s' => if Ascii.eqb a b then drop_prefix p' s' else None
  | _ :: _, [] => None
  end.

(** The longest run of digits at the head of [s] (in reading order), and
    what follows it. *)
Fixpoint take_digits (s : list ascii) : list Z * list ascii :=
  match s with
  | c :: t =>
      if is_digit c
      then let (ds, r) := take_digits t in (digit_val c :: ds, r)
      else ([], s)
  | [] => ([], [])
  end.

Definition number_of (ds : list Z) : Z := fold_left (fun a d => 10 * a + d) ds 0.

(** The number [m * 10^e]. *)
Definition scale10 (m e : Z) : pyfloat :=
  if 0 <=? e then Fin (Qred (m * 10 ^ e # 1))
  else Fin (Qred (m # Z.to_pos (10 ^ (- e)))).

(** The integer part of a JSON number: [0] or a run of digits that does not
    start with [0]. *)
Definition take_int (s : list ascii) : option (list Z * list ascii) :=
  match s with
  | c :: t =>
      if has_code c 48 then Some ([0], t)
      else if is_digit c then Some (take_digits s)
      else None
  | [] => None
  end.

Definition take_frac (s : list ascii) : option (list Z * list ascii) :=
  match s with
  | c :: t =>
      if has_code c 46
      then match take_digits t with
           | ([], _) => None
           | (ds, r) => Some (ds, r)
           end
      else None
  | [] => None
  end.

Definition take_exp (s : list ascii) : option (Z * list ascii) :=
  match s with
  | c :: t =>
      if has_code c 101 || has_code c 69
      then
        let '(neg, t') :=
          match t with
          | sg :: u => if has_code sg 45 then (true, u)
                       else if has_code sg 43 then (false, u) else (false, t)
          | [] => (false, t)
          end in
        match take_digits t' with
        | ([], _) => None
        | (ds, r) => Some (if neg then - number_of ds else number_of ds, r)
        end
      else None
  | [] => None
  end.

(** A JSON number at the head of [s]: an [int] unless a fraction or an
    exponent follows the integer part. *)
Definition scan_number (s : list ascii) : option (value * list ascii) :=
  let '(neg, s1) :=
    match s with
    | c :: t => if has_code c 45 then (true, t) else (false, s)
    | [] => (false, s)
    end in
  match take_int s1 with
  | None => None
  | Some (ip, s2) =>
      let sgn (z : Z) := if neg then - z else z in
      match take_frac s2, take_exp s2 with
      | None, None => Some (JInt (sgn (number_of ip)), s2)
      | None, Some (e, s3) => Some (JFloat (scale10 (sgn (number_of ip)) e), s3)
      | Some (fp, s3), _ =>
          let m := sgn (number_of (ip ++ fp)) in
          let k := Z.of_nat (length fp) in
          match take_exp s3 with
          | None => Some (JFloat (scale10 m (- k)), s3)
          | Some (e, s4) => Some (JFloat (scale10 m (e - k)), s4)
          end
      end
  end.

Definition hex_val (c : ascii) : option Z :=
  let z := Bytes.code c in
  if is_digit c then Some (z - 48)
  else if (97 <=? z) && (z <=? 102) then Some (z - 87)
  else if (65 <=? z) && (z <=? 70) then Some (z - 55)
  else None.

Definition hex4_val (a b c d : ascii) : option Z :=
  match hex_val a, hex_val b, hex_val c, hex_val d with
  | Some x, Some y, Some z, Some w => Some (4096 * x + 256 * y + 16 * z + w)
  | _, _, _, _ => None
  end.

Definition push_point (cp : Z) (acc : list ascii) : list ascii :=
  rev (map Bytes.chr (Utf8.encode_point cp)) ++ acc.

(** The body of a string literal, after the opening quote; [acc] holds the
    characters read so far, last first. *)
Fixpoint scan_string (s : list ascii) (acc : list ascii)
  : option (string * list ascii) :=
  match s with
  | [] => None
  | c :: t =>
      if has_code c 34 then Some (string_of_list_ascii (rev acc), t)
      else if has_code c 92 then
        match t with
        | [] => None
        | e :: t' =>
            if has_code e 34 || has_code e 92 || has_code e 47 then scan_string t' (e :: acc)
            else if has_code e 98 then scan_string t' (Bytes.chr 8 :: acc)
            else if has_code e 102 then scan_string t' (Bytes.chr 12 :: acc)
            else if has_code e 110 then scan_string t' (Bytes.chr 10 :: acc)
            else if has_code e 114 then scan_string t' (Bytes.chr 13 :: acc)
            else if has_code e 116 then scan_string t' (Bytes.chr 9 :: acc)
            else if has_code e 117 then
              match t' with
              | h1 :: h2 :: h3 :: h4 :: t4 =>
                  match hex4_val h1 h2 h3 h4 with
                  | None => None
                  | Some cp =>
                      let single := scan_string t4 (push_point cp acc) in
                      if (0xD800 <=? cp) && (cp <=? 0xDBFF) then
                        match t4 with
                        | b :: u :: g1 :: g2 :: g3 :: g4 :: t10 =>
                            if has_code b 92 && has_code u 117 then
                              match hex4_val g1 g2 g3 g4 with
                              | Some lo =>
                                  if (0xDC00 <=? lo) && (lo <=? 0xDFFF)
                                  then scan_string t10
                                         (push_point
                                            (0x10000 + 1024 * (cp - 0xD800)
                                             + (lo - 0xDC00)) acc)
                                  else single
                              | None => single
                              end
                            else single
                        | _ => single
                        end
                      else single
                  end
              | _ => None
              end
            else None
        end
      else if Bytes.code c <? 32 then None
      else scan_string t (c :: acc)
  end.

Definition lit (w : string) (v : value) (s : list ascii)
  : option (value * list ascii) :=
  match drop_prefix (list_ascii_of_string w) s with
  | Some r => Some (v, r)
  | None => None
  end.

Definition first_of {A : Type} (a b : option A) : option A :=
  match a with Some _ => a | None => b end.

Fixpoint scan (fuel : nat) (s : list ascii) : option (value * list ascii) :=
  match fuel with
  | O => None
  | S k =>
      match s with
      | [] => None
      | c :: t =>
          if has_code c 34 then
            match scan_string t [] with
            | Some (x, r) => Some (JStr x, r)
            | None => None
            end
          else if has_code c 123 then
            match skip_ws t with
            | c' :: t' =>
                if has_code c' 125 then Some (JDict [], t')
                else scan_members k (c' :: t') []
            | [] => None
            end
          else if has_code c 91 then
            match skip_ws t with
            | c' :: t' =>
                if has_code c' 93 then Some (JList [], t')
                else scan_items k (c' :: t') []
            | [] => None
            end
          else
            first_of (lit "null" JNull s)
           (first_of (lit "true" (JBool true) s)
           (first_of (lit "false" (JBool false) s)
           (first_of (scan_number s)
           (first_of (lit "NaN" (JFloat NaN) s)
           (first_of (lit "Infinity" (JFloat PosInf) s)
                     (lit "-Infinity" (JFloat NegInf) s))))))
      end
  end

with scan_items (fuel : nat) (s : list ascii) (acc : list value)
  : option (value * list ascii) :=
  match fuel with
  | O => None
  | S k =>
      match scan k s with
      | None => None
      | Some (v, r) =>
          match skip_ws r with
          | c :: t =>
              if has_code c 93 then Some (JList (rev (v :: acc)), t)
              else if has_code c 44 then scan_items k (skip_ws t) (v :: acc)
              else None
          | [] => None
          end
      end
  end

with scan_members (fuel : nat) (s : list ascii) (acc : list (string * value))
  : option (value * list ascii) :=
  match fuel with
  | O => None
  | S k =>
      match s with
      | q :: t =>
          if has_code q 34 then
            match scan_string t [] with
            | None => None
            | Some (key, r) =>
                match skip_ws r with
                | c :: r' =>
                    if has_code c 58 then
                      match scan k (skip_ws r') with
                      | None => None
                      | Some (v, r2) =>
                          let acc := dict_set acc key v in
                          match skip_ws r2 with
                          | d :: r3 =>
                              if has_code d 125 then Some (JDict acc, r3)
                              else if has_code d 44
                              then scan_members k (skip_ws r3) acc
                              else None
                          | [] => None
                          end
                      end
                    else None
                | [] => None
                end
            end
          else None
      | [] => None
      end
  end.

(** [json.loads(s)]; [None] stands for [JSONDecodeError]. *)
Definition loads (s : string) : option value :=
  let cs := list_ascii_of_string s in
  match scan (S (length cs)) (skip_ws cs) with
  | Some (v, r) => match skip_ws r with [] => Some v | _ => None end
  | None => None
  end.

End Json.

(** ** [float(s)] on a [str] *)

Module PyFloat.

Import Json.

(** A run of digits in which single underscores may separate digits. *)
Fixpoint digitpart (s : list ascii) : list Z * list ascii :=
  match s with
  | c :: t =>
      if is_digit c then
        match t with
        | u :: t' =>
            if has_code u 95 then
              match t' with
              | d :: _ =>
                  if is_digit d
                  then let (ds, r) := digitpart t' in (digit_val c :: ds, r)
                  else ([digit_val c], t)
              | [] => ([digit_val c], t)
              end
            else let (ds, r) := digitpart t in (digit_val c :: ds, r)
        | [] => ([digit_val c], [])
        end
      else ([], s)
  | [] => ([], [])
  end.

Definition lower (c : ascii) : ascii :=
  let z := Bytes.code c in
  if (65 <=? z) && (z <=? 90) then Bytes.chr (z + 32) else c.

Definition word_is (w : string) (s : list ascii) : bool :=
  String.eqb w (string_of_list_ascii (map lower s)).

Definition exponent (s : list ascii) : option Z :=
  match s with
  | [] => Some 0
  | c :: t =>
      if has_code c 101 || has_code c 69 then
        let '(neg, t') :=
          match t with
          | sg :: u => if has_code sg 45 then (true, u)
                       else if has_code sg 43 then (false, u) else (false, t)
          | [] => (false, t)
          end in
        match digitpart t' with
        | ((_ :: _) as ds, []) => Some (if neg then - number_of ds else number_of ds)
        | _ => None
        end
      else None
  end.

(** [None] stands for [ValueError]. *)
Definition of_str (s : string) : option pyfloat :=
  let cs := list_ascii_of_string (Text.strip s) in
  let '(neg, body) :=
    match cs with
    | c :: t => if has_code c 45 then (true, t)
                else if has_code c 43 then (false, t) else (false, cs)
    | [] => (false, cs)
    end in
  if word_is "inf" body || word_is "infinity" body
  then Some (if neg then NegInf else PosInf)
  else if word_is "nan" body then Some NaN
  else
    let (ip, r1) := digitpart body in
    let (fp, r2) :=
      match r1 with
      | c :: t => if has_code c 46 then digitpart t else ([], r1)
      | [] => ([], r1)
      end in
    match ip ++ fp, exponent r2 with
    | (_ :: _) as m, Some e =>
        let z := number_of m in
        Some (scale10 (if neg then - z else z) (e - Z.of_nat (length fp)))
    | _, _ => None
    end.

End PyFloat.

(** ** Exceptions, backend calls and the monad *)

Inductive result (E A : Type) :=
| Ok (a : A)
| Raise (e : E).
Arguments Ok {E A} a.
Arguments Raise {E A} e.

(** What the client libraries raise: redis-py, sqlite3, requests and
    sentence-transformers. *)
Inductive lib_error :=
| RedisConnectionError (msg : string)
| RedisTimeoutError (msg : string)
| RedisResponseError (msg : string)
| SqliteError (msg : string)
| RequestsError (msg : string)
| ModelError (msg : string).

(** The exceptions of the modelled code; all of them derive from
    [Exception].  [DimensionError got want] is the
    [ValueError("embedding 维度不匹配：got != want")] of the two dimension
    guards. *)
Inductive exn :=
| DimensionError (got want : Z)
| IndexError
| TypeError
| AttributeError
| UnicodeDecodeError
| JSONDecodeError
| LibError (e : lib_error).

(** A reply of the Redis client ([decode_responses=False]). *)
Inductive reply :=
| RNil
| RInt (z : Z)
| RBulk (b : string)
| RArray (l : list reply).

Record SearxngResult := {
  title : string;
  url : string;
  content : string;
  engine : option string;
  score : option pyfloat
}.

Record SearxngSearchResponse := {
  resp_query : string;
  results : list SearxngResult;
  raw : Json.value
}.

(** One entry per call that leaves the process. *)
Inductive call :=
| CallHgetall (key : string)
| CallHset (key : string) (mapping : list (string * string))
| CallExpire (key : string) (seconds : Z)
| CallExecute (args : list reply)
| CallSqliteSelect (query : string)
| CallSqliteUpsert (query payload_json : string) (created_at : pyfloat)
| CallSearxng (query : string)
| CallModelLoad (model_name : string)
| CallModelEncode (model_name text : string)
| CallTime.

(** The collaborators of the resolver, over an arbitrary world [W]: the
    Redis client, the SQLite file, the SearXNG client, the
    sentence-transformers model and the clock.  Every operation may fail and
    may change the world. *)
Record backend (W : Type) := {
  hgetall : string -> W -> result lib_error (gmap string string) * W;
  hset : string -> list (string * string) -> W -> result lib_error unit * W;
  expire : string -> Z -> W -> result lib_error unit * W;
  execute_command : list reply -> W -> result lib_error reply * W;
  sqlite_select : string -> W -> result lib_error (option (string * pyfloat)) * W;
  sqlite_upsert : string -> string -> pyfloat -> W -> result lib_error unit * W;
  searxng_search : string -> W -> result lib_error SearxngSearchResponse * W;
  model_load : string -> W -> result lib_error unit * W;
  model_encode : string -> string -> W -> result lib_error (list ndarray) * W;
  time_time : W -> pyfloat * W
}.
Arguments hgetall {W}.
Arguments hset {W}.
Arguments expire {W}.
Arguments execute_command {W}.
Arguments sqlite_select {W}.
Arguments sqlite_upsert {W}.
Arguments searxng_search {W}.
Arguments model_load {W}.
Arguments model_encode {W}.
Arguments time_time {W}.

(** The mutable state of a resolver call: the world and the embedder's
    lazily built [_model]. *)
Record state (W : Type) := State {
  world : W;
  model : option string
}.
Arguments State {W}.
Arguments world {W}.
Arguments model {W}.

Record run (W A : Type) := Run {
  value : result exn A;
  final : state W;
  calls : list call
}.
Arguments Run {W A}.
Arguments value {W A}.
Arguments final {W A}.
Arguments calls {W A}.

Definition M (W A : Type) : Type := state W -> run W A.

Definition ret {W A} (a : A) : M W A := fun s => Run (Ok a) s [].

Definition raise {W A} (e : exn) : M W A := fun s => Run (Raise e) s [].

Definition bind {W A B} (m : M W A) (f : A -> M W B) : M W B :=
  fun s =>
    let r := m s in
    match value r with
    | Ok a =>
        let r' := f a (final r) in
        Run (value r') (final r') (calls r ++ calls r')
    | Raise e => Run (Raise e) (final r) (calls r)
    end.

(** [try: m  except Exception: ...], with the outcome of [m] made a value;
    what [m] did to the world before raising stays done. *)
Definition attempt {W A} (m : M W A) : M W (result exn A) :=
  fun s => let r := m s in Run (Ok (value r)) (final r) (calls r).

(** [try: m  except Exception: h] *)
Definition try_except {W A} (m : M W A) (h : M W A) : M W A :=
  bind (attempt m) (fun r => match r with Ok a => ret a | Raise _ => h end).

(** A call to a client library. *)
Definition invoke {W A} (c : call) (op : W -> result lib_error A * W) : M W A :=
  fun s =>
    let '(r, w) := op (world s) in
    Run (match r with Ok a => Ok a | Raise e => Raise (LibError e) end)
        (State w (model s)) [c].

Definition get_model {W} : M W (option string) := fun s => Run (Ok (model s)) s [].

Definition set_model {W} (m : option string) : M W unit :=
  fun s => Run (Ok tt) (State (world s) m) [].

(** A pure computation that may raise. *)
Definition lift {W A} (r : result exn A) : M W A := fun s => Run r s [].

Declare Scope py_scope.
Delimit Scope py_scope with py.
Notation "x <- m ;; k" := (bind m (fun x => k))
  (at level 100, m at next level, right associativity) : py_scope.
Notation "m ;; k" := (bind m (fun _ => k))
  (at level 100, right associativity) : py_scope.

(** ** The components *)

Record RedisSemanticHit := {
  hit_query : string;
  hit_payload : Json.value;
  hit_score : pyfloat
}.

Record RedisVectorCache := {
  _index_name : string;
  _key_prefix : string;
  _ttl_seconds : Z;
  _vector_dim : Z
}.

Record Embedder := {
  mode : string;
  model_name : string;
  dim : Z
}.

Record SqliteCacheItem := {
  item_query : string;
  item_payload : Json.value;
  item_created_at : pyfloat
}.

Record SearchOutcome := {
  query : string;
  source : string;
  payload : Json.value
}.

Record HybridSearchEngine := {
  _embedder : Embedder;
  _redis : RedisVectorCache
}.

(** [b.decode("utf-8")] on a [bytes] value *)
Definition decode_utf8 (b : string) : result exn string :=
  if Utf8.valid (Bytes.of_string b) then Ok b else Raise UnicodeDecodeError.

(** [json.loads(s)] *)
Definition json_loads (s : string) : result exn Json.value :=
  match Json.loads s with
  | Some v => Ok v
  | None => Raise JSONDecodeError
  end.

(** [str(now)] and [str(k)] *)
Definition str_float (f : pyfloat) : string :=
  string_of_list_ascii
    (match f with
     | NaN => list_ascii_of_string "nan"
     | PosInf => list_ascii_of_string "inf"
     | NegInf => list_ascii_of_string "-inf"
     | Fin _ => Json.float_chars f
     end).

Definition str_int (z : Z) : string := string_of_list_ascii (Json.int_chars z).

(** *** [redis_vector_cache.py] *)

(** [RedisVectorCache._stable_id] *)
Definition _stable_id (query : string) : string :=
  Sha256.hexdigest (Bytes.of_string (Text.strip query)).

(** [RedisVectorCache._make_key] *)
Definition _make_key (c : RedisVectorCache) (item_id : string) : string :=
  String.append (_key_prefix c) item_id.

(** Python truthiness of a reply, and [len]/indexing on it: a list reply
    has its items, a [bytes] reply its byte values, anything else raises
    [TypeError]. *)
Definition reply_truthy (r : reply) : bool :=
  match r with
  | RNil => false
  | RInt z => negb (z =? 0)
  | RBulk b => Text.nonempty b
  | RArray l => match l with [] => false | _ => true end
  end.

Definition reply_items (r : reply) : result exn (list reply) :=
  match r with
  | RArray l => Ok l
  | RBulk b => Ok (map RInt (Bytes.of_string b))
  | _ => Raise TypeError
  end.

(** The loop [for j in range(0, len(fields), 2): field_map[fields[j]] =
    fields[j + 1]].  Only [bytes] keys are ever looked up afterwards, so the
    map keeps those; a list cannot be a key. *)
Fixpoint build_field_map (fields : list reply) (m : gmap string reply)
  : result exn (gmap string reply) :=
  match fields with
  | [] => Ok m
  | [_] => Raise IndexError
  | k :: v :: rest =>
      match k with
      | RArray _ => Raise TypeError
      | RBulk name => build_field_map rest (<[name := v]> m)
      | _ => build_field_map rest m
      end
  end.

(** [x.decode("utf-8")] on a field value *)
Definition reply_decode (r : reply) : result exn string :=
  match r with
  | RBulk b => decode_utf8 b
  | _ => Raise AttributeError
  end.

Definition field_get (m : gmap string reply) (name default : string) : reply :=
  match m !! name with
  | Some v => v
  | None => RBulk default
  end.

(** The body of the [for i in range(1, len(res), 2)] loop for one document. *)
Definition parse_hit (fields : reply) : result exn RedisSemanticHit :=
  match reply_items fields with
  | Raise e => Raise e
  | Ok fl =>
      match build_field_map fl ∅ with
      | Raise e => Raise e
      | Ok field_map =>
          let query_b := field_get field_map "query" "" in
          let payload_b := field_get field_map "payload_json" "{}" in
          let score_b := field_get field_map "score" "0" in
          let payload :=
            match reply_decode payload_b with
            | Ok text =>
                match json_loads text with
                | Ok v => v
                | Raise _ => Json.JDict []
                end
            | Raise _ => Json.JDict []
            end in
          let score :=
            match reply_decode score_b with
            | Ok text =>
                match PyFloat.of_str text with
                | Some f => f
                | None => float_zero
                end
            | Raise _ => float_zero
            end in
          match reply_decode query_b with
          | Ok q => Ok {| hit_query := q; hit_payload := payload; hit_score := score |}
          | Raise e => Raise e
          end
      end
  end.

(** The loop over [res[1:]], read as (document id, fields) pairs. *)
Fixpoint parse_docs (docs : list reply) : result exn (list RedisSemanticHit) :=
  match docs with
  | [] => Ok []
  | [_] => Raise IndexError
  | _ :: fields :: rest =>
      match parse_hit fields with
      | Raise e => Raise e
      | Ok h =>
          match parse_docs rest with
          | Ok hs => Ok (h :: hs)
          | Raise e => Raise e
          end
      end
  end.

Definition parse_search_reply (res : reply) : result exn (list RedisSemanticHit) :=
  if negb (reply_truthy res) then Ok []
  else
    match reply_items res with
    | Raise e => Raise e
    | Ok l =>
        if (Z.of_nat (length l) <? 2) then Ok []
        else parse_docs (tl l)
    end.

Section Components.

Context {W : Type}.
Variable B : backend W.

(** [ndarray.tobytes()] of a [float32] vector: the rounding to single
    precision and its four little-endian bytes are numpy's. *)
Variable tobytes : ndarray -> string.

Local Open Scope py_scope.

(** [RedisVectorCache.get_exact]; Python's [None] is [JNull]. *)
Definition get_exact (c : RedisVectorCache) (query : string) : M W Json.value :=
  let key := _make_key c (_stable_id query) in
  data <- invoke (CallHgetall key) (hgetall B key) ;;
  if decide (data = ∅) then ret Json.JNull
  else
    match data !! "payload_json" with
    | None => ret Json.JNull
    | Some payload_json =>
        if negb (Text.nonempty payload_json) then ret Json.JNull
        else
          text <- lift (decode_utf8 payload_json) ;;
          lift (json_loads text)
    end.

(** [RedisVectorCache.set] *)
Definition cache_set (c : RedisVectorCache) (query : string)
    (payload : Json.value) (embedding : ndarray) : M W unit :=
  if negb (Z.of_nat (length embedding) =? _vector_dim c)
  then raise (DimensionError (Z.of_nat (length embedding)) (_vector_dim c))
  else
    let item_id := _stable_id query in
    let key := _make_key c item_id in
    now <- invoke CallTime (fun w => let (t, w') := time_time B w in (Ok t, w')) ;;
    let mapping :=
      [ ("query", query);
        ("payload_json", Json.dumps payload);
        ("created_at", str_float now);
        ("embedding", tobytes embedding) ] in
    invoke (CallHset key mapping) (hset B key mapping) ;;
    invoke (CallExpire key (_ttl_seconds c)) (expire B key (_ttl_seconds c)).

Definition knn_args (c : RedisVectorCache) (embedding : ndarray) (k : Z)
  : list reply :=
  let q := String.append "*=>[KNN "
             (String.append (str_int k) " @embedding $vec AS score]") in
  [ RBulk "FT.SEARCH"; RBulk (_index_name c); RBulk q; RBulk "PARAMS"; RInt 2;
    RBulk "vec"; RBulk (tobytes embedding); RBulk "RETURN"; RInt 3;
    RBulk "query"; RBulk "payload_json"; RBulk "score"; RBulk "SORTBY";
    RBulk "score"; RBulk "DIALECT"; RInt 2 ].

(** [RedisVectorCache.search_similar] *)
Definition search_similar (c : RedisVectorCache) (embedding : ndarray) (k : Z)
  : M W (list RedisSemanticHit) :=
  if negb (Z.of_nat (length embedding) =? _vector_dim c)
  then raise (DimensionError (Z.of_nat (length embedding)) (_vector_dim c))
  else
    let args := knn_args c embedding k in
    res <- invoke (CallExecute args) (execute_command B args) ;;
    lift (parse_search_reply res).

(** *** [embedder.py] *)

(** [Embedder._st_embed] *)
Definition _st_embed (e : Embedder) (text : string) : M W ndarray :=
  m <- get_model ;;
  name <- match m with
          | Some name => ret name
          | None =>
              invoke (CallModelLoad (model_name e)) (model_load B (model_name e)) ;;
              set_model (Some (model_name e)) ;;
              ret (model_name e)
          end ;;
  vec <- invoke (CallModelEncode name text) (model_encode B name text) ;;
  match vec with
  | row :: _ => ret row
  | [] => raise IndexError
  end.

(** [Embedder.embed] *)
Definition embed (e : Embedder) (text : string) : M W ndarray :=
  if String.eqb (mode e) "hash" then ret (_hash_embed text (dim e))
  else if String.eqb (mode e) "st" || String.eqb (mode e) "sentence-transformers"
  then _st_embed e text
  else try_except (_st_embed e text) (ret (_hash_embed text (dim e))).

(** *** [sqlite_cache.py] *)

(** [SqliteCache.get] *)
Definition sqlite_get (query : string) : M W (option SqliteCacheItem) :=
  row <- invoke (CallSqliteSelect query) (sqlite_select B query) ;;
  match row with
  | None => ret None
  | Some (payload_json, created_at) =>
      v <- lift (json_loads payload_json) ;;
      ret (Some {| item_query := query; item_payload := v;
                   item_created_at := created_at |})
  end.

(** [SqliteCache.set] *)
Definition sqlite_set (query : string) (payload : Json.value) : M W unit :=
  now <- invoke CallTime (fun w => let (t, w') := time_time B w in (Ok t, w')) ;;
  invoke (CallSqliteUpsert query (Json.dumps payload) now)
         (sqlite_upsert B query (Json.dumps payload) now).

(** *** [hybrid_search.py] *)

Definition opt_json {A} (f : A -> Json.value) (o : option A) : Json.value :=
  match o with Some a => f a | None => Json.JNull end.

Definition result_json (r : SearxngResult) : Json.value :=
  Json.JDict
    [ ("title", Json.JStr (title r));
      ("url", Json.JStr (url r));
      ("content", Json.JStr (content r));
      ("engine", opt_json Json.JStr (engine r));
      ("score", opt_json Json.JFloat (score r)) ].

Definition live_payload (resp : SearxngSearchResponse) : Json.value :=
  Json.JDict
    [ ("query", Json.JStr (resp_query resp));
      ("results", Json.JList (map result_json (results resp))) ].

Definition degraded (query : string) : SearchOutcome :=
  {| query := query; source := "degraded";
     payload := Json.JDict [("results", Json.JList [])] |}.

(** Step 4 of [search]: the live fetch with its two write-backs. *)
Definition live_tier (E : HybridSearchEngine) (query : string)
    (embedding : option ndarray) : M W SearchOutcome :=
  try_except
    (resp <- invoke (CallSearxng query) (searxng_search B query) ;;
     let payload := live_payload resp in
     attempt (sqlite_set query payload) ;;
     attempt (emb <- match embedding with
                     | None => embed (_embedder E) query
                     | Some emb => ret emb
                     end ;;
              cache_set (_redis E) query payload emb) ;;
     ret {| query := query; source := "searxng"; payload := payload |})
    (ret (degraded query)).

(** Steps 3 and 4. *)
Definition cold_tier (E : HybridSearchEngine) (query : string)
    (embedding : option ndarray) : M W SearchOutcome :=
  r <- attempt (sqlite_get query) ;;
  match r with
  | Ok (Some item) =>
      ret {| query := query; source := "sqlite"; payload := item_payload item |}
  | _ => live_tier E query embedding
  end.

(** Steps 2 to 4.  The local [embedding] keeps the vector when [embed]
    returned and [search_similar] raised. *)
Definition semantic_tier (E : HybridSearchEngine) (query : string)
  : M W SearchOutcome :=
  re <- attempt (embed (_embedder E) query) ;;
  match re with
  | Raise _ => cold_tier E query None
  | Ok embedding =>
      rh <- attempt (search_similar (_redis E) embedding 3) ;;
      match rh with
      | Ok (best :: _) =>
          ret {| query := query; source := "redis_semantic";
                 payload := hit_payload best |}
      | _ => cold_tier E query (Some embedding)
      end
  end.

(** [HybridSearchEngine.search] *)
Definition search (E : HybridSearchEngine) (query : string) : M W SearchOutcome :=
  let query := Text.strip query in
  if negb (Text.nonempty query) then ret (degraded query)
  else
    r <- attempt (get_exact (_redis E) query) ;;
    match r with
    | Ok exact =>
        if Json.truthy exact
        then ret {| query := query; source := "redis_exact"; payload := exact |}
        else semantic_tier E query
    | Raise _ => semantic_tier E query
    end.

End Components.

(** ** An in-memory backend

    A Redis server holding hashes with expiry deadlines on a logical clock,
    with or without the RediSearch module; a SQLite table; a scripted
    SearXNG instance; and a Python environment with or without
    sentence-transformers. *)

Module Mem.

Record world := World {
  hashes : gmap string (gmap string string);
  deadline : gmap string Z;
  clock : Z;
  rows : gmap string (string * pyfloat);
  provider : string -> result lib_error SearxngSearchResponse;
  ann : option reply;
  encoder : option (string -> ndarray)
}.

(** A key is visible until its deadline. *)
Definition alive (w : world) (key : string) : bool :=
  match deadline w !! key with
  | Some d => clock w <? d
  | None => true
  end.

Definition read (w : world) (key : string) : gmap string string :=
  if alive w key then default ∅ (hashes w !! key) else ∅.

Definition with_redis (w : world) (h : gmap string (gmap string string))
    (d : gmap string Z) : world :=
  World h d (clock w) (rows w) (provider w) (ann w) (encoder w).

(** HGETALL *)
Definition mem_hgetall (key : string) (w : world)
  : result lib_error (gmap string string) * world :=
  (Ok (read w key), w).

(** HSET: the given fields are written over the hash; a live deadline is
    kept. *)
Definition mem_hset (key : string) (mapping : list (string * string)) (w : world)
  : result lib_error unit * world :=
  let h := fold_left (fun m kv => <[fst kv := snd kv]> m) mapping (read w key) in
  let d := if alive w key then deadline w else delete key (deadline w) in
  (Ok tt, with_redis w (<[key := h]> (hashes w)) d).

(** EXPIRE: a timeout that is not positive deletes the key. *)
Definition mem_expire (key : string) (seconds : Z) (w : world)
  : result lib_error unit * world :=
  if decide (read w key = ∅) then (Ok tt, w)
  else if seconds <=? 0
  then (Ok tt, with_redis w (delete key (hashes w)) (delete key (deadline w)))
  else (Ok tt, with_redis w (hashes w) (<[key := clock w + seconds]> (deadline w))).

Definition mem_execute (args : list reply) (w : world)
  : result lib_error reply * world :=
  match ann w with
  | Some r => (Ok r, w)
  | None => (Raise (RedisResponseError "unknown command 'FT.SEARCH'"), w)
  end.

Definition mem_select (q : string) (w : world)
  : result lib_error (option (string * pyfloat)) * world :=
  (Ok (rows w !! q), w).

Definition mem_upsert (q payload_json : string) (now : pyfloat) (w : world)
  : result lib_error unit * world :=
  (Ok tt, World (hashes w) (deadline w) (clock w)
                (<[q := (payload_json, now)]> (rows w)) (provider w) (ann w)
                (encoder w)).

Definition mem_searxng (q : string) (w : world)
  : result lib_error SearxngSearchResponse * world :=
  (provider w q, w).

Definition no_model : lib_error :=
  ModelError "No module named 'sentence_transformers'".

(** [SentenceTransformer(name)] and [model.encode([text])]: one row per
    text when the package is installed. *)
Definition mem_load (name : string) (w : world) : result lib_error unit * world :=
  match encoder w with
  | Some _ => (Ok tt, w)
  | None => (Raise no_model, w)
  end.

Definition mem_encode (name text : string) (w : world)
  : result lib_error (list ndarray) * world :=
  match encoder w with
  | Some f => (Ok [f text], w)
  | None => (Raise no_model, w)
  end.

Definition mem_backend : backend world := {|
  hgetall := mem_hgetall;
  hset := mem_hset;
  expire := mem_expire;
  execute_command := mem_execute;
  sqlite_select := mem_select;
  sqlite_upsert := mem_upsert;
  searxng_search := mem_searxng;
  model_load := mem_load;
  model_encode := mem_encode;
  time_time := fun w => (Fin (clock w # 1), w)
|}.


(** A provider that is down, and one that answers every query with the same
    three results. *)
Definition down (q : string) : result lib_error SearxngSearchResponse :=
  Raise (RequestsError "connection refused").

Definition three_results (q : string) : result lib_error SearxngSearchResponse :=
  let r (n : string) :=
    {| title := String.append "title " n; url := String.append "https://example.org/" n;
       content := String.append "snippet " n; engine := Some "duckduckgo";
       score := Some (Fin (3 # 2)) |} in
  Ok {| resp_query := q; results := [r "a"; r "b"; r "c"]; raw := Json.JDict [] |}.

Definition empty (p : string -> result lib_error SearxngSearchResponse) : world :=
  World ∅ ∅ 1000 ∅ p None None.

(** A vector serialisation for running examples: four zero bytes per entry. *)
Definition zero_bytes (v : ndarray) : string :=
  Bytes.to_string (flat_map (fun _ => [0; 0; 0; 0]) v).

Definition default_cache : RedisVectorCache :=
  {| _index_name := "idx:searx_cache"; _key_prefix := "searx_cache:";
     _ttl_seconds := 7200; _vector_dim := 384 |}.

Definition default_engine : HybridSearchEngine :=
  {| _embedder := {| mode := "hash";
                     model_name := "sentence-transformers/all-MiniLM-L6-v2";
                     dim := 384 |};
     _redis := default_cache |}.

Definition start (w : world) : state world := State w None.

End Mem.

(** * Properties *)

(** ** Runs of the monad *)

Section Runs.

Context {W : Type}.

(** The run [r] preceded by the calls [pre]. *)
Definition after {A} (pre : list call) (r : run W A) : run W A :=
  Run (value r) (final r) (pre ++ calls r).

Lemma bind_ok {A B} (m : M W A) (f : A -> M W B) s a :
  value (m s) = Ok a ->
  bind m f s = after (calls (m s)) (f a (final (m s))).
Proof. intros H. unfold bind, after. now rewrite H. Qed.

Lemma bind_raise {A B} (m : M W A) (f : A -> M W B) s e :
  value (m s) = Raise e ->
  bind m f s = Run (Raise e) (final (m s)) (calls (m s)).
Proof. intros H. unfold bind. now rewrite H. Qed.

Lemma bind_attempt {A B} (m : M W A) (f : result exn A -> M W B) s :
  bind (attempt m) f s = after (calls (m s)) (f (value (m s)) (final (m s))).
Proof. reflexivity. Qed.

Lemma value_after {A} (p : list call) (r : run W A) : value (after p r) = value r.
Proof. reflexivity. Qed.

Lemma after_after {A} (p q : list call) (r : run W A) :
  after p (after q r) = after (p ++ q) r.
Proof. unfold after. simpl. now rewrite app_assoc. Qed.

Lemma try_except_value {A} (m h : M W A) s :
  value (try_except m h s)
  = match value (m s) with
    | Ok a => Ok a
    | Raise _ => value (h (final (m s)))
    end.
Proof. unfold try_except. rewrite bind_attempt. simpl. now destruct (value (m s)). Qed.

(** A handler that returns makes the whole [try] return. *)
Lemma try_except_ret_total {A} (m : M W A) (a : A) s :
  exists o, value (try_except m (ret a) s) = Ok o.
Proof. rewrite try_except_value. destruct (value (m s)); simpl; eauto. Qed.

End Runs.

(** ** The tiers of [search], one step at a time *)

Section Resolver.

Context {W : Type}.
Variable B : backend W.
Variable tobytes : ndarray -> string.

(** The exact tier did not serve the query: it raised, or returned a value
    that [if exact:] rejects. *)
Definition exact_missed (r : result exn Json.value) : Prop :=
  match r with
  | Ok v => Json.truthy v = false
  | Raise _ => True
  end.

(** The body of the semantic [try] block up to the lookup. *)
Definition semantic_lookup (E : HybridSearchEngine) (q : string)
  : M W (list RedisSemanticHit) :=
  bind (embed B (_embedder E) q)
       (fun embedding => search_similar B tobytes (_redis E) embedding 3).

(** The value of the local [embedding] after the semantic [try] block. *)
Definition embedding_after (E : HybridSearchEngine) (q : string) (s : state W)
  : option ndarray :=
  match value (embed B (_embedder E) q s) with
  | Ok e => Some e
  | Raise _ => None
  end.

(** The semantic tier did not serve the query. *)
Definition semantic_missed (r : result exn (list RedisSemanticHit)) : Prop :=
  match r with
  | Ok (_ :: _) => False
  | _ => True
  end.

(** The cold tier did not serve the query. *)
Definition cold_missed (r : result exn (option SqliteCacheItem)) : Prop :=
  match r with
  | Ok (Some _) => False
  | _ => True
  end.

Lemma search_blank E q s :
  Text.nonempty (Text.strip q) = false ->
  search B tobytes E q s = Run (Ok (degraded (Text.strip q))) s [].
Proof. intros H. unfold search. now rewrite H. Qed.

Lemma search_exact_hit E q s v :
  Text.nonempty (Text.strip q) = true ->
  value (get_exact B (_redis E) (Text.strip q) s) = Ok v ->
  Json.truthy v = true ->
  search B tobytes E q s
  = after (calls (get_exact B (_redis E) (Text.strip q) s))
      (Run (Ok {| query := Text.strip q; source := "redis_exact"; payload := v |})
           (final (get_exact B (_redis E) (Text.strip q) s)) []).
Proof.
  intros Hq Hv Ht. unfold search. rewrite Hq. simpl.
  rewrite bind_attempt, Hv, Ht. reflexivity.
Qed.

Lemma search_exact_miss E q s :
  Text.nonempty (Text.strip q) = true ->
  exact_missed (value (get_exact B (_redis E) (Text.strip q) s)) ->
  search B tobytes E q s
  = after (calls (get_exact B (_redis E) (Text.strip q) s))
      (semantic_tier B tobytes E (Text.strip q)
         (final (get_exact B (_redis E) (Text.strip q) s))).
Proof.
  intros Hq Hm. unfold search. rewrite Hq. simpl.
  rewrite bind_attempt.
  destruct (value (get_exact B (_redis E) (Text.strip q) s)) as [v|e]; [|reflexivity].
  simpl in Hm. now rewrite Hm.
Qed.

Lemma semantic_hit E q s e h hs :
  value (embed B (_embedder E) q s) = Ok e ->
  value (search_similar B tobytes (_redis E) e 3 (final (embed B (_embedder E) q s)))
    = Ok (h :: hs) ->
  semantic_tier B tobytes E q s
  = after (calls (semantic_lookup E q s))
      (Run (Ok {| query := q; source := "redis_semantic"; payload := hit_payload h |})
           (final (semantic_lookup E q s)) []).
Proof.
  intros He Hh. unfold semantic_tier, semantic_lookup.
  rewrite bind_attempt, He, bind_attempt, Hh.
  rewrite (bind_ok _ _ _ _ He). unfold after, ret. simpl.
  now rewrite !app_nil_r.
Qed.

Lemma semantic_miss E q s :
  semantic_missed (value (semantic_lookup E q s)) ->
  semantic_tier B tobytes E q s
  = after (calls (semantic_lookup E q s))
      (cold_tier B tobytes E q (embedding_after E q s) (final (semantic_lookup E q s))).
Proof.
  intros Hm. unfold semantic_tier, semantic_lookup, embedding_after in *.
  rewrite bind_attempt.
  destruct (value (embed B (_embedder E) q s)) as [e|x] eqn:He.
  - rewrite (bind_ok _ _ _ _ He) in *. simpl in Hm.
    rewrite bind_attempt, after_after. unfold after at 2. simpl.
    destruct (value (search_similar B tobytes (_redis E) e 3
                       (final (embed B (_embedder E) q s))))
      as [[|h hs]|x]; [reflexivity|contradiction|reflexivity].
  - rewrite (bind_raise _ _ _ _ He). reflexivity.
Qed.

Lemma cold_hit E q emb s item :
  value (sqlite_get B q s) = Ok (Some item) ->
  cold_tier B tobytes E q emb s
  = after (calls (sqlite_get B q s))
      (Run (Ok {| query := q; source := "sqlite"; payload := item_payload item |})
           (final (sqlite_get B q s)) []).
Proof.
  intros H. unfold cold_tier. now rewrite bind_attempt, H.
Qed.

Lemma cold_miss E q emb s :
  cold_missed (value (sqlite_get B q s)) ->
  cold_tier B tobytes E q emb s
  = after (calls (sqlite_get B q s))
      (live_tier B tobytes E q emb (final (sqlite_get B q s))).
Proof.
  intros H. unfold cold_tier. rewrite bind_attempt.
  destruct (value (sqlite_get B q s)) as [[item|]|x]; [contradiction|reflexivity..].
Qed.

Lemma live_tier_total E q emb s :
  exists o, value (live_tier B tobytes E q emb s) = Ok o.
Proof. apply try_except_ret_total. Qed.

Lemma live_tier_down E q emb s e :
  fst (searxng_search B q (world s)) = Raise e ->
  value (live_tier B tobytes E q emb s) = Ok (degraded q).
Proof.
  intros H. unfold live_tier. rewrite try_except_value.
  unfold bind at 1. unfold invoke at 1.
  destruct (searxng_search B q (world s)) as [r w]. simpl in H. subst r.
  reflexivity.
Qed.

Lemma cold_tier_total E q emb s :
  exists o, value (cold_tier B tobytes E q emb s) = Ok o.
Proof.
  unfold cold_tier. rewrite bind_attempt, value_after.
  destruct (value (sqlite_get B q s)) as [[item|]|x];
    [eexists; reflexivity|apply live_tier_total..].
Qed.

Lemma semantic_tier_total E q s :
  exists o, value (semantic_tier B tobytes E q s) = Ok o.
Proof.
  unfold semantic_tier. rewrite bind_attempt, value_after.
  destruct (value (embed B (_embedder E) q s)) as [e|x]; [|apply cold_tier_total].
  rewrite bind_attempt, value_after.
  destruct (value (search_similar B tobytes _ _ _ _)) as [[|h hs]|x];
    [apply cold_tier_total|eexists; reflexivity|apply cold_tier_total].
Qed.

Lemma search_total E q s : exists o, value (search B tobytes E q s) = Ok o.
Proof.
  unfold search.
  destruct (negb (Text.nonempty (Text.strip q))); [eexists; reflexivity|].
  rewrite bind_attempt, value_after.
  destruct (value (get_exact B _ _ _)) as [v|x]; [destruct (Json.truthy v)|];
    [eexists; reflexivity|apply semantic_tier_total..].
Qed.

End Resolver.

(** ** Which backends a computation talks to *)

Section Discipline.

Context {W : Type}.
Variable P : call -> Prop.

(** Every call that [m] logs, from any state, satisfies [P]. *)
Definition only {A} (m : M W A) : Prop := forall s, Forall P (calls (m s)).

Lemma only_ret {A} (a : A) : only (ret a).
Proof. intros s. constructor. Qed.

Lemma only_raise {A} (e : exn) : only (raise (A := A) e).
Proof. intros s. constructor. Qed.

Lemma only_lift {A} (r : result exn A) : only (lift r).
Proof. intros s. constructor. Qed.

Lemma only_get_model : only get_model.
Proof. intros s. constructor. Qed.

Lemma only_set_model (m : option string) : only (set_model m).
Proof. intros s. constructor. Qed.

Lemma only_invoke {A} (c : call) (op : W -> result lib_error A * W) :
  P c -> only (invoke c op).
Proof.
  intros Hc s. unfold invoke. destruct (op (world s)) as [r w]. simpl.
  constructor; [exact Hc|constructor].
Qed.

Lemma only_bind {A B} (m : M W A) (f : A -> M W B) :
  only m -> (forall a, only (f a)) -> only (bind m f).
Proof.
  intros Hm Hf s. unfold bind.
  destruct (value (m s)) as [a|e]; simpl; [|apply Hm].
  apply Forall_app. split; [apply Hm|apply Hf].
Qed.

Lemma only_attempt {A} (m : M W A) : only m -> only (attempt m).
Proof. intros Hm s. apply Hm. Qed.

Lemma only_try_except {A} (m h : M W A) : only m -> only h -> only (try_except m h).
Proof.
  intros Hm Hh. apply only_bind; [now apply only_attempt|].
  intros [a|e]; [apply only_ret|exact Hh].
Qed.

End Discipline.

(** A request to the live provider. *)
Definition is_live (c : call) : bool :=
  match c with
  | CallSearxng _ => true
  | _ => false
  end.

Definition offline (c : call) : Prop := is_live c = false.

Lemma offline_not_live (l : list call) :
  Forall offline l -> forall q, ~ In (CallSearxng q) l.
Proof.
  intros H q Hin. rewrite List.Forall_forall in H. specialize (H _ Hin). discriminate.
Qed.

Section Offline.

Context {W : Type}.
Variable B : backend W.
Variable tobytes : ndarray -> string.

Lemma get_exact_offline c q : only offline (get_exact B c q).
Proof.
  unfold get_exact. apply only_bind; [now apply only_invoke|].
  intros data. destruct (decide (data = ∅)); [apply only_ret|].
  destruct (data !! "payload_json") as [pj|]; [|apply only_ret].
  destruct (negb (Text.nonempty pj)); [apply only_ret|].
  apply only_bind; [apply only_lift|]. intros t. apply only_lift.
Qed.

Lemma _st_embed_offline e text : only offline (_st_embed B e text).
Proof.
  unfold _st_embed. apply only_bind; [apply only_get_model|]. intros m.
  apply only_bind.
  - destruct m as [name|]; [apply only_ret|].
    apply only_bind; [now apply only_invoke|]. intros _.
    apply only_bind; [apply only_set_model|]. intros _. apply only_ret.
  - intros name. apply only_bind; [now apply only_invoke|].
    intros [|row rows]; [apply only_raise|apply only_ret].
Qed.

Lemma embed_offline e text : only offline (embed B e text).
Proof.
  unfold embed. destruct (String.eqb (mode e) "hash"); [apply only_ret|].
  destruct (_ || _); [apply _st_embed_offline|].
  apply only_try_except; [apply _st_embed_offline|apply only_ret].
Qed.

Lemma search_similar_offline c e k : only offline (search_similar B tobytes c e k).
Proof.
  unfold search_similar. destruct (negb _); [apply only_raise|].
  apply only_bind; [now apply only_invoke|]. intros res. apply only_lift.
Qed.

Lemma semantic_lookup_offline E q : only offline (semantic_lookup B tobytes E q).
Proof.
  unfold semantic_lookup. apply only_bind; [apply embed_offline|].
  intros e. apply search_similar_offline.
Qed.

Lemma sqlite_get_offline q : only offline (sqlite_get B q).
Proof.
  unfold sqlite_get. apply only_bind; [now apply only_invoke|].
  intros [[pj t]|]; [|apply only_ret].
  apply only_bind; [apply only_lift|]. intros v. apply only_ret.
Qed.

End Offline.

(** ** The resolver's contract *)

Section Contract.

Context {W : Type}.
Variable B : backend W.
Variable tobytes : ndarray -> string.

Lemma invoke_value {A} (c : call) (op : W -> result lib_error A * W) s x :
  value (invoke c op s) = Raise x -> exists e, x = LibError e.
Proof.
  unfold invoke. destruct (op (world s)) as [[a|e] w]; simpl; [discriminate|].
  intros [= <-]. now exists e.
Qed.

Lemma bind_value_raise {A C} (m : M W A) (f : A -> M W C) s x :
  value (bind m f s) = Raise x ->
  value (m s) = Raise x
  \/ exists a, value (m s) = Ok a /\ value (f a (final (m s))) = Raise x.
Proof.
  unfold bind. destruct (value (m s)) as [a|e]; simpl; intros H; [right|left].
  - now exists a.
  - now injection H as ->.
Qed.

(** With a vector of the configured length, [set] can only fail the way its
    three client calls fail. *)
Lemma cache_set_value c q p e s x :
  Z.of_nat (length e) = _vector_dim c ->
  value (cache_set B tobytes c q p e s) = Raise x -> exists le, x = LibError le.
Proof.
  intros Hlen. unfold cache_set. rewrite Hlen, Z.eqb_refl. simpl.
  intros H.
  apply bind_value_raise in H as [H|(now & _ & H)]; [exact (invoke_value _ _ _ _ H)|].
  apply bind_value_raise in H as [H|(u & _ & H)]; exact (invoke_value _ _ _ _ H).
Qed.

Lemma cache_set_mismatch c q p e s :
  Z.of_nat (length e) <> _vector_dim c ->
  cache_set B tobytes c q p e s
  = Run (Raise (DimensionError (Z.of_nat (length e)) (_vector_dim c))) s [].
Proof.
  intros H. unfold cache_set.
  destruct (Z.eqb_spec (Z.of_nat (length e)) (_vector_dim c)); [contradiction|].
  reflexivity.
Qed.

(** C7.  [RedisVectorCache.set] raises the dimension error exactly when the
    embedding's length differs from the configured vector dimension; in that
    case it returns before any call to the Redis client, so the store (the
    whole world, in fact) is what it was. *)
Theorem cache_set_dimension_guard c q p e s :
  ((exists got want,
       value (cache_set B tobytes c q p e s) = Raise (DimensionError got want))
   <-> Z.of_nat (length e) <> _vector_dim c)
  /\ (Z.of_nat (length e) <> _vector_dim c ->
      value (cache_set B tobytes c q p e s)
        = Raise (DimensionError (Z.of_nat (length e)) (_vector_dim c))
      /\ final (cache_set B tobytes c q p e s) = s
      /\ calls (cache_set B tobytes c q p e s) = []).
Proof.
  split; [split|].
  - intros (got & want & H) Hlen.
    destruct (cache_set_value _ _ _ _ _ _ Hlen H) as [le Hle]. discriminate.
  - intros H. rewrite (cache_set_mismatch _ _ _ _ _ H). simpl. eauto.
  - intros H. now rewrite (cache_set_mismatch _ _ _ _ _ H).
Qed.

(** C1.  [search] returns an outcome for every query, backend and state, and
    never raises.  When the exact tier misses or fails, the semantic tier
    misses or fails, the cold tier misses or fails and the live fetch raises,
    each tier running in the state its predecessor left, the outcome is the
    degraded one: source ["degraded"], payload [{"results": []}]. *)
Theorem search_total_and_degrades E q s :
  (exists o, value (search B tobytes E q s) = Ok o)
  /\ (forall e,
        let q' := Text.strip q in
        let s1 := final (get_exact B (_redis E) q' s) in
        let s2 := final (semantic_lookup B tobytes E q' s1) in
        let s3 := final (sqlite_get B q' s2) in
        exact_missed (value (get_exact B (_redis E) q' s)) ->
        semantic_missed (value (semantic_lookup B tobytes E q' s1)) ->
        cold_missed (value (sqlite_get B q' s2)) ->
        fst (searxng_search B q' (world s3)) = Raise e ->
        value (search B tobytes E q s)
        = Ok {| query := q'; source := "degraded";
                payload := Json.JDict [("results", Json.JList [])] |}).
Proof.
  split; [apply search_total|].
  intros e. cbv zeta. intros H1 H2 H3 H4.
  destruct (Text.nonempty (Text.strip q)) eqn:Hq; [|now rewrite search_blank].
  rewrite (search_exact_miss _ _ _ _ _ Hq H1), value_after.
  rewrite (semantic_miss _ _ _ _ _ H2), value_after.
  rewrite (cold_miss _ _ _ _ _ _ H3), value_after.
  exact (live_tier_down _ _ _ _ _ _ _ H4).
Qed.

(** C4.  When the exact tier misses and [search_similar] returns a non-empty
    list, [search] returns the payload of the first hit under the source
    ["redis_semantic"], whatever the hit's score is: nothing compares the
    score with a threshold. *)
Theorem semantic_top1_unconditional E q s e h hs :
  let q' := Text.strip q in
  let s1 := final (get_exact B (_redis E) q' s) in
  Text.nonempty q' = true ->
  exact_missed (value (get_exact B (_redis E) q' s)) ->
  value (embed B (_embedder E) q' s1) = Ok e ->
  value (search_similar B tobytes (_redis E) e 3
           (final (embed B (_embedder E) q' s1))) = Ok (h :: hs) ->
  value (search B tobytes E q s)
  = Ok {| query := q'; source := "redis_semantic"; payload := hit_payload h |}.
Proof.
  cbv zeta. intros Hq H1 He Hh.
  rewrite (search_exact_miss _ _ _ _ _ Hq H1), value_after.
  now rewrite (semantic_hit _ _ _ _ _ _ _ _ He Hh).
Qed.

(** C6.  For a non-empty query, when the exact tier misses or fails, the
    semantic tier fails (an unsupported command included) or finds nothing,
    and the cold cache returns an item for the query, [search] returns that
    item's payload under the source ["sqlite"], and no request to the live
    provider is in the log of the call. *)
Theorem cold_hit_served_offline E q s item :
  let q' := Text.strip q in
  let s1 := final (get_exact B (_redis E) q' s) in
  let s2 := final (semantic_lookup B tobytes E q' s1) in
  Text.nonempty q' = true ->
  exact_missed (value (get_exact B (_redis E) q' s)) ->
  semantic_missed (value (semantic_lookup B tobytes E q' s1)) ->
  value (sqlite_get B q' s2) = Ok (Some item) ->
  value (search B tobytes E q s)
    = Ok {| query := q'; source := "sqlite"; payload := item_payload item |}
  /\ forall x, ~ In (CallSearxng x) (calls (search B tobytes E q s)).
Proof.
  cbv zeta. intros Hq H1 H2 H3.
  rewrite (search_exact_miss _ _ _ _ _ Hq H1).
  rewrite (semantic_miss _ _ _ _ _ H2).
  rewrite (cold_hit _ _ _ _ _ _ _ H3).
  split; [reflexivity|].
  apply offline_not_live. unfold after. simpl.
  repeat (apply Forall_app; split); [| | |constructor].
  - apply get_exact_offline.
  - apply semantic_lookup_offline.
  - apply sqlite_get_offline.
Qed.

End Contract.

(** ** Concrete runs on the in-memory backend *)

Module Demo.

(** An engine that asks for the model, and a model that answers every text
    with the zero vector of the configured length. *)
Definition st_engine : HybridSearchEngine :=
  {| _embedder := {| mode := "st";
                     model_name := "sentence-transformers/all-MiniLM-L6-v2";
                     dim := 384 |};
     _redis := Mem.default_cache |}.

Definition zero_model (text : string) : ndarray := repeat 0%R 384.

(** A payload as the live tier builds it. *)
Definition sample_payload : Json.value :=
  Json.JDict
    [ ("query", Json.JStr "what is rocq");
      ("results",
       Json.JList
         [ Json.JDict
             [ ("title", Json.JStr "The Rocq Prover");
               ("url", Json.JStr "https://rocq-prover.org");
               ("content", Json.JStr "A proof assistant");
               ("engine", Json.JStr "duckduckgo");
               ("score", Json.JFloat (Fin (3 # 2))) ] ]) ].

(** Plain Redis, model installed, one row in the SQLite table. *)
Definition cold_world : Mem.world :=
  Mem.World ∅ ∅ 1000
    {[ "what is rocq" := (Json.dumps sample_payload, Fin (900 # 1)) ]}
    Mem.down None (Some zero_model).

(** Redis with RediSearch answering one document at cosine distance 1.98,
    close to the opposite direction. *)
Definition far_payload : Json.value :=
  Json.JDict [ ("query", Json.JStr "an unrelated question");
               ("results", Json.JList []) ].

Definition far_hit : RedisSemanticHit :=
  {| hit_query := "an unrelated question"; hit_payload := far_payload;
     hit_score := Fin (99 # 50) |}.

Definition far_reply : reply :=
  RArray
    [ RInt 1; RBulk "searx_cache:0001";
      RArray [ RBulk "query"; RBulk "an unrelated question";
               RBulk "payload_json"; RBulk (Json.dumps far_payload);
               RBulk "score"; RBulk "1.98" ] ].

Definition ann_world : Mem.world :=
  Mem.World ∅ ∅ 1000 ∅ Mem.down (Some far_reply) (Some zero_model).

End Demo.


Lemma cache_set_dimension_guard_witness :
  value (cache_set Mem.mem_backend Mem.zero_bytes Mem.default_cache "what is rocq"
           Demo.sample_payload [1%R; 0%R] (Mem.start Demo.cold_world))
    = Raise (DimensionError 2 384)
  /\ final (cache_set Mem.mem_backend Mem.zero_bytes Mem.default_cache "what is rocq"
              Demo.sample_payload [1%R; 0%R] (Mem.start Demo.cold_world))
    = Mem.start Demo.cold_world
  /\ calls (cache_set Mem.mem_backend Mem.zero_bytes Mem.default_cache "what is rocq"
              Demo.sample_payload [1%R; 0%R] (Mem.start Demo.cold_world))
    = [].
Proof.
  apply (proj2 (cache_set_dimension_guard Mem.mem_backend Mem.zero_bytes
                  Mem.default_cache "what is rocq" Demo.sample_payload
                  [1%R; 0%R] (Mem.start Demo.cold_world))).
  simpl. lia.
Defined.

Lemma search_total_and_degrades_witness :
  value (search Mem.mem_backend Mem.zero_bytes Demo.st_engine "  what is rocq  "
           (Mem.start (Mem.empty Mem.down)))
  = Ok {| query := "what is rocq"; source := "degraded";
          payload := Json.JDict [("results", Json.JList [])] |}.
Proof.
  apply (proj2 (search_total_and_degrades Mem.mem_backend Mem.zero_bytes
                  Demo.st_engine "  what is rocq  " (Mem.start (Mem.empty Mem.down)))
           (RequestsError "connection refused")).
  - vm_compute. reflexivity.
  - vm_compute. exact I.
  - vm_compute. exact I.
  - vm_compute. reflexivity.
Defined.

Lemma semantic_top1_unconditional_witness :
  value (search Mem.mem_backend Mem.zero_bytes Demo.st_engine "  what is rocq  "
           (Mem.start Demo.ann_world))
  = Ok {| query := "what is rocq"; source := "redis_semantic";
          payload := Demo.far_payload |}.
Proof.
  apply (semantic_top1_unconditional Mem.mem_backend Mem.zero_bytes
           Demo.st_engine "  what is rocq  " (Mem.start Demo.ann_world)
           (repeat 0%R 384) Demo.far_hit []).
  - vm_compute. reflexivity.
  - vm_compute. reflexivity.
  - vm_compute. reflexivity.
  - vm_compute. reflexivity.
Defined.

Lemma cold_hit_served_offline_witness :
  value (search Mem.mem_backend Mem.zero_bytes Demo.st_engine "  what is rocq  "
           (Mem.start Demo.cold_world))
    = Ok {| query := "what is rocq"; source := "sqlite";
            payload := Demo.sample_payload |}
  /\ forall x, ~ In (CallSearxng x)
                  (calls (search Mem.mem_backend Mem.zero_bytes Demo.st_engine
                            "  what is rocq  " (Mem.start Demo.cold_world))).
Proof.
  apply (cold_hit_served_offline Mem.mem_backend Mem.zero_bytes
           Demo.st_engine "  what is rocq  " (Mem.start Demo.cold_world)
           {| item_query := "what is rocq"; item_payload := Demo.sample_payload;
              item_created_at := Fin (900 # 1) |}).
  - vm_compute. reflexivity.
  - vm_compute. reflexivity.
  - vm_compute. exact I.
  - vm_compute. reflexivity.
Defined.

(** ** The embedder's modes *)

(** [self.mode in {"st", "sentence-transformers"}] *)
Definition model_requested (e : Embedder) : bool :=
  String.eqb (mode e) "st" || String.eqb (mode e) "sentence-transformers".

Section Modes.

Context {W : Type}.
Variable B : backend W.

Lemma embed_hash e text s :
  String.eqb (mode e) "hash" = true ->
  embed B e text s = Run (Ok (_hash_embed text (dim e))) s [].
Proof. intros H. unfold embed. now rewrite H. Qed.

(** C2, amended.  [embed] returns the hash embedding in mode ["hash"],
    touching nothing.  In the modes ["st"] and ["sentence-transformers"] it
    is [_st_embed] itself, so a failure to build or to run the model reaches
    the caller.  In every other mode it never raises: it tries the model and
    answers with the hash embedding of the text when the model fails. *)
Theorem embed_by_mode e text s :
  (String.eqb (mode e) "hash" = true ->
   embed B e text s = Run (Ok (_hash_embed text (dim e))) s [])
  /\ (String.eqb (mode e) "hash" = false -> model_requested e = true ->
      embed B e text s = _st_embed B e text s)
  /\ (String.eqb (mode e) "hash" = false -> model_requested e = false ->
      (exists v, value (embed B e text s) = Ok v)
      /\ (forall x, value (_st_embed B e text s) = Raise x ->
          value (embed B e text s) = Ok (_hash_embed text (dim e)))
      /\ (forall v, value (_st_embed B e text s) = Ok v ->
          value (embed B e text s) = Ok v)).
Proof.
  unfold model_requested. split; [apply embed_hash|split].
  - intros Hh Hm. unfold embed. now rewrite Hh, Hm.
  - intros Hh Hm. unfold embed. rewrite Hh, Hm. rewrite try_except_value.
    destruct (value (_st_embed B e text s)) as [v|x]; simpl.
    + split; [eauto|split]; [discriminate|now intros v' [= <-]].
    + split; [eauto|split]; [reflexivity|discriminate].
Qed.

End Modes.

(** C2.  With sentence-transformers missing, [embed] in mode ["st"] raises
    what the import raises; it does not return the hash embedding. *)
Lemma embed_st_propagates :
  fst (model_load Mem.mem_backend (model_name (_embedder Demo.st_engine))
         (Mem.empty Mem.down)) = Raise Mem.no_model
  /\ value (embed Mem.mem_backend (_embedder Demo.st_engine) "what is rocq"
              (Mem.start (Mem.empty Mem.down)))
     = Raise (LibError Mem.no_model)
  /\ ~ (forall e text s,
          exists v, value (embed Mem.mem_backend e text s) = Ok v).
Proof.
  assert (H : value (embed Mem.mem_backend (_embedder Demo.st_engine) "what is rocq"
                       (Mem.start (Mem.empty Mem.down)))
              = Raise (LibError Mem.no_model)) by (vm_compute; reflexivity).
  split; [reflexivity|split; [exact H|]].
  intros Hall.
  destruct (Hall (_embedder Demo.st_engine) "what is rocq"
              (Mem.start (Mem.empty Mem.down))) as [v Hv].
  rewrite H in Hv. discriminate.
Qed.

(** An embedder in a mode the code does not list. *)
Definition auto_embedder : Embedder :=
  {| mode := "auto"; model_name := "sentence-transformers/all-MiniLM-L6-v2";
     dim := 384 |}.

Lemma embed_by_mode_witness :
  value (embed Mem.mem_backend auto_embedder "what is rocq"
           (Mem.start (Mem.empty Mem.down)))
  = Ok (_hash_embed "what is rocq" 384).
Proof.
  apply (proj2 (proj2 (embed_by_mode Mem.mem_backend auto_embedder "what is rocq"
                         (Mem.start (Mem.empty Mem.down))))
           eq_refl eq_refl)
    with (x := LibError Mem.no_model).
  vm_compute. reflexivity.
Defined.

(** ** The semantic tier across calls *)

(** An [FT.SEARCH] request. *)
Definition is_ann (c : call) : bool :=
  match c with
  | CallExecute (RBulk cmd :: _) => String.eqb cmd "FT.SEARCH"
  | _ => false
  end.

Section Session.

Context {W : Type}.
Variable B : backend W.
Variable tobytes : ndarray -> string.

Lemma calls_after {A} (p : list call) (r : run W A) :
  calls (after p r) = p ++ calls r.
Proof. reflexivity. Qed.

Lemma search_similar_calls c e k s :
  Z.of_nat (length e) = _vector_dim c ->
  calls (search_similar B tobytes c e k s) = [CallExecute (knn_args tobytes c e k)].
Proof.
  intros H. unfold search_similar. rewrite H, Z.eqb_refl. simpl.
  unfold bind, invoke. destruct (execute_command B _ _) as [[r|x] w]; reflexivity.
Qed.

Lemma semantic_tier_calls E q s :
  exists rest,
    calls (semantic_tier B tobytes E q s)
    = calls (semantic_lookup B tobytes E q s) ++ rest.
Proof.
  destruct (value (semantic_lookup B tobytes E q s)) as [[|h hs]|x] eqn:Hv.
  - rewrite semantic_miss by now rewrite Hv. eexists. reflexivity.
  - unfold semantic_lookup in Hv.
    destruct (value (embed B (_embedder E) q s)) as [e|x] eqn:He.
    + rewrite (bind_ok _ _ _ _ He) in Hv. rewrite value_after in Hv.
      rewrite (semantic_hit _ _ _ _ _ _ _ _ He Hv). eexists. reflexivity.
    + rewrite (bind_raise _ _ _ _ He) in Hv. discriminate.
  - rewrite semantic_miss by now rewrite Hv. eexists. reflexivity.
Qed.

Lemma semantic_lookup_calls E q s e :
  value (embed B (_embedder E) q s) = Ok e ->
  Z.of_nat (length e) = _vector_dim (_redis E) ->
  calls (semantic_lookup B tobytes E q s)
  = calls (embed B (_embedder E) q s) ++ [CallExecute (knn_args tobytes (_redis E) e 3)].
Proof.
  intros He Hlen. unfold semantic_lookup. rewrite (bind_ok _ _ _ _ He).
  rewrite calls_after. now rewrite search_similar_calls.
Qed.

(** C3, amended.  [search] keeps no record of earlier failures of the
    semantic tier: from any state, so after any earlier calls, a call whose
    exact tier misses and whose embedding has the configured length sends
    [FT.SEARCH] to Redis again. *)
Theorem semantic_tier_always_attempted E q s e :
  let q' := Text.strip q in
  let s1 := final (get_exact B (_redis E) q' s) in
  Text.nonempty q' = true ->
  exact_missed (value (get_exact B (_redis E) q' s)) ->
  value (embed B (_embedder E) q' s1) = Ok e ->
  Z.of_nat (length e) = _vector_dim (_redis E) ->
  In (CallExecute (knn_args tobytes (_redis E) e 3))
     (calls (search B tobytes E q s))
  /\ existsb is_ann (calls (search B tobytes E q s)) = true.
Proof.
  cbv zeta. intros Hq H1 He Hlen.
  assert (Hin : In (CallExecute (knn_args tobytes (_redis E) e 3))
                   (calls (search B tobytes E q s))).
  { rewrite (search_exact_miss _ _ _ _ _ Hq H1), calls_after.
    destruct (semantic_tier_calls E (Text.strip q)
                (final (get_exact B (_redis E) (Text.strip q) s))) as [rest ->].
    rewrite (semantic_lookup_calls _ _ _ _ He Hlen).
    rewrite !in_app_iff. right. left. right. now left. }
  split; [exact Hin|].
  apply existsb_exists. eexists. split; [exact Hin|reflexivity].
Qed.

End Session.

(** C3.  Plain Redis answers [FT.SEARCH] with "unknown command".  The first
    call of a session gets that answer; the second call, from the state the
    first one left, sends [FT.SEARCH] again and gets the same answer. *)
Lemma semantic_tier_retried :
  let s0 := Mem.start Demo.cold_world in
  let q := "what is rocq" in
  let r1 := search Mem.mem_backend Mem.zero_bytes Demo.st_engine q s0 in
  let r2 := search Mem.mem_backend Mem.zero_bytes Demo.st_engine q (final r1) in
  let unsupported := LibError (RedisResponseError "unknown command 'FT.SEARCH'") in
  value (semantic_lookup Mem.mem_backend Mem.zero_bytes Demo.st_engine q
           (final (get_exact Mem.mem_backend Mem.default_cache q s0)))
    = Raise unsupported
  /\ existsb is_ann (calls r1) = true
  /\ value (semantic_lookup Mem.mem_backend Mem.zero_bytes Demo.st_engine q
              (final (get_exact Mem.mem_backend Mem.default_cache q (final r1))))
     = Raise unsupported
  /\ existsb is_ann (calls r2) = true.
Proof. vm_compute. repeat split. Qed.

Lemma semantic_tier_always_attempted_witness :
  In (CallExecute (knn_args Mem.zero_bytes Mem.default_cache (repeat 0%R 384) 3))
     (calls (search Mem.mem_backend Mem.zero_bytes Demo.st_engine "what is rocq"
               (Mem.start Demo.cold_world)))
  /\ existsb is_ann
       (calls (search Mem.mem_backend Mem.zero_bytes Demo.st_engine "what is rocq"
                 (Mem.start Demo.cold_world))) = true.
Proof.
  apply (semantic_tier_always_attempted Mem.mem_backend Mem.zero_bytes
           Demo.st_engine "what is rocq" (Mem.start Demo.cold_world)
           (repeat 0%R 384)).
  - vm_compute. reflexivity.
  - vm_compute. reflexivity.
  - vm_compute. reflexivity.
  - vm_compute. reflexivity.
Defined.

(** ** The exact cache on the in-memory Redis *)

Section ExactCache.

Variable tobytes : ndarray -> string.

Lemma read_after_hset w key mapping :
  Mem.read (snd (Mem.mem_hset key mapping w)) key
  = fold_left (fun m kv => <[fst kv := snd kv]> m) mapping (Mem.read w key).
Proof.
  unfold Mem.mem_hset, Mem.read at 1, Mem.alive. simpl.
  rewrite lookup_insert_eq. simpl.
  destruct (Mem.deadline w !! key) as [d|] eqn:Hd.
  - destruct (Mem.clock w <? d) eqn:Hlt.
    + now rewrite Hd, Hlt.
    + now rewrite lookup_delete_eq.
  - now rewrite Hd.
Qed.

Lemma read_after_expire w key seconds :
  0 < seconds ->
  Mem.read (snd (Mem.mem_expire key seconds w)) key = Mem.read w key.
Proof.
  intros Hs. unfold Mem.mem_expire.
  destruct (decide (Mem.read w key = ∅)) as [He|He]; [reflexivity|].
  destruct (Z.leb_spec seconds 0); [lia|]. simpl.
  unfold Mem.read, Mem.alive in *. simpl. rewrite lookup_insert_eq.
  destruct (Z.ltb_spec (Mem.clock w) (Mem.clock w + seconds)); [|lia].
  destruct (Mem.deadline w !! key) as [d|]; [|reflexivity].
  destruct (Mem.clock w <? d); [reflexivity|].
  now contradiction He.
Qed.

Lemma final_cache_set c q p e w m :
  Z.of_nat (length e) = _vector_dim c ->
  let key := _make_key c (_stable_id q) in
  let mapping :=
    [ ("query", q); ("payload_json", Json.dumps p);
      ("created_at", str_float (Fin (Mem.clock w # 1))); ("embedding", tobytes e) ] in
  cache_set Mem.mem_backend tobytes c q p e (State w m)
  = Run (Ok tt)
        (State (snd (Mem.mem_expire key (_ttl_seconds c)
                       (snd (Mem.mem_hset key mapping w)))) m)
        [CallTime; CallHset key mapping; CallExpire key (_ttl_seconds c)].
Proof.
  intros Hlen. cbv zeta. unfold cache_set. rewrite Hlen, Z.eqb_refl. simpl.
  unfold bind, invoke. simpl.
  destruct (Mem.mem_expire _ _ _) as [[[]|x] w'] eqn:Hx; [reflexivity|].
  unfold Mem.mem_expire in Hx.
  repeat match type of Hx with
         | (if ?b then _ else _) = _ => destruct b
         end; discriminate.
Qed.

(** [get_exact] as a function of the hash that is visible under the key. *)
Definition exact_of (data : gmap string string) : result exn Json.value :=
  if decide (data = ∅) then Ok Json.JNull
  else
    match data !! "payload_json" with
    | None => Ok Json.JNull
    | Some payload_json =>
        if negb (Text.nonempty payload_json) then Ok Json.JNull
        else
          match decode_utf8 payload_json with
          | Ok text => json_loads text
          | Raise x => Raise x
          end
    end.

Lemma get_exact_read c q s :
  value (get_exact Mem.mem_backend c q s)
  = exact_of (Mem.read (world s) (_make_key c (_stable_id q))).
Proof.
  unfold get_exact, exact_of, bind at 1, invoke. simpl.
  destruct (decide _); [reflexivity|].
  destruct (_ !! "payload_json") as [pj|]; [|reflexivity].
  destruct (negb (Text.nonempty pj)); [reflexivity|].
  unfold bind, lift. simpl.
  destruct (decode_utf8 pj) as [t|x]; simpl; [|reflexivity].
  now destruct (json_loads t).
Qed.

(** What [get_exact] reads back after a [set] under the same stable id. *)
Lemma get_exact_after_set c q q' p e w m :
  Z.of_nat (length e) = _vector_dim c ->
  0 < _ttl_seconds c ->
  _stable_id q' = _stable_id q ->
  Text.nonempty (Json.dumps p) = true ->
  value (get_exact Mem.mem_backend c q
           (final (cache_set Mem.mem_backend tobytes c q' p e (State w m))))
  = match decode_utf8 (Json.dumps p) with
    | Ok text => json_loads text
    | Raise x => Raise x
    end.
Proof.
  intros Hlen Httl Hid Hne.
  rewrite get_exact_read, (final_cache_set _ _ _ _ _ _ Hlen). cbv zeta.
  cbn [final world]. rewrite <- Hid.
  rewrite (read_after_expire _ _ _ Httl), read_after_hset.
  cbn [fold_left fst snd].
  set (h := <["embedding" := _]> _).
  unfold exact_of.
  destruct (decide (h = ∅)) as [He|_].
  { exfalso. revert He. apply insert_non_empty. }
  assert (Hp : h !! "payload_json" = Some (Json.dumps p)).
  { unfold h. rewrite lookup_insert_ne by discriminate.
    rewrite lookup_insert_ne by discriminate. apply lookup_insert_eq. }
  now rewrite Hp, Hne.
Qed.

(** C8.  On a Redis that keeps keys until their deadline, with a positive
    time-to-live, [set(q, payload, embedding)] with an embedding of the
    configured length succeeds, and [get_exact(q)] run in the state it
    leaves returns the payload, for every payload that JSON carries: one
    whose [json.dumps] text is well-formed UTF-8 and is read back by
    [json.loads] as the payload itself. *)
Theorem set_get_exact_roundtrip c q p e w m :
  Z.of_nat (length e) = _vector_dim c ->
  0 < _ttl_seconds c ->
  Utf8.valid (Bytes.of_string (Json.dumps p)) = true ->
  Json.loads (Json.dumps p) = Some p ->
  value (cache_set Mem.mem_backend tobytes c q p e (State w m)) = Ok tt
  /\ value (get_exact Mem.mem_backend c q
              (final (cache_set Mem.mem_backend tobytes c q p e (State w m))))
     = Ok p.
Proof.
  intros Hlen Httl Hu Hl. split.
  - now rewrite (final_cache_set _ _ _ _ _ _ Hlen).
  - rewrite (get_exact_after_set _ _ _ _ _ _ _ Hlen Httl eq_refl).
    + unfold decode_utf8, json_loads. now rewrite Hu, Hl.
    + destruct (Json.dumps p); [discriminate Hl|reflexivity].
Qed.

(** C10.  [set] and [get_exact] both address the hash named by the SHA-256
    hex digest of the trimmed query, so two queries with the same trimmed
    text name the same key, and a payload stored under one is returned by
    [get_exact] for the other. *)
Theorem whitespace_variants_share_entry c q q' p e w m :
  Text.strip q' = Text.strip q ->
  Z.of_nat (length e) = _vector_dim c ->
  0 < _ttl_seconds c ->
  Utf8.valid (Bytes.of_string (Json.dumps p)) = true ->
  Json.loads (Json.dumps p) = Some p ->
  _stable_id q = Sha256.hexdigest (Bytes.of_string (Text.strip q))
  /\ _make_key c (_stable_id q') = _make_key c (_stable_id q)
  /\ value (get_exact Mem.mem_backend c q
              (final (cache_set Mem.mem_backend tobytes c q' p e (State w m))))
     = Ok p.
Proof.
  intros Hs Hlen Httl Hu Hl.
  assert (Hid : _stable_id q' = _stable_id q) by (unfold _stable_id; now rewrite Hs).
  split; [reflexivity|split; [now rewrite Hid|]].
  rewrite (get_exact_after_set _ _ _ _ _ _ _ Hlen Httl Hid).
  - unfold decode_utf8, json_loads. now rewrite Hu, Hl.
  - destruct (Json.dumps p); [discriminate Hl|reflexivity].
Qed.

End ExactCache.

Lemma set_get_exact_roundtrip_witness :
  value (cache_set Mem.mem_backend Mem.zero_bytes Mem.default_cache "what is rocq"
           Demo.sample_payload (repeat 0%R 384) (Mem.start (Mem.empty Mem.down)))
    = Ok tt
  /\ value (get_exact Mem.mem_backend Mem.default_cache "what is rocq"
              (final (cache_set Mem.mem_backend Mem.zero_bytes Mem.default_cache
                        "what is rocq" Demo.sample_payload (repeat 0%R 384)
                        (Mem.start (Mem.empty Mem.down)))))
     = Ok Demo.sample_payload.
Proof.
  apply (set_get_exact_roundtrip Mem.zero_bytes Mem.default_cache "what is rocq"
           Demo.sample_payload (repeat 0%R 384) (Mem.empty Mem.down) None).
  - vm_compute. reflexivity.
  - vm_compute. reflexivity.
  - vm_compute. reflexivity.
  - vm_compute. reflexivity.
Defined.

Lemma whitespace_variants_share_entry_witness :
  value (get_exact Mem.mem_backend Mem.default_cache "what is rocq"
           (final (cache_set Mem.mem_backend Mem.zero_bytes Mem.default_cache
                     "  what is rocq  " Demo.sample_payload (repeat 0%R 384)
                     (Mem.start (Mem.empty Mem.down)))))
  = Ok Demo.sample_payload.
Proof.
  apply (whitespace_variants_share_entry Mem.zero_bytes Mem.default_cache
           "what is rocq" "  what is rocq  " Demo.sample_payload (repeat 0%R 384)
           (Mem.empty Mem.down) None).
  - vm_compute. reflexivity.
  - vm_compute. reflexivity.
  - vm_compute. reflexivity.
  - vm_compute. reflexivity.
  - vm_compute. reflexivity.
Defined.

(** ** Unreadable fields in a search reply *)

(** The [payload_json] field of a document does not decode, or is not JSON. *)
Definition payload_unreadable (m : gmap string reply) : Prop :=
  match reply_decode (field_get m "payload_json" "{}") with
  | Ok text => Json.loads text = None
  | Raise _ => True
  end.

(** The [score] field of a document does not decode, or is not a float. *)
Definition score_unreadable (m : gmap string reply) : Prop :=
  match reply_decode (field_get m "score" "0") with
  | Ok text => PyFloat.of_str text = None
  | Raise _ => True
  end.

Lemma pairs_ind {A} (P : list A -> Prop) :
  P [] -> (forall a, P [a]) -> (forall a b l, P l -> P (a :: b :: l)) ->
  forall l, P l.
Proof.
  intros H0 H1 H2 l.
  enough (H : P l /\ forall a, P (a :: l)) by apply H.
  induction l as [|b l [IH1 IH2]]; [now split|].
  split; [apply IH2|]. intros a. now apply H2.
Qed.

Lemma parse_docs_app pre l hp :
  parse_docs pre = Ok hp ->
  parse_docs (pre ++ l)
  = match parse_docs l with
    | Ok hs => Ok (hp ++ hs)
    | Raise e => Raise e
    end.
Proof.
  revert hp. induction pre as [|a|a b pre IH] using pairs_ind; intros hp H.
  - injection H as <-. simpl. now destruct (parse_docs l).
  - discriminate.
  - change (parse_docs ((a :: b :: pre) ++ l))
      with (match parse_hit b with
            | Raise e => Raise e
            | Ok h => match parse_docs (pre ++ l) with
                      | Ok hs => Ok (h :: hs)
                      | Raise e => Raise e
                      end
            end).
    change (parse_docs (a :: b :: pre))
      with (match parse_hit b with
            | Raise e => Raise e
            | Ok h => match parse_docs pre with
                      | Ok hs => Ok (h :: hs)
                      | Raise e => Raise e
                      end
            end) in H.
    destruct (parse_hit b) as [h|x]; [|discriminate].
    destruct (parse_docs pre) as [hs|x]; [|discriminate].
    injection H as <-. rewrite (IH hs eq_refl).
    now destruct (parse_docs l).
Qed.

Lemma parse_hit_fields fl m qt :
  build_field_map fl ∅ = Ok m ->
  reply_decode (field_get m "query" "") = Ok qt ->
  exists h,
    parse_hit (RArray fl) = Ok h
    /\ hit_query h = qt
    /\ (payload_unreadable m -> hit_payload h = Json.JDict [])
    /\ (score_unreadable m -> hit_score h = float_zero).
Proof.
  intros Hm Hq. unfold parse_hit, payload_unreadable, score_unreadable.
  simpl. rewrite Hm, Hq. eexists. split; [reflexivity|]. simpl.
  split; [reflexivity|]. split.
  - destruct (reply_decode (field_get m "payload_json" "{}")) as [t|x];
      [|reflexivity].
    unfold json_loads. now intros ->.
  - destruct (reply_decode (field_get m "score" "0")) as [t|x]; [|reflexivity].
    now intros ->.
Qed.

Section Unreadable.

Context {W : Type}.
Variable B : backend W.
Variable tobytes : ndarray -> string.

Lemma search_similar_value c e k s res :
  Z.of_nat (length e) = _vector_dim c ->
  fst (execute_command B (knn_args tobytes c e k) (world s)) = Ok res ->
  value (search_similar B tobytes c e k s) = parse_search_reply res.
Proof.
  intros Hlen Hres. unfold search_similar. rewrite Hlen, Z.eqb_refl. simpl.
  unfold bind at 1. unfold invoke.
  destruct (execute_command B _ _) as [r w]. simpl in Hres. subst r. reflexivity.
Qed.

(** C9.  A document of an [FT.SEARCH] reply whose [payload_json] field is
    not valid JSON (or does not decode) still yields a hit, at its place in
    the list, with the payload [{}]; an unreadable [score] yields the score
    [0.0].  When that document comes first, [search] returns the source
    ["redis_semantic"] with the payload [{}], which has no ["results"] key. *)
Theorem unreadable_payload_still_served
    (total doc : reply) (pre fl rest : list reply) m qt hp hs :
  build_field_map fl ∅ = Ok m ->
  reply_decode (field_get m "query" "") = Ok qt ->
  parse_docs pre = Ok hp ->
  parse_docs rest = Ok hs ->
  exists h,
    parse_search_reply (RArray (total :: pre ++ doc :: RArray fl :: rest))
      = Ok (hp ++ h :: hs)
    /\ hit_query h = qt
    /\ (payload_unreadable m -> hit_payload h = Json.JDict [])
    /\ (score_unreadable m -> hit_score h = float_zero)
    /\ (forall E q s e,
          let q' := Text.strip q in
          let s1 := final (get_exact B (_redis E) q' s) in
          let s2 := final (embed B (_embedder E) q' s1) in
          payload_unreadable m ->
          pre = [] ->
          Text.nonempty q' = true ->
          exact_missed (value (get_exact B (_redis E) q' s)) ->
          value (embed B (_embedder E) q' s1) = Ok e ->
          Z.of_nat (length e) = _vector_dim (_redis E) ->
          fst (execute_command B (knn_args tobytes (_redis E) e 3) (world s2))
            = Ok (RArray (total :: doc :: RArray fl :: rest)) ->
          value (search B tobytes E q s)
            = Ok {| query := q'; source := "redis_semantic";
                    payload := Json.JDict [] |}
          /\ Json.dict_get [] "results" = None).
Proof.
  intros Hm Hq Hpre Hrest.
  destruct (parse_hit_fields fl m qt Hm Hq) as (h & Hh & Hhq & Hhp & Hhs).
  assert (Hreply : forall pre' hp', parse_docs pre' = Ok hp' ->
            parse_search_reply (RArray (total :: pre' ++ doc :: RArray fl :: rest))
            = Ok (hp' ++ h :: hs)).
  { intros pre' hp' Hp'. unfold parse_search_reply. cbn [reply_truthy negb reply_items].
    destruct (Z.ltb_spec (Z.of_nat (length (total :: pre' ++ doc :: RArray fl :: rest))) 2)
      as [Hlt|_].
    { cbn [length] in Hlt. rewrite length_app in Hlt. cbn [length] in Hlt. lia. }
    cbn [tl]. rewrite (parse_docs_app _ _ _ Hp').
    change (parse_docs (doc :: RArray fl :: rest))
      with (match parse_hit (RArray fl) with
            | Raise e => Raise e
            | Ok h => match parse_docs rest with
                      | Ok hs => Ok (h :: hs)
                      | Raise e => Raise e
                      end
            end).
    now rewrite Hh, Hrest. }
  exists h. split; [now apply Hreply|]. do 3 (split; [assumption|]).
  intros E q s e. cbv zeta. intros Hu -> Hne H1 He Hlen Hres.
  split; [|reflexivity].
  rewrite (search_exact_miss _ _ _ _ _ Hne H1), value_after.
  assert (Hv := search_similar_value _ _ 3 _ _ Hlen Hres).
  pose proof (Hreply [] [] eq_refl) as Hr. cbn [app] in Hr. rewrite Hr in Hv.
  rewrite (semantic_hit _ _ _ _ _ _ _ _ He Hv), value_after. cbn [value].
  now rewrite (Hhp Hu).
Qed.

End Unreadable.

Module Broken.

(** One document whose payload and score were damaged in the store. *)
Definition fields : list reply :=
  [ RBulk "query"; RBulk "what is rocq";
    RBulk "payload_json"; RBulk "{'results': [";
    RBulk "score"; RBulk "n/a" ].

Definition field_map : gmap string reply :=
  <["score" := RBulk "n/a"]>
    (<["payload_json" := RBulk "{'results': ["]>
       (<["query" := RBulk "what is rocq"]> ∅)).

Definition broken_reply : reply :=
  RArray [ RInt 1; RBulk "searx_cache:0001"; RArray fields ].

Definition broken_world : Mem.world :=
  Mem.World ∅ ∅ 1000 ∅ Mem.down (Some broken_reply) (Some Demo.zero_model).

End Broken.

Lemma unreadable_payload_still_served_witness :
  exists h,
    parse_search_reply Broken.broken_reply = Ok [h]
    /\ hit_query h = "what is rocq"
    /\ hit_payload h = Json.JDict []
    /\ hit_score h = float_zero
    /\ value (search Mem.mem_backend Mem.zero_bytes Demo.st_engine "what is rocq"
                (Mem.start Broken.broken_world))
       = Ok {| query := "what is rocq"; source := "redis_semantic";
               payload := Json.JDict [] |}.
Proof.
  destruct (unreadable_payload_still_served Mem.mem_backend Mem.zero_bytes
              (RInt 1) (RBulk "searx_cache:0001") [] Broken.fields []
              Broken.field_map "what is rocq" [] [])
    as (h & H1 & H2 & H3 & H4 & H5).
  - vm_compute. reflexivity.
  - vm_compute. reflexivity.
  - vm_compute. reflexivity.
  - vm_compute. reflexivity.
  - exists h. split; [exact H1|]. split; [exact H2|].
    split; [apply H3; vm_compute; reflexivity|].
    split; [apply H4; vm_compute; reflexivity|].
    apply (H5 Demo.st_engine "what is rocq" (Mem.start Broken.broken_world)
             (repeat 0%R 384)).
    + vm_compute. reflexivity.
    + reflexivity.
    + vm_compute. reflexivity.
    + vm_compute. reflexivity.
    + vm_compute. reflexivity.
    + vm_compute. reflexivity.
    + vm_compute. reflexivity.
Defined.

(** ** The hash embedding *)

(** [dim = int(dim) if int(dim) > 0 else 384] *)
Definition effective_dim (dim : Z) : Z := if 0 <? dim then dim else 384.

Lemma hash_loop_length data : forall seed dim v,
  length (hash_loop data seed dim v) = length v.
Proof.
  induction data as [|b rest IH]; intros seed dim v; cbn [hash_loop];
    [reflexivity|].
  now rewrite IH, length_alter.
Qed.

Lemma hash_counts_length text dim :
  length (hash_counts text dim) = Z.to_nat (effective_dim dim).
Proof.
  unfold hash_counts, effective_dim.
  destruct (negb (Text.nonempty (Text.strip text)));
    [|rewrite hash_loop_length]; apply repeat_length.
Qed.

Lemma hash_counts_blank text dim :
  Text.nonempty (Text.strip text) = false ->
  hash_counts text dim = repeat 0 (Z.to_nat (effective_dim dim)).
Proof. intros H. unfold hash_counts, effective_dim. now rewrite H. Qed.

Lemma _hash_embed_length text dim :
  length (_hash_embed text dim) = Z.to_nat (effective_dim dim).
Proof.
  unfold _hash_embed.
  destruct (negb _); [|destruct (Rlt_dec _ _)];
    rewrite ?length_map; apply hash_counts_length.
Qed.

Lemma all_zero_repeat (l : list Z) :
  forallb (Z.eqb 0) l = true -> l = repeat 0 (length l).
Proof.
  induction l as [|z l IH]; cbn [forallb length repeat]; [reflexivity|].
  intros [Hz Hl]%andb_prop. apply Z.eqb_eq in Hz. subst z. now rewrite <- IH.
Qed.

Lemma map_IZR_zeros n : map IZR (repeat 0 n) = repeat 0%R n.
Proof. induction n; simpl; congruence. Qed.

Lemma sum_squares_zeros n : sum_squares (repeat 0%R n) = 0%R.
Proof. induction n; simpl; [reflexivity|]. rewrite IHn. lra. Qed.

Lemma sum_squares_nonneg v : (0 <= sum_squares v)%R.
Proof.
  induction v as [|x v IH]; simpl; [lra|].
  pose proof (Rle_0_sqr x) as Hx. unfold Rsqr in Hx. lra.
Qed.

Lemma sum_squares_pos (l : list Z) :
  forallb (Z.eqb 0) l = false -> (0 < sum_squares (map IZR l))%R.
Proof.
  induction l as [|z l IH]; cbn [forallb map sum_squares fold_right];
    [discriminate|].
  fold (sum_squares (map IZR l)).
  pose proof (sum_squares_nonneg (map IZR l)) as Hl.
  destruct (Z.eqb_spec 0 z) as [<-|Hz]; cbn [andb].
  - intros H. specialize (IH H). lra.
  - intros _.
    assert (Hr : IZR z <> 0%R) by (apply not_0_IZR; congruence).
    pose proof (Rsqr_pos_lt _ Hr) as Hp. unfold Rsqr in Hp. lra.
Qed.

Lemma sum_squares_scale v n :
  n <> 0%R ->
  sum_squares (map (fun x => (x / n)%R) v) = (sum_squares v / (n * n))%R.
Proof.
  intros Hn. induction v as [|x v IH]; simpl; [field; exact Hn|].
  rewrite IH. field. exact Hn.
Qed.

Lemma normalised_unit v :
  (0 < sum_squares v)%R ->
  l2_norm (map (fun x => (x / l2_norm v)%R) v) = 1%R.
Proof.
  intros Hp. pose proof (sqrt_lt_R0 _ Hp) as Hn. fold (l2_norm v) in Hn.
  unfold l2_norm at 1. rewrite sum_squares_scale by lra.
  unfold l2_norm. rewrite sqrt_sqrt by lra.
  replace (sum_squares v / sum_squares v)%R with 1%R by (field; lra).
  apply sqrt_1.
Qed.

Lemma _hash_embed_blank text dim :
  Text.nonempty (Text.strip text) = false ->
  _hash_embed text dim = repeat 0%R (Z.to_nat (effective_dim dim)).
Proof.
  intros H. unfold _hash_embed. rewrite H. simpl.
  now rewrite hash_counts_blank, map_IZR_zeros.
Qed.

Lemma _hash_embed_cancelled text dim :
  forallb (Z.eqb 0) (hash_counts text dim) = true ->
  _hash_embed text dim = repeat 0%R (Z.to_nat (effective_dim dim)).
Proof.
  intros H. apply all_zero_repeat in H. rewrite hash_counts_length in H.
  unfold _hash_embed. rewrite H, map_IZR_zeros.
  destruct (negb _); [reflexivity|].
  destruct (Rlt_dec _ _) as [Hlt|_]; [|reflexivity].
  exfalso. unfold l2_norm in Hlt. rewrite sum_squares_zeros, sqrt_0 in Hlt. lra.
Qed.

Lemma _hash_embed_unit text dim :
  Text.nonempty (Text.strip text) = true ->
  forallb (Z.eqb 0) (hash_counts text dim) = false ->
  l2_norm (_hash_embed text dim) = 1%R.
Proof.
  intros Hne Hnz. unfold _hash_embed. rewrite Hne. simpl.
  pose proof (sum_squares_pos _ Hnz) as Hp.
  destruct (Rlt_dec _ _) as [_|Hn]; [now apply normalised_unit|].
  exfalso. apply Hn. now apply sqrt_lt_R0.
Qed.

(** C5, amended.  In mode ["hash"], [embed] is a function of the text and the
    dimension alone: it returns [_hash_embed text dim] from every state,
    changes nothing and calls nothing.  For a blank text the vector is the
    zero vector of the effective dimension.  For a non-blank text the
    vector has L2 norm 1 when the signed contributions of its bytes leave a
    non-zero entry in the accumulator; when they cancel in every entry the
    vector is the zero vector, which the guard [if norm > 0] returns as it
    is. *)
Theorem hash_embed_contract {W} (B : backend W) e text :
  (String.eqb (mode e) "hash" = true ->
   forall s, embed B e text s = Run (Ok (_hash_embed text (dim e))) s [])
  /\ (Text.nonempty (Text.strip text) = false ->
      _hash_embed text (dim e) = repeat 0%R (Z.to_nat (effective_dim (dim e))))
  /\ (Text.nonempty (Text.strip text) = true ->
      forallb (Z.eqb 0) (hash_counts text (dim e)) = false ->
      l2_norm (_hash_embed text (dim e)) = 1%R)
  /\ (Text.nonempty (Text.strip text) = true ->
      forallb (Z.eqb 0) (hash_counts text (dim e)) = true ->
      _hash_embed text (dim e) = repeat 0%R (Z.to_nat (effective_dim (dim e)))).
Proof.
  split; [intros H s; now apply embed_hash|].
  split; [apply _hash_embed_blank|].
  split; [apply _hash_embed_unit|].
  intros _. apply _hash_embed_cancelled.
Qed.

(** C5.  The two bytes of ["bs"] fall on the same entry with opposite signs
    at dimension 384: the text is not blank, and its embedding is the zero
    vector, of norm 0, at distance 1 from the norm the claim gives it. *)
Lemma hash_embed_cancels :
  Text.nonempty (Text.strip "bs") = true
  /\ _hash_embed "bs" 384 = repeat 0%R 384
  /\ l2_norm (_hash_embed "bs" 384) = 0%R
  /\ Rabs (l2_norm (_hash_embed "bs" 384) - 1) = 1%R.
Proof.
  assert (H : _hash_embed "bs" 384 = repeat 0%R 384).
  { rewrite _hash_embed_cancelled by (vm_compute; reflexivity). reflexivity. }
  assert (Hn : l2_norm (_hash_embed "bs" 384) = 0%R).
  { rewrite H. unfold l2_norm. rewrite sum_squares_zeros. apply sqrt_0. }
  split; [vm_compute; reflexivity|]. split; [exact H|]. split; [exact Hn|].
  rewrite Hn. replace (0 - 1)%R with (- (1))%R by lra.
  rewrite Rabs_Ropp. apply Rabs_R1.
Qed.

Lemma hash_embed_contract_witness :
  l2_norm (_hash_embed "what is rocq" 384) = 1%R.
Proof.
  apply (proj1 (proj2 (proj2 (hash_embed_contract Mem.mem_backend
                                (_embedder Mem.default_engine) "what is rocq")))).
  - vm_compute. reflexivity.
  - vm_compute. reflexivity.
Defined.

(** * Further properties of the code *)

(** ** What [search] returns, tier by tier *)

(** The five source tags of [SearchOutcome]. *)
Definition sources : list string :=
  ["redis_exact"; "redis_semantic"; "sqlite"; "searxng"; "degraded"].

Definition outcome_for (q : string) (o : SearchOutcome) : Prop :=
  query o = q /\ In (source o) sources.

Section Outcomes.

Context {W : Type}.
Variable B : backend W.
Variable tobytes : ndarray -> string.

Lemma bind_value {A C} (m : M W A) (f : A -> M W C) s :
  value (bind m f s)
  = match value (m s) with
    | Ok a => value (f a (final (m s)))
    | Raise e => Raise e
    end.
Proof. unfold bind. now destruct (value (m s)). Qed.

Lemma bind_attempt_value {A C} (m : M W A) (f : result exn A -> M W C) s :
  value (bind (attempt m) f s) = value (f (value (m s)) (final (m s))).
Proof. reflexivity. Qed.

Lemma invoke_run {A} (c : call) (op : W -> result lib_error A * W) s :
  invoke c op s
  = Run (match fst (op (world s)) with
         | Ok a => Ok a
         | Raise e => Raise (LibError e)
         end)
        (State (snd (op (world s))) (model s)) [c].
Proof. unfold invoke. now destruct (op (world s)). Qed.

(** The outcome of the live tier depends on the provider alone: neither
    write-back can change it. *)
Lemma live_tier_value E q emb s :
  value (live_tier B tobytes E q emb s)
  = match fst (searxng_search B q (world s)) with
    | Ok resp =>
        Ok {| query := q; source := "searxng"; payload := live_payload resp |}
    | Raise _ => Ok (degraded q)
    end.
Proof.
  unfold live_tier. rewrite try_except_value, bind_value, invoke_run.
  cbn [value final].
  destruct (fst (searxng_search B q (world s))) as [resp|x]; [|reflexivity].
  now rewrite !bind_attempt_value.
Qed.

Lemma live_tier_shape E q emb s :
  exists o, value (live_tier B tobytes E q emb s) = Ok o /\ outcome_for q o.
Proof.
  rewrite live_tier_value.
  destruct (fst (searxng_search B q (world s))) as [resp|x];
    eexists; (split; [reflexivity|]); split; try reflexivity; cbv; tauto.
Qed.

Lemma cold_tier_shape E q emb s :
  exists o, value (cold_tier B tobytes E q emb s) = Ok o /\ outcome_for q o.
Proof.
  unfold cold_tier. rewrite bind_attempt_value.
  destruct (value (sqlite_get B q s)) as [[item|]|x]; try apply live_tier_shape.
  eexists. split; [reflexivity|]. split; [reflexivity|]. cbv; tauto.
Qed.

Lemma semantic_tier_shape E q s :
  exists o, value (semantic_tier B tobytes E q s) = Ok o /\ outcome_for q o.
Proof.
  unfold semantic_tier. rewrite bind_attempt_value.
  destruct (value (embed B (_embedder E) q s)) as [e|x]; [|apply cold_tier_shape].
  rewrite bind_attempt_value.
  destruct (value (search_similar B tobytes _ _ _ _)) as [[|h hs]|x];
    try apply cold_tier_shape.
  eexists. split; [reflexivity|]. split; [reflexivity|]. cbv; tauto.
Qed.

(** X1.  Whatever the backends do, the outcome of [search] carries the
    trimmed query and one of the five source tags. *)
Theorem search_outcome_shape E q s :
  exists o,
    value (search B tobytes E q s) = Ok o
    /\ query o = Text.strip q
    /\ In (source o) sources.
Proof.
  unfold search.
  destruct (negb (Text.nonempty (Text.strip q))).
  - eexists. split; [reflexivity|]. split; [reflexivity|]. cbv; tauto.
  - rewrite bind_attempt_value.
    destruct (value (get_exact B _ _ _)) as [v|x];
      [destruct (Json.truthy v)|]; try apply semantic_tier_shape.
    eexists. split; [reflexivity|]. split; [reflexivity|]. cbv; tauto.
Qed.

Lemma get_exact_calls c q s :
  calls (get_exact B c q s) = [CallHgetall (_make_key c (_stable_id q))].
Proof.
  unfold get_exact. cbv zeta. unfold bind at 1.
  rewrite invoke_run. cbn [value final calls].
  destruct (fst (hgetall B _ _)) as [data|x]; [|reflexivity].
  destruct (decide (data = ∅)); [reflexivity|].
  destruct (data !! "payload_json") as [pj|]; [|reflexivity].
  destruct (negb (Text.nonempty pj)); [reflexivity|].
  unfold bind, lift. cbn [value final calls].
  now destruct (decode_utf8 pj).
Qed.

(** X2.  An exact hit ends the call at once: the outcome is the cached
    payload under ["redis_exact"], and the only request made to any backend
    is the one [HGETALL] on the query's key. *)
Theorem exact_hit_single_call E q s v :
  Text.nonempty (Text.strip q) = true ->
  value (get_exact B (_redis E) (Text.strip q) s) = Ok v ->
  Json.truthy v = true ->
  value (search B tobytes E q s)
    = Ok {| query := Text.strip q; source := "redis_exact"; payload := v |}
  /\ calls (search B tobytes E q s)
     = [CallHgetall (_make_key (_redis E) (_stable_id (Text.strip q)))].
Proof.
  intros Hq Hv Ht. rewrite (search_exact_hit _ _ _ _ _ _ Hq Hv Ht).
  unfold after. cbn [value calls]. rewrite get_exact_calls.
  split; reflexivity.
Qed.

Lemma sqlite_set_calls q p s :
  exists now,
    calls (sqlite_set B q p s)
    = [CallTime; CallSqliteUpsert q (Json.dumps p) now].
Proof.
  unfold sqlite_set, bind. rewrite invoke_run. cbn [value final calls].
  destruct (time_time B (world s)) as [t w]. cbn [fst snd].
  eexists. now rewrite invoke_run.
Qed.

Lemma calls_bind {A C} (m : M W A) (f : A -> M W C) s :
  calls (bind m f s)
  = calls (m s)
      ++ match value (m s) with
         | Ok a => calls (f a (final (m s)))
         | Raise _ => []
         end.
Proof. unfold bind. destruct (value (m s)); cbn [calls]; now rewrite ?app_nil_r. Qed.

Lemma calls_bind_attempt {A C} (m : M W A) (f : result exn A -> M W C) s :
  calls (bind (attempt m) f s)
  = calls (m s) ++ calls (f (value (m s)) (final (m s))).
Proof. reflexivity. Qed.

Lemma live_tier_writes_back E q emb s resp :
  fst (searxng_search B q (world s)) = Ok resp ->
  exists now rest,
    calls (live_tier B tobytes E q emb s)
    = CallSearxng q :: CallTime
        :: CallSqliteUpsert q (Json.dumps (live_payload resp)) now :: rest.
Proof.
  intros Hr. unfold live_tier, try_except.
  rewrite calls_bind_attempt, calls_bind, invoke_run. cbn [value final calls].
  rewrite Hr, calls_bind_attempt.
  destruct (sqlite_set_calls q (live_payload resp)
              (State (snd (searxng_search B q (world s))) (model s)))
    as [now Hc].
  rewrite Hc. cbn [app]. now eexists; eexists.
Qed.

(** X3.  When the exact, semantic and cold tiers miss or fail and the
    provider answers, [search] returns the provider's results under
    ["searxng"], whether or not the two write-backs succeed; the SQLite
    write-back is sent with the trimmed query and the JSON text of the
    payload. *)
Theorem live_result_despite_writeback E q s resp :
  let q' := Text.strip q in
  let s1 := final (get_exact B (_redis E) q' s) in
  let s2 := final (semantic_lookup B tobytes E q' s1) in
  let s3 := final (sqlite_get B q' s2) in
  Text.nonempty q' = true ->
  exact_missed (value (get_exact B (_redis E) q' s)) ->
  semantic_missed (value (semantic_lookup B tobytes E q' s1)) ->
  cold_missed (value (sqlite_get B q' s2)) ->
  fst (searxng_search B q' (world s3)) = Ok resp ->
  value (search B tobytes E q s)
    = Ok {| query := q'; source := "searxng"; payload := live_payload resp |}
  /\ exists now,
       In (CallSqliteUpsert q' (Json.dumps (live_payload resp)) now)
          (calls (search B tobytes E q s)).
Proof.
  cbv zeta. intros Hq H1 H2 H3 H4.
  rewrite (search_exact_miss _ _ _ _ _ Hq H1).
  rewrite (semantic_miss _ _ _ _ _ H2).
  rewrite (cold_miss _ _ _ _ _ _ H3).
  split.
  - rewrite !value_after, live_tier_value. now rewrite H4.
  - destruct (live_tier_writes_back E (Text.strip q) (embedding_after B E (Text.strip q)
                 (final (get_exact B (_redis E) (Text.strip q) s))) _ resp H4)
      as (now & rest & Hc).
    exists now. unfold after. cbn [calls]. rewrite Hc.
    rewrite !in_app_iff. do 3 right. right. right. now left.
Qed.

End Outcomes.

(** A state in which the exact cache holds the sample payload. *)
Definition warm_state : state Mem.world :=
  final (cache_set Mem.mem_backend Mem.zero_bytes Mem.default_cache "what is rocq"
           Demo.sample_payload (repeat 0%R 384) (Mem.start (Mem.empty Mem.down))).

Lemma exact_hit_single_call_witness :
  value (search Mem.mem_backend Mem.zero_bytes Demo.st_engine " what is rocq "
           warm_state)
    = Ok {| query := "what is rocq"; source := "redis_exact";
            payload := Demo.sample_payload |}
  /\ calls (search Mem.mem_backend Mem.zero_bytes Demo.st_engine " what is rocq "
              warm_state)
     = [CallHgetall (_make_key Mem.default_cache (_stable_id "what is rocq"))].
Proof.
  apply (exact_hit_single_call Mem.mem_backend Mem.zero_bytes Demo.st_engine
           " what is rocq " warm_state Demo.sample_payload).
  - vm_compute. reflexivity.
  - vm_compute. reflexivity.
  - vm_compute. reflexivity.
Defined.

Lemma live_result_despite_writeback_witness :
  value (search Mem.mem_backend Mem.zero_bytes Demo.st_engine " what is rocq "
           (Mem.start (Mem.empty Mem.three_results)))
    = Ok {| query := "what is rocq"; source := "searxng";
            payload :=
              live_payload
                {| resp_query := "what is rocq";
                   results := match Mem.three_results "what is rocq" with
                              | Ok r => results r
                              | Raise _ => []
                              end;
                   raw := Json.JDict [] |} |}
  /\ exists now,
       In (CallSqliteUpsert "what is rocq"
             (Json.dumps
                (live_payload
                   {| resp_query := "what is rocq";
                      results := match Mem.three_results "what is rocq" with
                                 | Ok r => results r
                                 | Raise _ => []
                                 end;
                      raw := Json.JDict [] |})) now)
          (calls (search Mem.mem_backend Mem.zero_bytes Demo.st_engine
                    " what is rocq " (Mem.start (Mem.empty Mem.three_results)))).
Proof.
  apply (live_result_despite_writeback Mem.mem_backend Mem.zero_bytes Demo.st_engine
           " what is rocq " (Mem.start (Mem.empty Mem.three_results))).
  - vm_compute. reflexivity.
  - vm_compute. reflexivity.
  - vm_compute. exact I.
  - vm_compute. exact I.
  - vm_compute. reflexivity.
Defined.

(** ** The shape of the hash embedding *)

(** The signed count of contributions over all entries. *)
Definition total (v : list Z) : Z := fold_right Z.add 0 v.

Lemma total_alter d : forall (v : list Z) (i : nat),
  (i < length v)%nat -> total (alter (Z.add d) i v) = total v + d.
Proof.
  induction v as [|x v IH]; intros i Hi; cbn [length] in Hi; [lia|].
  destruct i as [|i]; cbn [alter list_alter total fold_right].
  - fold (total v). lia.
  - fold (total v). fold (total (alter (Z.add d) i v)).
    change (list_alter (Z.add d) i v) with (alter (Z.add d) i v).
    rewrite IH by lia. lia.
Qed.

(** Every byte moves the total by one, up or down. *)
Lemma hash_loop_total data : forall seed dim v,
  0 < dim -> Z.of_nat (length v) = dim ->
  exists k, total (hash_loop data seed dim v)
            = total v + Z.of_nat (length data) - 2 * k.
Proof.
  induction data as [|b rest IH]; intros seed dim v Hd Hv; cbn [hash_loop length].
  - exists 0. lia.
  - set (seed' := Z.land _ _).
    set (sign := if Z.shiftr seed' 63 =? 0 then 1 else -1).
    destruct (IH seed' dim (alter (Z.add sign) (Z.to_nat (seed' mod dim)) v) Hd)
      as [k Hk]; [now rewrite length_alter|].
    rewrite Hk, total_alter.
    + unfold sign. destruct (Z.shiftr seed' 63 =? 0); [exists k|exists (k + 1)]; lia.
    + pose proof (Z.mod_pos_bound seed' dim Hd). lia.
Qed.

Lemma total_zeros n : total (repeat 0 n) = 0.
Proof. induction n; cbn [repeat total fold_right]; [reflexivity|]. fold (total (repeat 0 n)). lia. Qed.

Lemma effective_dim_pos dim : 0 < effective_dim dim.
Proof. unfold effective_dim. destruct (Z.ltb_spec 0 dim); lia. Qed.

Lemma odd_bytes_not_cancelled text dim :
  Text.nonempty (Text.strip text) = true ->
  Nat.odd (length (Bytes.of_string (Text.strip text))) = true ->
  forallb (Z.eqb 0) (hash_counts text dim) = false.
Proof.
  intros Hne Hodd.
  destruct (forallb (Z.eqb 0) (hash_counts text dim)) eqn:Hz; [exfalso|reflexivity].
  apply all_zero_repeat in Hz.
  assert (Ht : total (hash_counts text dim) = 0) by (rewrite Hz; apply total_zeros).
  unfold hash_counts in Ht. rewrite Hne in Ht. cbn [negb] in Ht.
  fold (effective_dim dim) in Ht.
  destruct (hash_loop_total (Bytes.of_string (Text.strip text))
              (Bytes.from_le (firstn 8 (Blake2b.digest (Bytes.of_string (Text.strip text)) 32)))
              (effective_dim dim) (repeat 0 (Z.to_nat (effective_dim dim)))
              (effective_dim_pos dim)) as [k Hk].
  { rewrite repeat_length. pose proof (effective_dim_pos dim). lia. }
  rewrite Ht, total_zeros in Hk.
  apply Nat.odd_spec in Hodd. destruct Hodd as [m Hm]. lia.
Qed.

Lemma sum_squares_bound (x : R) v : In x v -> (x * x <= sum_squares v)%R.
Proof.
  induction v as [|y v IH]; [contradiction|].
  cbn [sum_squares fold_right]. fold (sum_squares v).
  pose proof (sum_squares_nonneg v) as Hv.
  intros [->|Hin].
  - lra.
  - specialize (IH Hin). pose proof (Rle_0_sqr y) as Hy. unfold Rsqr in Hy. lra.
Qed.

Lemma in_zeros (x : R) n : In x (repeat 0%R n) -> x = 0%R.
Proof. intros H. now apply repeat_spec in H. Qed.

Lemma _hash_embed_entries text dim x :
  In x (_hash_embed text dim) -> (-1 <= x <= 1)%R.
Proof.
  destruct (Text.nonempty (Text.strip text)) eqn:Hne.
  2:{ rewrite _hash_embed_blank by assumption. intros ->%in_zeros. lra. }
  destruct (forallb (Z.eqb 0) (hash_counts text dim)) eqn:Hz.
  { rewrite _hash_embed_cancelled by assumption. intros ->%in_zeros. lra. }
  intros Hin. pose proof (_hash_embed_unit text dim Hne Hz) as Hu.
  pose proof (sum_squares_bound x _ Hin) as Hb.
  unfold l2_norm in Hu.
  assert (Hs : sum_squares (_hash_embed text dim) = 1%R).
  { pose proof (sum_squares_nonneg (_hash_embed text dim)) as Hnn.
    rewrite <- (sqrt_sqrt _ Hnn), Hu. lra. }
  rewrite Hs in Hb. split; nra.
Qed.

(** X4.  The vector that [_hash_embed] returns has as many entries as the
    dimension asked for, or 384 when that is not positive, and every entry
    lies between -1 and 1. *)
Theorem hash_embed_shape text dim :
  length (_hash_embed text dim) = Z.to_nat (if 0 <? dim then dim else 384)
  /\ forall x, In x (_hash_embed text dim) -> (-1 <= x <= 1)%R.
Proof.
  split; [apply _hash_embed_length|].
  apply _hash_embed_entries.
Qed.

(** X5.  A text whose trimmed UTF-8 encoding has an odd number of bytes
    cannot cancel: its hash embedding has L2 norm 1 at every dimension. *)
Theorem odd_length_unit_norm text dim :
  Nat.odd (length (Bytes.of_string (Text.strip text))) = true ->
  l2_norm (_hash_embed text dim) = 1%R.
Proof.
  intros Hodd. assert (Hne : Text.nonempty (Text.strip text) = true).
  { destruct (Text.strip text); [discriminate Hodd|reflexivity]. }
  apply _hash_embed_unit; [exact Hne|now apply odd_bytes_not_cancelled].
Qed.

Lemma odd_length_unit_norm_witness :
  l2_norm (_hash_embed "  rocq prover " 64) = 1%R.
Proof.
  apply (odd_length_unit_norm "  rocq prover " 64).
  vm_compute. reflexivity.
Defined.

(** ** The dimension the engine is wired with *)

(** [HybridSearchEngine.__init__], the part that fixes the configuration:
    the Redis cache gets the embedder's [dim] and the defaults of
    [RedisVectorCache.__init__] for the rest. *)
Definition make_engine (embedder : Embedder) : HybridSearchEngine :=
  {| _embedder := embedder;
     _redis := {| _index_name := "idx:searx_cache";
                  _key_prefix := "searx_cache:";
                  _ttl_seconds := 2 * 60 * 60;
                  _vector_dim := dim embedder |} |}.

Section Wiring.

Context {W : Type}.
Variable B : backend W.
Variable tobytes : ndarray -> string.

Lemma search_similar_mismatch c e k s :
  Z.of_nat (length e) <> _vector_dim c ->
  search_similar B tobytes c e k s
  = Run (Raise (DimensionError (Z.of_nat (length e)) (_vector_dim c))) s [].
Proof.
  intros H. unfold search_similar.
  destruct (Z.eqb_spec (Z.of_nat (length e)) (_vector_dim c)); [contradiction|].
  reflexivity.
Qed.

(** X6.  [search_similar] raises the dimension error exactly when the
    vector's length differs from the configured dimension, and then nothing
    is sent to Redis and nothing changes. *)
Theorem search_similar_dimension_guard c e k s :
  ((exists got want,
       value (search_similar B tobytes c e k s) = Raise (DimensionError got want))
   <-> Z.of_nat (length e) <> _vector_dim c)
  /\ (Z.of_nat (length e) <> _vector_dim c ->
      search_similar B tobytes c e k s
      = Run (Raise (DimensionError (Z.of_nat (length e)) (_vector_dim c))) s []).
Proof.
  split; [split|apply search_similar_mismatch].
  - intros (got & want & H) Hlen. unfold search_similar in H.
    rewrite Hlen, Z.eqb_refl in H. cbn [negb] in H.
    apply bind_value_raise in H as [H|(res & _ & H)].
    + apply invoke_value in H as [le Hle]. discriminate.
    + unfold lift in H. cbn [value] in H. unfold parse_search_reply in H.
      destruct (negb (reply_truthy res)); [discriminate|].
      destruct (reply_items res) as [l|x] eqn:Hi.
      * destruct (Z.of_nat (length l) <? 2); [discriminate|].
        revert H. generalize (tl l). intros docs.
        induction docs as [|a|a b docs IH] using pairs_ind; [discriminate..|].
        change (parse_docs (a :: b :: docs))
          with (match parse_hit b with
                | Raise e => Raise e
                | Ok h => match parse_docs docs with
                          | Ok hs => Ok (h :: hs)
                          | Raise e => Raise e
                          end
                end).
        destruct (parse_hit b) as [h|x] eqn:Hb.
        -- destruct (parse_docs docs); [discriminate|exact IH].
        -- intros [= ->]. unfold parse_hit in Hb.
           destruct (reply_items b) as [fl|y] eqn:Hfl.
           ++ destruct (build_field_map fl ∅) as [m|y] eqn:Hm.
              ** destruct (reply_decode (field_get m "query" "")) as [t|y] eqn:Hd;
                   [discriminate|].
                 injection Hb as ->. unfold reply_decode, decode_utf8 in Hd.
                 destruct (field_get m "query" ""); try discriminate.
                 destruct (Utf8.valid _); discriminate.
              ** injection Hb as ->. clear -Hm. revert Hm. generalize (∅ : gmap string reply).
                 induction fl as [|k|k v fl IH] using pairs_ind; intros m0 Hm;
                   [discriminate..|].
                 cbn [build_field_map] in Hm. destruct k; try discriminate; eauto.
           ++ injection Hb as ->. destruct b; discriminate.
      * injection H as ->. destruct res; discriminate.
  - intros H. rewrite (search_similar_mismatch _ _ _ _ H). cbn [value]. eauto.
Qed.

(** X7.  An engine built by [__init__] around a hash embedder sends
    [FT.SEARCH] for every query when the embedder's [dim] is positive.
    When [dim] is zero or negative the embedding has 384 entries while the
    cache expects [dim]: the semantic lookup raises the dimension error with
    nothing sent, and the Redis write-back of the live tier stores nothing. *)
Theorem hash_engine_dimension e q s :
  String.eqb (mode e) "hash" = true ->
  (0 < dim e ->
   calls (semantic_lookup B tobytes (make_engine e) q s)
   = [CallExecute (knn_args tobytes (_redis (make_engine e)) (_hash_embed q (dim e)) 3)])
  /\ (dim e <= 0 ->
      semantic_lookup B tobytes (make_engine e) q s
        = Run (Raise (DimensionError 384 (dim e))) s []
      /\ forall p,
           cache_set B tobytes (_redis (make_engine e)) q p (_hash_embed q (dim e)) s
           = Run (Raise (DimensionError 384 (dim e))) s []).
Proof.
  intros Hmode.
  assert (He : embed B e q s = Run (Ok (_hash_embed q (dim e))) s [])
    by now apply embed_hash.
  split.
  - intros Hd.
    assert (Hlen : Z.of_nat (length (_hash_embed q (dim e))) = dim e).
    { rewrite _hash_embed_length. unfold effective_dim.
      destruct (Z.ltb_spec 0 (dim e)); lia. }
    rewrite (semantic_lookup_calls B tobytes (make_engine e) q s (_hash_embed q (dim e)));
      [|cbn [make_engine _embedder]; now rewrite He|exact Hlen].
    cbn [make_engine _embedder]. now rewrite He.
  - intros Hd.
    assert (Hlen : Z.of_nat (length (_hash_embed q (dim e))) = 384).
    { rewrite _hash_embed_length. unfold effective_dim.
      destruct (Z.ltb_spec 0 (dim e)); lia. }
    split.
    + unfold semantic_lookup. cbn [make_engine _embedder _redis].
      unfold bind. rewrite He. cbn [value final calls].
      rewrite search_similar_mismatch by (cbn [_vector_dim]; lia).
      cbn [value final calls _vector_dim]. now rewrite Hlen.
    + intros p. rewrite cache_set_mismatch by (cbn [make_engine _redis _vector_dim]; lia).
      cbn [make_engine _redis _vector_dim]. now rewrite Hlen.
Qed.

End Wiring.

Lemma search_similar_dimension_guard_witness :
  search_similar Mem.mem_backend Mem.zero_bytes Mem.default_cache [1%R; 0%R] 3
    (Mem.start Demo.ann_world)
  = Run (Raise (DimensionError 2 384)) (Mem.start Demo.ann_world) [].
Proof.
  apply (proj2 (search_similar_dimension_guard Mem.mem_backend Mem.zero_bytes
                  Mem.default_cache [1%R; 0%R] 3 (Mem.start Demo.ann_world))).
  simpl. lia.
Defined.

(** A hash embedder whose dimension was set to zero. *)
Definition zero_dim_embedder : Embedder :=
  {| mode := "hash"; model_name := "sentence-transformers/all-MiniLM-L6-v2";
     dim := 0 |}.

Lemma hash_engine_dimension_witness :
  semantic_lookup Mem.mem_backend Mem.zero_bytes (make_engine zero_dim_embedder)
    "what is rocq" (Mem.start Demo.ann_world)
  = Run (Raise (DimensionError 384 0)) (Mem.start Demo.ann_world) [].
Proof.
  apply (proj2 (hash_engine_dimension Mem.mem_backend Mem.zero_bytes
                  zero_dim_embedder "what is rocq" (Mem.start Demo.ann_world)
                  eq_refl)).
  simpl. lia.
Defined.

(** ** The lazily built model *)

Definition is_load (c : call) : bool :=
  match c with
  | CallModelLoad _ => true
  | _ => false
  end.

Section Lazy.

Context {W : Type}.
Variable B : backend W.

Lemma run_eta {A} (r : run W A) : Run (value r) (final r) (calls r) = r.
Proof. now destruct r. Qed.

Lemma bind_ret {A C} (a : A) (f : A -> M W C) s : bind (ret a) f s = f a s.
Proof. unfold bind, ret. cbn [value final calls app]. apply run_eta. Qed.

Lemma bind_get_model {C} (f : option string -> M W C) s :
  bind get_model f s = f (model s) s.
Proof. unfold bind, get_model. cbn [value final calls app]. apply run_eta. Qed.

Lemma final_bind {A C} (m : M W A) (f : A -> M W C) s :
  final (bind m f s)
  = match value (m s) with
    | Ok a => final (f a (final (m s)))
    | Raise _ => final (m s)
    end.
Proof. unfold bind. now destruct (value (m s)). Qed.

(** The last two lines of [_st_embed]. *)
Definition encode_with (name text : string) : M W ndarray :=
  bind (invoke (CallModelEncode name text) (model_encode B name text))
       (fun vec => match vec with
                   | row :: _ => ret row
                   | [] => raise IndexError
                   end).

Lemma _st_embed_loaded e text s name :
  model s = Some name ->
  _st_embed B e text s = encode_with name text s.
Proof.
  intros Hm. unfold _st_embed. now rewrite bind_get_model, Hm, bind_ret.
Qed.

Lemma encode_with_calls name text s :
  calls (encode_with name text s) = [CallModelEncode name text].
Proof.
  unfold encode_with. rewrite calls_bind, invoke_run. cbn [value final calls].
  destruct (fst (model_encode B name text (world s))) as [[|row rows]|x];
    reflexivity.
Qed.

Lemma encode_with_model name text s :
  model (final (encode_with name text s)) = model s.
Proof.
  unfold encode_with. rewrite final_bind, invoke_run. cbn [value final].
  destruct (fst (model_encode B name text (world s))) as [[|row rows]|x];
    reflexivity.
Qed.

Lemma _st_embed_keeps_model e text s v :
  value (_st_embed B e text s) = Ok v ->
  exists name, model (final (_st_embed B e text s)) = Some name.
Proof.
  destruct (model s) as [name|] eqn:Hm.
  - rewrite (_st_embed_loaded _ _ _ _ Hm), encode_with_model. eauto.
  - unfold _st_embed. rewrite bind_get_model, Hm.
    fold (encode_with). intros Hv. exists (model_name e).
    rewrite bind_value in Hv. rewrite final_bind.
    destruct (value ((invoke (CallModelLoad (model_name e)) (model_load B (model_name e));;
                      set_model (Some (model_name e));; ret (model_name e))%py s))
      as [name|x] eqn:Hl; [|discriminate].
    change (model (final (encode_with name text
              (final ((invoke (CallModelLoad (model_name e))
                         (model_load B (model_name e));;
                       set_model (Some (model_name e));; ret (model_name e))%py s))))
            = Some (model_name e)).
    rewrite encode_with_model, final_bind.
    rewrite bind_value in Hl.
    destruct (value (invoke (CallModelLoad (model_name e))
                       (model_load B (model_name e)) s)) as [[]|x];
      [reflexivity|discriminate].
Qed.

(** X8.  The model is built at most once.  When [_st_embed] has returned a
    vector, the embedder holds a model, and every later [_st_embed], on any
    text and whatever happened to the world in between, goes straight to
    [encode]: its log has one entry, the encoding, and no construction. *)
Theorem model_built_once e text s v :
  value (_st_embed B e text s) = Ok v ->
  exists name,
    model (final (_st_embed B e text s)) = Some name
    /\ forall text' s',
         model s' = Some name ->
         calls (_st_embed B e text' s') = [CallModelEncode name text']
         /\ existsb is_load (calls (_st_embed B e text' s')) = false
         /\ model (final (_st_embed B e text' s')) = Some name.
Proof.
  intros Hv. destruct (_st_embed_keeps_model _ _ _ _ Hv) as [name Hn].
  exists name. split; [exact Hn|]. intros text' s' Hm.
  rewrite (_st_embed_loaded _ _ _ _ Hm), encode_with_calls, encode_with_model.
  repeat split; assumption.
Qed.

End Lazy.

(** Redis with RediSearch and the model installed; nothing cached. *)
Lemma model_built_once_witness :
  exists name,
    model (final (_st_embed Mem.mem_backend (_embedder Demo.st_engine) "what is rocq"
                    (Mem.start Demo.ann_world))) = Some name
    /\ forall text' s',
         model s' = Some name ->
         calls (_st_embed Mem.mem_backend (_embedder Demo.st_engine) text' s')
           = [CallModelEncode name text']
         /\ existsb is_load
              (calls (_st_embed Mem.mem_backend (_embedder Demo.st_engine) text' s'))
            = false
         /\ model (final (_st_embed Mem.mem_backend (_embedder Demo.st_engine) text' s'))
            = Some name.
Proof.
  apply (model_built_once Mem.mem_backend (_embedder Demo.st_engine) "what is rocq"
           (Mem.start Demo.ann_world) (repeat 0%R 384)).
  vm_compute. reflexivity.
Defined.

(** ** The shape of a search reply *)

Lemma parse_docs_length docs : forall hs,
  parse_docs docs = Ok hs -> length docs = (2 * length hs)%nat.
Proof.
  induction docs as [|a|a b docs IH] using pairs_ind; intros hs H.
  - injection H as <-. reflexivity.
  - discriminate.
  - change (parse_docs (a :: b :: docs))
      with (match parse_hit b with
            | Raise e => Raise e
            | Ok h => match parse_docs docs with
                      | Ok hs => Ok (h :: hs)
                      | Raise e => Raise e
                      end
            end) in H.
    destruct (parse_hit b) as [h|x]; [|discriminate].
    destruct (parse_docs docs) as [hs'|x]; [|discriminate].
    injection H as <-. cbn [length]. rewrite (IH hs' eq_refl). lia.
Qed.

Lemma parse_docs_odd docs :
  Nat.odd (length docs) = true -> exists x, parse_docs docs = Raise x.
Proof.
  induction docs as [|a|a b docs IH] using pairs_ind; intros H.
  - discriminate.
  - now exists IndexError.
  - change (parse_docs (a :: b :: docs))
      with (match parse_hit b with
            | Raise e => Raise e
            | Ok h => match parse_docs docs with
                      | Ok hs => Ok (h :: hs)
                      | Raise e => Raise e
                      end
            end).
    destruct (parse_hit b) as [h|x]; [|eauto].
    destruct IH as [x ->]; [|eauto].
    cbn [length] in H. now rewrite Nat.odd_succ_succ in H.
Qed.

(** X9.  [search_similar] builds its hits from the documents that follow
    the first element of the reply and never reads that element: a reply
    with no document gives no hit; a reply that parses gives exactly one hit
    per (id, fields) pair; a reply whose last id has no fields raises. *)
Theorem search_reply_shape (total : reply) (docs : list reply) :
  parse_search_reply RNil = Ok []
  /\ parse_search_reply (RArray []) = Ok []
  /\ parse_search_reply (RArray [total]) = Ok []
  /\ (forall total', parse_search_reply (RArray (total' :: docs))
                     = parse_search_reply (RArray (total :: docs)))
  /\ (forall hs, parse_search_reply (RArray (total :: docs)) = Ok hs ->
                 length docs = (2 * length hs)%nat)
  /\ (Nat.odd (length docs) = true ->
      exists x, parse_search_reply (RArray (total :: docs)) = Raise x).
Proof.
  split; [reflexivity|]. split; [reflexivity|]. split; [reflexivity|].
  assert (Hp : forall t, parse_search_reply (RArray (t :: docs))
                         = if Z.of_nat (S (length docs)) <? 2 then Ok []
                           else parse_docs docs) by reflexivity.
  split; [intros t; now rewrite !Hp|]. split.
  - intros hs. rewrite Hp.
    destruct (Z.ltb_spec (Z.of_nat (S (length docs))) 2) as [Hl|Hl].
    + intros [= <-]. destruct docs; cbn [length] in *; [reflexivity|lia].
    + apply parse_docs_length.
  - intros Ho. rewrite Hp.
    destruct (Z.ltb_spec (Z.of_nat (S (length docs))) 2) as [Hl|Hl].
    + destruct docs; [discriminate|cbn [length] in Hl; lia].
    + now apply parse_docs_odd.
Qed.

Lemma search_reply_shape_witness :
  length [RBulk "searx_cache:0001"; RArray Broken.fields] = (2 * length
    [{| hit_query := "what is rocq"; hit_payload := Json.JDict [];
        hit_score := float_zero |}])%nat.
Proof.
  apply (proj1 (proj2 (proj2 (proj2 (proj2
           (search_reply_shape (RInt 1)
              [RBulk "searx_cache:0001"; RArray Broken.fields])))))).
  vm_compute. reflexivity.
Defined.

Section QueryField.

Context {W : Type}.
Variable B : backend W.
Variable tobytes : ndarray -> string.

(** X10.  The [query] field of a document is decoded outside any [try]:
    when it is not well-formed UTF-8 (or is not a byte string at all),
    [search_similar] raises instead of returning hits, even if the payload
    and the score are fine, and [search] goes on to the cold tier. *)
Theorem undecodable_query_raises E q s e total doc fl m x rest :
  let q' := Text.strip q in
  let s1 := final (get_exact B (_redis E) q' s) in
  let s2 := final (embed B (_embedder E) q' s1) in
  build_field_map fl ∅ = Ok m ->
  reply_decode (field_get m "query" "") = Raise x ->
  Text.nonempty q' = true ->
  exact_missed (value (get_exact B (_redis E) q' s)) ->
  value (embed B (_embedder E) q' s1) = Ok e ->
  Z.of_nat (length e) = _vector_dim (_redis E) ->
  fst (execute_command B (knn_args tobytes (_redis E) e 3) (world s2))
    = Ok (RArray (total :: doc :: RArray fl :: rest)) ->
  value (search_similar B tobytes (_redis E) e 3 s2) = Raise x
  /\ value (search B tobytes E q s)
     = value (cold_tier B tobytes E q' (Some e)
                (final (semantic_lookup B tobytes E q' s1))).
Proof.
  cbv zeta. intros Hm Hx Hq H1 He Hlen Hres.
  assert (Hv : value (search_similar B tobytes (_redis E) e 3
                        (final (embed B (_embedder E) (Text.strip q)
                                  (final (get_exact B (_redis E) (Text.strip q) s)))))
               = Raise x).
  { rewrite (search_similar_value _ _ _ _ _ _ _ Hlen Hres).
    unfold parse_search_reply. cbn [reply_truthy negb reply_items].
    destruct (Z.ltb_spec (Z.of_nat (length (total :: doc :: RArray fl :: rest))) 2)
      as [Hl|_]; [cbn [length] in Hl; lia|].
    cbn [tl].
    change (parse_docs (doc :: RArray fl :: rest))
      with (match parse_hit (RArray fl) with
            | Raise e => Raise e
            | Ok h => match parse_docs rest with
                      | Ok hs => Ok (h :: hs)
                      | Raise e => Raise e
                      end
            end).
    unfold parse_hit. cbn [reply_items]. now rewrite Hm, Hx. }
  split; [exact Hv|].
  rewrite (search_exact_miss _ _ _ _ _ Hq H1), value_after.
  assert (Hl : value (semantic_lookup B tobytes E (Text.strip q)
                        (final (get_exact B (_redis E) (Text.strip q) s)))
               = Raise x).
  { unfold semantic_lookup. rewrite (bind_ok _ _ _ _ He), value_after. exact Hv. }
  rewrite semantic_miss by now rewrite Hl.
  rewrite value_after. unfold embedding_after. now rewrite He.
Qed.

End QueryField.

Module Garbled.

(** A document whose [query] field holds the lone byte 0xFF. *)
Definition fields : list reply :=
  [ RBulk "query"; RBulk (Bytes.to_string [255]);
    RBulk "payload_json"; RBulk (Json.dumps Demo.sample_payload);
    RBulk "score"; RBulk "0.02" ].

Definition field_map : gmap string reply :=
  <["score" := RBulk "0.02"]>
    (<["payload_json" := RBulk (Json.dumps Demo.sample_payload)]>
       (<["query" := RBulk (Bytes.to_string [255])]> ∅)).

Definition garbled_world : Mem.world :=
  Mem.World ∅ ∅ 1000 ∅ Mem.down
    (Some (RArray [RInt 1; RBulk "searx_cache:0001"; RArray fields]))
    (Some Demo.zero_model).

End Garbled.

Lemma undecodable_query_raises_witness :
  value (search_similar Mem.mem_backend Mem.zero_bytes Mem.default_cache
           (repeat 0%R 384) 3
           (final (embed Mem.mem_backend (_embedder Demo.st_engine) "what is rocq"
                     (final (get_exact Mem.mem_backend Mem.default_cache
                               "what is rocq" (Mem.start Garbled.garbled_world))))))
    = Raise UnicodeDecodeError
  /\ value (search Mem.mem_backend Mem.zero_bytes Demo.st_engine "what is rocq"
              (Mem.start Garbled.garbled_world))
     = Ok (degraded "what is rocq").
Proof.
  destruct (undecodable_query_raises Mem.mem_backend Mem.zero_bytes Demo.st_engine
              "what is rocq" (Mem.start Garbled.garbled_world) (repeat 0%R 384)
              (RInt 1) (RBulk "searx_cache:0001") Garbled.fields
              Garbled.field_map UnicodeDecodeError [])
    as [H1 H2].
  - vm_compute. reflexivity.
  - vm_compute. reflexivity.
  - vm_compute. reflexivity.
  - vm_compute. reflexivity.
  - vm_compute. reflexivity.
  - vm_compute. reflexivity.
  - vm_compute. reflexivity.
  - split; [exact H1|]. rewrite H2. vm_compute. reflexivity.
Defined.

(** ** The caches over time, on the in-memory backend *)

Section Warm.

Variable tobytes : ndarray -> string.

Lemma final_after {W A} (p : list call) (r : run W A) : final (after p r) = final r.
Proof. reflexivity. Qed.

Lemma final_bind_attempt {W A C} (m : M W A) (f : result exn A -> M W C) s :
  final (bind (attempt m) f s) = final (f (value (m s)) (final (m s))).
Proof. reflexivity. Qed.

Lemma mem_sqlite_set q p w m :
  sqlite_set Mem.mem_backend q p (State w m)
  = Run (Ok tt)
        (State (snd (Mem.mem_upsert q (Json.dumps p) (Fin (Mem.clock w # 1)) w)) m)
        [CallTime; CallSqliteUpsert q (Json.dumps p) (Fin (Mem.clock w # 1))].
Proof. reflexivity. Qed.

(** Where the live tier leaves the world when the provider answers and the
    embedding of the semantic tier is at hand. *)
Lemma mem_live_tier_final E q e w m resp :
  Mem.provider w q = Ok resp ->
  final (live_tier Mem.mem_backend tobytes E q (Some e) (State w m))
  = final (cache_set Mem.mem_backend tobytes (_redis E) q (live_payload resp) e
             (State (snd (Mem.mem_upsert q (Json.dumps (live_payload resp))
                            (Fin (Mem.clock w # 1)) w)) m)).
Proof.
  intros Hp. unfold live_tier, try_except. rewrite final_bind_attempt.
  rewrite bind_value, final_bind, invoke_run.
  cbn [value final world model Mem.mem_backend searxng_search Mem.mem_searxng fst snd].
  rewrite Hp. rewrite !bind_attempt_value, !final_bind_attempt.
  rewrite mem_sqlite_set. cbn [value final ret].
  rewrite final_bind. cbn [value final ret]. reflexivity.
Qed.


(** X11.  A result fetched live is in the exact cache afterwards.  On a
    Redis that keeps keys until their deadline, when a call is served by
    the live tier with the embedding of the semantic tier at hand (of the
    configured length), the time-to-live is positive and JSON carries the
    payload, the next call for a query with the same trimmed text is served
    from ["redis_exact"] with the same payload. *)
Theorem live_result_is_cached E q w m e resp q2 :
  let q' := Text.strip q in
  let s1 := final (get_exact Mem.mem_backend (_redis E) q' (State w m)) in
  let s2 := final (semantic_lookup Mem.mem_backend tobytes E q' s1) in
  let s3 := final (sqlite_get Mem.mem_backend q' s2) in
  let p := live_payload resp in
  Text.nonempty q' = true ->
  exact_missed (value (get_exact Mem.mem_backend (_redis E) q' (State w m))) ->
  value (embed Mem.mem_backend (_embedder E) q' s1) = Ok e ->
  semantic_missed (value (semantic_lookup Mem.mem_backend tobytes E q' s1)) ->
  cold_missed (value (sqlite_get Mem.mem_backend q' s2)) ->
  Mem.provider (world s3) q' = Ok resp ->
  Z.of_nat (length e) = _vector_dim (_redis E) ->
  0 < _ttl_seconds (_redis E) ->
  Utf8.valid (Bytes.of_string (Json.dumps p)) = true ->
  Json.loads (Json.dumps p) = Some p ->
  Text.strip q2 = q' ->
  value (search Mem.mem_backend tobytes E q (State w m))
    = Ok {| query := q'; source := "searxng"; payload := p |}
  /\ value (search Mem.mem_backend tobytes E q2
              (final (search Mem.mem_backend tobytes E q (State w m))))
     = Ok {| query := q'; source := "redis_exact"; payload := p |}.
Proof.
  cbv zeta. intros Hq H1 He H2 H3 Hp Hlen Httl Hu Hl Hq2.
  rewrite (search_exact_miss _ _ _ _ _ Hq H1), value_after, final_after.
  rewrite (semantic_miss _ _ _ _ _ H2), value_after, final_after.
  rewrite (cold_miss _ _ _ _ _ _ H3), value_after, final_after.
  unfold embedding_after. rewrite He.
  destruct (final (sqlite_get Mem.mem_backend (Text.strip q) _)) as [w3 m3].
  cbn [world] in Hp. split.
  - rewrite live_tier_value.
    cbn [world Mem.mem_backend searxng_search Mem.mem_searxng fst]. now rewrite Hp.
  - rewrite (mem_live_tier_final _ _ _ _ _ _ Hp).
    assert (Hg : value (get_exact Mem.mem_backend (_redis E) (Text.strip q2)
                   (final (cache_set Mem.mem_backend tobytes (_redis E) (Text.strip q)
                             (live_payload resp) e
                             (State (snd (Mem.mem_upsert (Text.strip q)
                                            (Json.dumps (live_payload resp))
                                            (Fin (Mem.clock w3 # 1)) w3)) m3))))
                 = Ok (live_payload resp)).
    { rewrite Hq2. rewrite (get_exact_after_set _ _ _ _ _ _ _ _ Hlen Httl eq_refl).
      - unfold decode_utf8, json_loads. now rewrite Hu, Hl.
      - destruct (Json.dumps (live_payload resp)); [discriminate Hl|reflexivity]. }
    rewrite (search_exact_hit _ _ _ _ _ (live_payload resp));
      [rewrite value_after, Hq2; reflexivity|now rewrite Hq2|exact Hg|reflexivity].
Qed.

End Warm.

Lemma live_result_is_cached_witness :
  value (search Mem.mem_backend Mem.zero_bytes Demo.st_engine "what is rocq "
           (Mem.start (Mem.World ∅ ∅ 1000 ∅ Mem.three_results None
                         (Some Demo.zero_model))))
    = Ok {| query := "what is rocq"; source := "searxng";
            payload := live_payload
                         {| resp_query := "what is rocq";
                            results := match Mem.three_results "what is rocq" with
                                       | Ok r => results r
                                       | Raise _ => []
                                       end;
                            raw := Json.JDict [] |} |}
  /\ value (search Mem.mem_backend Mem.zero_bytes Demo.st_engine "  what is rocq"
              (final (search Mem.mem_backend Mem.zero_bytes Demo.st_engine
                        "what is rocq "
                        (Mem.start (Mem.World ∅ ∅ 1000 ∅ Mem.three_results None
                                      (Some Demo.zero_model))))))
     = Ok {| query := "what is rocq"; source := "redis_exact";
             payload := live_payload
                          {| resp_query := "what is rocq";
                             results := match Mem.three_results "what is rocq" with
                                        | Ok r => results r
                                        | Raise _ => []
                                        end;
                             raw := Json.JDict [] |} |}.
Proof.
  apply (live_result_is_cached Mem.zero_bytes Demo.st_engine "what is rocq "
           (Mem.World ∅ ∅ 1000 ∅ Mem.three_results None (Some Demo.zero_model))
           None (repeat 0%R 384)
           {| resp_query := "what is rocq";
              results := match Mem.three_results "what is rocq" with
                         | Ok r => results r
                         | Raise _ => []
                         end;
              raw := Json.JDict [] |}
           "  what is rocq").
  - vm_compute. reflexivity.
  - vm_compute. reflexivity.
  - vm_compute. reflexivity.
  - vm_compute. exact I.
  - vm_compute. exact I.
  - vm_compute. reflexivity.
  - vm_compute. reflexivity.
  - vm_compute. reflexivity.
  - vm_compute. reflexivity.
  - vm_compute. reflexivity.
  - vm_compute. reflexivity.
Defined.

Section Expiry.

Variable tobytes : ndarray -> string.




End Expiry.


(** ** Reads and writes *)

(** A call that stores something. *)
Definition is_write (c : call) : bool :=
  match c with
  | CallHset _ _ | CallExpire _ _ | CallSqliteUpsert _ _ _ => true
  | _ => false
  end.

Definition reading (c : call) : Prop := is_write c = false.

Section ReadOnly.

Context {W : Type}.
Variable B : backend W.
Variable tobytes : ndarray -> string.

Lemma get_exact_reading c q : only reading (get_exact B c q).
Proof.
  unfold get_exact. apply only_bind; [now apply only_invoke|].
  intros data. destruct (decide (data = ∅)); [apply only_ret|].
  destruct (data !! "payload_json") as [pj|]; [|apply only_ret].
  destruct (negb (Text.nonempty pj)); [apply only_ret|].
  apply only_bind; [apply only_lift|]. intros t. apply only_lift.
Qed.

Lemma _st_embed_reading e text : only reading (_st_embed B e text).
Proof.
  unfold _st_embed. apply only_bind; [apply only_get_model|]. intros m.
  apply only_bind.
  - destruct m as [name|]; [apply only_ret|].
    apply only_bind; [now apply only_invoke|]. intros _.
    apply only_bind; [apply only_set_model|]. intros _. apply only_ret.
  - intros name. apply only_bind; [now apply only_invoke|].
    intros [|row rows]; [apply only_raise|apply only_ret].
Qed.

Lemma semantic_lookup_reading E q : only reading (semantic_lookup B tobytes E q).
Proof.
  unfold semantic_lookup. apply only_bind.
  - unfold embed. destruct (String.eqb _ "hash"); [apply only_ret|].
    destruct (_ || _); [apply _st_embed_reading|].
    apply only_try_except; [apply _st_embed_reading|apply only_ret].
  - intros e. unfold search_similar. destruct (negb _); [apply only_raise|].
    apply only_bind; [now apply only_invoke|]. intros res. apply only_lift.
Qed.

Lemma sqlite_get_reading q : only reading (sqlite_get B q).
Proof.
  unfold sqlite_get. apply only_bind; [now apply only_invoke|].
  intros [[pj t]|]; [|apply only_ret].
  apply only_bind; [apply only_lift|]. intros v. apply only_ret.
Qed.

(** X13.  A call that a cache serves stores nothing, and a call on a blank
    query talks to nobody: when the source of the outcome is
    ["redis_exact"], ["redis_semantic"] or ["sqlite"], the log of the call
    has no [HSET], no [EXPIRE] and no SQLite upsert; when the trimmed query
    is empty, the log is empty and the state is untouched. *)
Theorem cache_served_call_writes_nothing E q s o :
  (value (search B tobytes E q s) = Ok o ->
   source o = "redis_exact" \/ source o = "redis_semantic" \/ source o = "sqlite" ->
   existsb is_write (calls (search B tobytes E q s)) = false)
  /\ (Text.nonempty (Text.strip q) = false ->
      search B tobytes E q s = Run (Ok (degraded (Text.strip q))) s []).
Proof.
  split; [|apply search_blank].
  intros Hv Hs.
  assert (Hall : Forall reading (calls (search B tobytes E q s))).
  { revert Hv. unfold search.
    destruct (negb (Text.nonempty (Text.strip q))); [intros _; constructor|].
    rewrite bind_attempt, value_after, calls_after.
    pose proof (get_exact_reading (_redis E) (Text.strip q) s) as H1.
    set (s1 := final (get_exact B (_redis E) (Text.strip q) s)).
    assert (Hsem : value (semantic_tier B tobytes E (Text.strip q) s1) = Ok o ->
                   Forall reading (calls (semantic_tier B tobytes E (Text.strip q) s1))).
    { clear H1. intros Hv.
      pose proof (semantic_lookup_reading E (Text.strip q) s1) as H2.
      destruct (value (semantic_lookup B tobytes E (Text.strip q) s1))
        as [[|h hs]|x] eqn:Hl.
      2:{ unfold semantic_lookup in Hl, H2.
          destruct (value (embed B (_embedder E) (Text.strip q) s1)) as [e|x] eqn:He.
          - rewrite (bind_ok _ _ _ _ He), value_after in Hl.
            rewrite (semantic_hit _ _ _ _ _ _ _ _ He Hl), calls_after.
            apply Forall_app. split; [exact H2|constructor].
          - rewrite (bind_raise _ _ _ _ He) in Hl. discriminate. }
      all: rewrite semantic_miss in * by now rewrite Hl.
      all: rewrite value_after in Hv; rewrite calls_after.
      all: apply Forall_app; split; [exact H2|].
      all: set (s2 := final (semantic_lookup B tobytes E (Text.strip q) s1)) in *.
      all: pose proof (sqlite_get_reading (Text.strip q) s2) as H3.
      all: destruct (value (sqlite_get B (Text.strip q) s2)) as [[item|]|y] eqn:Hc.
      all: try (rewrite (cold_hit _ _ _ _ _ _ _ Hc), calls_after;
                apply Forall_app; split; [exact H3|constructor]).
      all: rewrite cold_miss in Hv by now rewrite Hc.
      all: rewrite value_after, live_tier_value in Hv.
      all: destruct (fst (searxng_search B _ _)); injection Hv as <-.
      all: cbn [source degraded] in Hs.
      all: destruct Hs as [Hs|[Hs|Hs]]; discriminate Hs. }
    destruct (value (get_exact B (_redis E) (Text.strip q) s)) as [v|x].
    - destruct (Json.truthy v).
      + intros _. apply Forall_app. split; [exact H1|constructor].
      + intros Hv. apply Forall_app. split; [exact H1|now apply Hsem].
    - intros Hv. apply Forall_app. split; [exact H1|now apply Hsem]. }
  clear -Hall. induction Hall as [|c l Hc _ IH]; [reflexivity|].
  cbn [existsb]. now rewrite Hc, IH.
Qed.

End ReadOnly.

Lemma cache_served_call_writes_nothing_witness :
  existsb is_write
    (calls (search Mem.mem_backend Mem.zero_bytes Demo.st_engine "what is rocq"
              (Mem.start Demo.cold_world))) = false.
Proof.
  apply (proj1 (cache_served_call_writes_nothing Mem.mem_backend Mem.zero_bytes
                  Demo.st_engine "what is rocq" (Mem.start Demo.cold_world)
                  {| query := "what is rocq"; source := "sqlite";
                     payload := Demo.sample_payload |})).
  - vm_compute. reflexivity.
  - right. right. reflexivity.
Defined.

(** ** Computations that leave the world as it is *)

Section Stable.

Context {W : Type}.

(** [m] may change the embedder's model, never the world. *)
Definition stable {A} (m : M W A) : Prop := forall s, world (final (m s)) = world s.

Lemma stable_ret {A} (a : A) : stable (ret a).
Proof. intros s. reflexivity. Qed.


Lemma stable_lift {A} (r : result exn A) : stable (lift (W := W) r).
Proof. intros s. reflexivity. Qed.



Lemma stable_invoke {A} (c : call) (op : W -> result lib_error A * W) :
  (forall w, snd (op w) = w) -> stable (invoke c op).
Proof. intros H s. rewrite invoke_run. cbn [final world]. apply H. Qed.

Lemma stable_bind {A C} (m : M W A) (f : A -> M W C) :
  stable m -> (forall a, stable (f a)) -> stable (bind m f).
Proof.
  intros Hm Hf s. rewrite final_bind.
  destruct (value (m s)) as [a|x]; [rewrite Hf|]; apply Hm.
Qed.



End Stable.

Section MemReads.

Variable tobytes : ndarray -> string.







Lemma mem_sqlite_get_stable q : stable (sqlite_get Mem.mem_backend q).
Proof.
  unfold sqlite_get. apply stable_bind; [now apply stable_invoke|].
  intros [[pj t]|]; [|apply stable_ret].
  apply stable_bind; [apply stable_lift|]. intros v. apply stable_ret.
Qed.

Lemma mem_sqlite_get_value q s :
  value (sqlite_get Mem.mem_backend q s)
  = match Mem.rows (world s) !! q with
    | None => Ok None
    | Some (payload_json, created_at) =>
        match json_loads payload_json with
        | Ok v => Ok (Some {| item_query := q; item_payload := v;
                              item_created_at := created_at |})
        | Raise x => Raise x
        end
    end.
Proof.
  unfold sqlite_get. rewrite bind_value, invoke_run.
  cbn [value final Mem.mem_backend sqlite_select Mem.mem_select fst snd].
  destruct (Mem.rows (world s) !! q) as [[pj t]|]; [|reflexivity].
  rewrite bind_value. unfold lift at 1. cbn [value final].
  now destruct (json_loads pj).
Qed.



End MemReads.


(** ** Trimming twice *)

Module Strip.

(** One scan of [str.strip] from one end, over any three tests. *)
Section Scan.

Variable s1 : Z -> bool.
Variable s2 : Z -> Z -> bool.
Variable s3 : Z -> Z -> Z -> bool.

Fixpoint scan (l : list Z) : list Z :=
  match l with
  | [] => []
  | c1 :: t1 =>
      if s1 c1 then scan t1
      else match t1 with
           | [] => l
           | c2 :: t2 =>
               if s2 c1 c2 then scan t2
               else match t2 with
                    | [] => l
                    | c3 :: t3 => if s3 c1 c2 c3 then scan t3 else l
                    end
           end
  end.

(** The list starts with a white-space character. *)
Definition starts (l : list Z) : bool :=
  match l with
  | [] => false
  | c1 :: t1 =>
      s1 c1
      || match t1 with
         | [] => false
         | c2 :: t2 =>
             s2 c1 c2
             || match t2 with
                | [] => false
                | c3 :: _ => s3 c1 c2 c3
                end
         end
  end.

Lemma scan_stop l : starts l = false -> scan l = l.
Proof.
  destruct l as [|c1 [|c2 [|c3 t3]]]; cbn [starts scan]; intros H.
  - reflexivity.
  - rewrite orb_false_r in H. now rewrite H.
  - apply orb_false_elim in H as [H1 H2]. rewrite orb_false_r in H2.
    now rewrite H1, H2.
  - apply orb_false_elim in H as [H1 H2]. apply orb_false_elim in H2 as [H2 H3].
    now rewrite H1, H2, H3.
Qed.

(** What a scan returns is a tail of its input that starts with no
    white-space character. *)
Lemma scan_spec : forall (n : nat) (l : list Z),
  (length l <= n)%nat ->
  starts (scan l) = false /\ exists k, scan l = skipn k l.
Proof.
  induction n as [|n IH]; intros l Hn.
  - destruct l; [|cbn [length] in Hn; lia]. split; [reflexivity|now exists O].
  - destruct l as [|c1 t1]; [split; [reflexivity|now exists O]|].
    cbn [length] in Hn. cbn [scan].
    destruct (s1 c1) eqn:H1.
    { destruct (IH t1) as [Hs [k Hk]]; [lia|]. split; [exact Hs|].
      exists (S k). exact Hk. }
    destruct t1 as [|c2 t2].
    { split; [cbn [starts]; now rewrite H1|now exists O]. }
    cbn [length] in Hn.
    destruct (s2 c1 c2) eqn:H2.
    { destruct (IH t2) as [Hs [k Hk]]; [lia|]. split; [exact Hs|].
      exists (S (S k)). exact Hk. }
    destruct t2 as [|c3 t3].
    { split; [cbn [starts]; now rewrite H1, H2|now exists O]. }
    cbn [length] in Hn.
    destruct (s3 c1 c2 c3) eqn:H3.
    { destruct (IH t3) as [Hs [k Hk]]; [lia|]. split; [exact Hs|].
      exists (S (S (S k))). exact Hk. }
    split; [cbn [starts]; now rewrite H1, H2, H3|now exists O].
Qed.

Lemma scan_scan l : scan (scan l) = scan l.
Proof. apply scan_stop. now apply (scan_spec (length l)). Qed.

Lemma scan_tail l : exists k, scan l = skipn k l.
Proof. now apply (scan_spec (length l)). Qed.

(** Cutting the end of a list cannot make it start with white space. *)
Lemma starts_firstn l k : starts l = false -> starts (firstn k l) = false.
Proof.
  destruct l as [|c1 [|c2 [|c3 t3]]]; destruct k as [|[|[|k]]];
    cbn [starts firstn]; intros H; try reflexivity;
    repeat match goal with
           | H : (_ || _) = false |- _ => apply orb_false_elim in H; destruct H
           end;
    repeat match goal with
           | H : ?b = false |- context [?b] => rewrite H
           end;
    reflexivity.
Qed.

End Scan.

Lemma lstrip_scan l : Text.lstrip l = scan Text.space1 Text.space2 Text.space3 l.
Proof.
  enough (H : forall n l, (length l <= n)%nat ->
                Text.lstrip l = scan Text.space1 Text.space2 Text.space3 l)
    by now apply (H (length l)).
  clear l. induction n as [|n IH]; intros l Hn.
  - destruct l; [reflexivity|cbn [length] in Hn; lia].
  - destruct l as [|c1 t1]; [reflexivity|]. cbn [length] in Hn.
    cbn [Text.lstrip scan].
    destruct (Text.space1 c1); [apply IH; lia|].
    destruct t1 as [|c2 t2]; [reflexivity|]. cbn [length] in Hn.
    destruct (Text.space2 c1 c2); [apply IH; lia|].
    destruct t2 as [|c3 t3]; [reflexivity|]. cbn [length] in Hn.
    destruct (Text.space3 c1 c2 c3); [apply IH; lia|reflexivity].
Qed.

Lemma lstrip_rev_scan l :
  Text.lstrip_rev l
  = scan Text.space1 (fun a b => Text.space2 b a) (fun a b c => Text.space3 c b a) l.
Proof.
  enough (H : forall n l, (length l <= n)%nat ->
                Text.lstrip_rev l
                = scan Text.space1 (fun a b => Text.space2 b a)
                    (fun a b c => Text.space3 c b a) l)
    by now apply (H (length l)).
  clear l. induction n as [|n IH]; intros l Hn.
  - destruct l; [reflexivity|cbn [length] in Hn; lia].
  - destruct l as [|c1 t1]; [reflexivity|]. cbn [length] in Hn.
    cbn [Text.lstrip_rev scan].
    destruct (Text.space1 c1); [apply IH; lia|].
    destruct t1 as [|c2 t2]; [reflexivity|]. cbn [length] in Hn.
    destruct (Text.space2 c2 c1); [apply IH; lia|].
    destruct t2 as [|c3 t3]; [reflexivity|]. cbn [length] in Hn.
    destruct (Text.space3 c3 c2 c1); [apply IH; lia|reflexivity].
Qed.

(** [rstrip] keeps a prefix. *)
Lemma rstrip_head l : exists k, Text.rstrip l = firstn k l.
Proof.
  unfold Text.rstrip. rewrite lstrip_rev_scan.
  destruct (scan_tail Text.space1 (fun a b => Text.space2 b a)
              (fun a b c => Text.space3 c b a) (rev l)) as [k ->].
  exists (length l - k)%nat. now rewrite List.skipn_rev, rev_involutive.
Qed.

Lemma rstrip_rstrip l : Text.rstrip (Text.rstrip l) = Text.rstrip l.
Proof.
  unfold Text.rstrip. rewrite rev_involutive, !lstrip_rev_scan.
  now rewrite scan_scan.
Qed.

Definition strip_bytes (l : list Z) : list Z := Text.rstrip (Text.lstrip l).

Lemma strip_bytes_twice l : strip_bytes (strip_bytes l) = strip_bytes l.
Proof.
  unfold strip_bytes.
  assert (H : Text.lstrip (Text.rstrip (Text.lstrip l)) = Text.rstrip (Text.lstrip l)).
  { destruct (rstrip_head (Text.lstrip l)) as [k ->].
    rewrite (lstrip_scan (firstn k _)). apply scan_stop, starts_firstn.
    rewrite lstrip_scan. now apply (scan_spec _ _ _ (length l)). }
  now rewrite H, rstrip_rstrip.
Qed.

(** The trimmed bytes of an encoded text are an encoded text. *)
Lemma strip_bytes_encoded (cs : list ascii) :
  exists cs', strip_bytes (map Bytes.code cs) = map Bytes.code cs'.
Proof.
  unfold strip_bytes.
  destruct (rstrip_head (Text.lstrip (map Bytes.code cs))) as [k ->].
  rewrite lstrip_scan.
  destruct (scan_tail Text.space1 Text.space2 Text.space3 (map Bytes.code cs))
    as [j ->].
  exists (firstn k (skipn j cs)). now rewrite List.skipn_map, List.firstn_map.
Qed.

Lemma chr_code a : Bytes.chr (Bytes.code a) = a.
Proof.
  unfold Bytes.chr, Bytes.code.
  pose proof (N_ascii_bounded a) as Hb.
  rewrite Z.mod_small by lia.
  now rewrite N2Z.id, ascii_N_embedding.
Qed.

Lemma of_to_string_encoded (cs : list ascii) :
  Bytes.of_string (Bytes.to_string (map Bytes.code cs)) = map Bytes.code cs.
Proof.
  unfold Bytes.of_string, Bytes.to_string.
  rewrite list_ascii_of_string_of_list_ascii, !map_map.
  apply map_ext. intros a. now rewrite chr_code.
Qed.

Lemma strip_strip s : Text.strip (Text.strip s) = Text.strip s.
Proof.
  unfold Text.strip.
  change (Text.rstrip (Text.lstrip (Bytes.of_string s)))
    with (strip_bytes (map Bytes.code (list_ascii_of_string s))).
  destruct (strip_bytes_encoded (list_ascii_of_string s)) as [cs Hcs].
  rewrite Hcs, of_to_string_encoded.
  change (Text.rstrip (Text.lstrip (map Bytes.code cs)))
    with (strip_bytes (map Bytes.code cs)).
  now rewrite <- Hcs, strip_bytes_twice.
Qed.

End Strip.

(** X15.  Trimming is idempotent, so a query and its trimmed form are the
    same to the resolver: they have the same stable id, and [search] runs
    the same way on both, from every state and on every backend. *)
Theorem search_ignores_outer_whitespace q :
  Text.strip (Text.strip q) = Text.strip q
  /\ _stable_id (Text.strip q) = _stable_id q
  /\ forall W (B : backend W) tobytes E s,
       search B tobytes E (Text.strip q) s = search B tobytes E q s.
Proof.
  pose proof (Strip.strip_strip q) as H.
  split; [exact H|]. split.
  - unfold _stable_id. now rewrite H.
  - intros W B tobytes E s. unfold search. now rewrite H.
Qed.

(** ** When the exact tier serves *)

Section ExactTier.

Context {W : Type}.
Variable B : backend W.
Variable tobytes : ndarray -> string.

Lemma live_tier_later E q emb s o :
  value (live_tier B tobytes E q emb s) = Ok o -> source o <> "redis_exact".
Proof.
  rewrite live_tier_value.
  destruct (fst (searxng_search B q (world s))); intros [= <-]; discriminate.
Qed.

Lemma cold_tier_later E q emb s o :
  value (cold_tier B tobytes E q emb s) = Ok o -> source o <> "redis_exact".
Proof.
  unfold cold_tier. rewrite bind_attempt_value.
  destruct (value (sqlite_get B q s)) as [[item|]|x]; try apply live_tier_later.
  intros [= <-]. discriminate.
Qed.

Lemma semantic_tier_later E q s o :
  value (semantic_tier B tobytes E q s) = Ok o -> source o <> "redis_exact".
Proof.
  unfold semantic_tier. rewrite bind_attempt_value.
  destruct (value (embed B (_embedder E) q s)) as [e|x]; [|apply cold_tier_later].
  rewrite bind_attempt_value.
  destruct (value (search_similar B tobytes _ _ _ _)) as [[|h hs]|x];
    try apply cold_tier_later.
  intros [= <-]. discriminate.
Qed.

(** X16.  For a non-blank query the outcome is tagged ["redis_exact"]
    exactly when [get_exact] returned a payload that Python counts as true.
    An entry whose payload is [{}], [[]], [null], [0] or [""] is never
    served by the exact tier. *)
Theorem exact_tier_serves_iff E q s o :
  Text.nonempty (Text.strip q) = true ->
  value (search B tobytes E q s) = Ok o ->
  (source o = "redis_exact"
   <-> exists v, value (get_exact B (_redis E) (Text.strip q) s) = Ok v
                 /\ Json.truthy v = true /\ payload o = v).
Proof.
  intros Hq Hv. split.
  - intros Hs.
    destruct (value (get_exact B (_redis E) (Text.strip q) s)) as [v|x] eqn:Hg.
    + destruct (Json.truthy v) eqn:Ht.
      * rewrite (search_exact_hit _ _ _ _ _ _ Hq Hg Ht), value_after in Hv.
        injection Hv as <-. now exists v.
      * rewrite search_exact_miss in Hv by (try rewrite Hg; assumption).
        rewrite value_after in Hv. now apply semantic_tier_later in Hv.
    + rewrite search_exact_miss in Hv by (try rewrite Hg; easy).
      rewrite value_after in Hv. now apply semantic_tier_later in Hv.
  - intros (v & Hg & Ht & _).
    rewrite (search_exact_hit _ _ _ _ _ _ Hq Hg Ht), value_after in Hv.
    now injection Hv as <-.
Qed.

End ExactTier.

(** A state in which the exact cache holds the empty dict for the query. *)
Definition hollow_state : state Mem.world :=
  final (cache_set Mem.mem_backend Mem.zero_bytes Mem.default_cache "what is rocq"
           (Json.JDict []) (repeat 0%R 384) (Mem.start Demo.cold_world)).

Lemma exact_tier_serves_iff_witness :
  source {| query := "what is rocq"; source := "sqlite";
            payload := Demo.sample_payload |} = "redis_exact"
  <-> exists v,
        value (get_exact Mem.mem_backend Mem.default_cache "what is rocq" hollow_state)
          = Ok v
        /\ Json.truthy v = true /\ Demo.sample_payload = v.
Proof.
  apply (exact_tier_serves_iff Mem.mem_backend Mem.zero_bytes Demo.st_engine
           "what is rocq" hollow_state
           {| query := "what is rocq"; source := "sqlite";
              payload := Demo.sample_payload |}).
  - vm_compute. reflexivity.
  - vm_compute. reflexivity.
Defined.

(** ** The cold cache on the in-memory SQLite *)

(** X17.  [SqliteCache.set] followed by [get] for the same query string
    returns the payload, stamped with the time of the write; rows of other
    query strings, including ones that differ only by surrounding white
    space, are untouched; and a second [set] replaces the first. *)
Theorem cold_set_get q p p0 w m :
  Json.loads (Json.dumps p) = Some p ->
  let s0 := final (sqlite_set Mem.mem_backend q p0 (State w m)) in
  let s1 := final (sqlite_set Mem.mem_backend q p s0) in
  value (sqlite_get Mem.mem_backend q s1)
    = Ok (Some {| item_query := q; item_payload := p;
                  item_created_at := Fin (Mem.clock w # 1) |})
  /\ forall q2, q2 <> q ->
       value (sqlite_get Mem.mem_backend q2 s1)
       = value (sqlite_get Mem.mem_backend q2 (State w m)).
Proof.
  intros Hl. cbv zeta. repeat (rewrite mem_sqlite_set; cbn [final]). split.
  - rewrite mem_sqlite_get_value. unfold Mem.mem_upsert.
    cbn [world snd Mem.rows Mem.clock]. rewrite lookup_insert_eq.
    unfold json_loads. now rewrite Hl.
  - intros q2 Hq. rewrite !mem_sqlite_get_value. unfold Mem.mem_upsert.
    cbn [world snd Mem.rows]. now rewrite !lookup_insert_ne by congruence.
Qed.

Lemma cold_set_get_witness :
  value (sqlite_get Mem.mem_backend "what is rocq"
           (final (sqlite_set Mem.mem_backend "what is rocq" Demo.sample_payload
                     (final (sqlite_set Mem.mem_backend "what is rocq" Demo.far_payload
                               (Mem.start (Mem.empty Mem.down)))))))
    = Ok (Some {| item_query := "what is rocq"; item_payload := Demo.sample_payload;
                  item_created_at := Fin (1000 # 1) |})
  /\ forall q2, q2 <> "what is rocq" ->
       value (sqlite_get Mem.mem_backend q2
                (final (sqlite_set Mem.mem_backend "what is rocq" Demo.sample_payload
                          (final (sqlite_set Mem.mem_backend "what is rocq"
                                    Demo.far_payload
                                    (Mem.start (Mem.empty Mem.down)))))))
       = value (sqlite_get Mem.mem_backend q2 (Mem.start (Mem.empty Mem.down))).
Proof.
  apply (cold_set_get "what is rocq" Demo.sample_payload Demo.far_payload
           (Mem.empty Mem.down) None).
  vm_compute. reflexivity.
Defined.

(** ** The shape of a key *)

Lemma step_length s kw : length (Sha256.step s kw) = length s.
Proof.
  unfold Sha256.step.
  destruct s as [|a [|b [|c [|d [|e [|f [|g [|h [|i t]]]]]]]]]; reflexivity.
Qed.

Lemma steps_length l : forall s, length (fold_left Sha256.step l s) = length s.
Proof.
  induction l as [|kw l IH]; intros s; cbn [fold_left]; [reflexivity|].
  now rewrite IH, step_length.
Qed.

Lemma compress_length h block : length (Sha256.compress h block) = length h.
Proof.
  unfold Sha256.compress. rewrite length_map, length_combine, steps_length. lia.
Qed.

Lemma blocks_length fuel : forall h data,
  length (Sha256.blocks fuel h data) = length h.
Proof.
  induction fuel as [|k IH]; intros h data; cbn [Sha256.blocks]; [reflexivity|].
  destruct data; [reflexivity|]. now rewrite IH, compress_length.
Qed.

Lemma to_le_length n : forall z, length (Bytes.to_le n z) = n.
Proof. induction n as [|n IH]; intros z; cbn [Bytes.to_le length]; [reflexivity|]. now rewrite IH. Qed.

Lemma flat_map_length_const {A C} (f : A -> list C) k (l : list A) :
  (forall a, length (f a) = k) -> length (flat_map f l) = (k * length l)%nat.
Proof.
  intros Hf. induction l as [|a l IH]; cbn [flat_map length]; [lia|].
  rewrite length_app, Hf, IH. lia.
Qed.

Lemma digest_length data : length (Sha256.digest data) = 32%nat.
Proof.
  unfold Sha256.digest.
  rewrite (flat_map_length_const _ 4%nat), blocks_length; [reflexivity|].
  intros z. unfold Bytes.to_be. now rewrite length_rev, to_le_length.
Qed.

Lemma hex_length l : String.length (Bytes.hex l) = (2 * length l)%nat.
Proof.
  unfold Bytes.hex.
  assert (H : forall cs, String.length (string_of_list_ascii cs) = length cs).
  { induction cs as [|c cs IH]; cbn [string_of_list_ascii String.length length];
      [reflexivity|now rewrite IH]. }
  rewrite H. now apply flat_map_length_const.
Qed.

Lemma append_length a b :
  String.length (String.append a b) = (String.length a + String.length b)%nat.
Proof.
  induction a as [|c a IH]; [reflexivity|].
  change (S (String.length (String.append a b))
          = S (String.length a + String.length b)).
  now rewrite IH.
Qed.

(** X18.  The stable id of a query is 64 characters long whatever the
    query, so every key of the exact cache is the prefix followed by 64
    characters. *)
Theorem key_shape c q :
  String.length (_stable_id q) = 64%nat
  /\ String.length (_make_key c (_stable_id q))
     = (String.length (_key_prefix c) + 64)%nat.
Proof.
  assert (H : String.length (_stable_id q) = 64%nat).
  { unfold _stable_id, Sha256.hexdigest. now rewrite hex_length, digest_length. }
  split; [exact H|]. unfold _make_key. now rewrite append_length, H.
Qed.

(** ** [searxng_client.py]: normalising the provider's answer *)

Module Searxng.

(** What the body of [SearxngClient.search] can raise once the HTTP
    response has been read.  [SliceError] is what slicing a [dict] raises:
    [TypeError], or [KeyError] from Python 3.12 on. *)
Inductive error :=
| AttributeError
| TypeError
| SliceError
| ValueError
| OverflowError.

(** A result as the loop builds it: [engine] is whatever JSON value the
    item carries, [JNull] for [None]. *)
Record Result := {
  title : string;
  url : string;
  content : string;
  engine : Json.value;
  score : option pyfloat
}.

Record Response := {
  query : string;
  results : list Result;
  raw : Json.value
}.

(** [l[:n]] *)
Definition slice_to {A} (l : list A) (n : Z) : list A :=
  if 0 <=? n then firstn (Z.to_nat n) l
  else firstn (length l - Z.to_nat (- n)) l.

(** The characters of a [str], each with its UTF-8 bytes. *)
Fixpoint points (l : list Z) : list (list Z) :=
  match l with
  | [] => []
  | b :: t =>
      match points t with
      | (c :: g) :: gs => if Utf8.cont c then (b :: c :: g) :: gs else [b] :: (c :: g) :: gs
      | gs => [b] :: gs
      end
  end.

(** [float(x)] on a JSON value; the rounding of an [int] is left out, the
    overflow is not. *)
Definition float_of (v : Json.value) : result error pyfloat :=
  match v with
  | Json.JInt z =>
      if Z.abs z <? 2 ^ 1024 - 2 ^ 970 then Ok (Fin (z # 1)) else Raise OverflowError
  | Json.JFloat f => Ok f
  | Json.JBool b => Ok (Fin ((if b then 1 else 0) # 1))
  | Json.JStr s =>
      match PyFloat.of_str s with
      | Some f => Ok f
      | None => Raise ValueError
      end
  | _ => Raise TypeError
  end.

Section Normalise.

(** [str(x)] for a JSON value that is not a [str]. *)
Variable str_of : Json.value -> string.

(** [str(item.get(k) or "").strip()] *)
Definition text_field (item : list (string * Json.value)) (k : string) : string :=
  let v := match Json.dict_get item k with
           | Some v => if Json.truthy v then v else Json.JStr ""
           | None => Json.JStr ""
           end in
  Text.strip (match v with
              | Json.JStr s => s
              | _ => str_of v
              end).

(** The body of the loop. *)
Definition normalise_item (item : Json.value) : result error Result :=
  match item with
  | Json.JDict kv =>
      let sc :=
        match Json.dict_get kv "score" with
        | None | Some Json.JNull => Ok None
        | Some v =>
            match float_of v with
            | Ok f => Ok (Some f)
            | Raise e => Raise e
            end
        end in
      match sc with
      | Ok sc =>
          Ok {| title := text_field kv "title";
                url := text_field kv "url";
                content := text_field kv "content";
                engine := match Json.dict_get kv "engine" with
                          | Some v => v
                          | None => Json.JNull
                          end;
                score := sc |}
      | Raise e => Raise e
      end
  | _ => Raise AttributeError
  end.

(** [data.get("results", [])[:max_results]], as the list the loop runs
    over. *)
Definition items_of (data : Json.value) (max_results : Z)
  : result error (list Json.value) :=
  match data with
  | Json.JDict kv =>
      match Json.dict_get kv "results" with
      | None => Ok (slice_to [] max_results)
      | Some (Json.JList l) => Ok (slice_to l max_results)
      | Some (Json.JStr s) =>
          Ok (map (fun g => Json.JStr (Bytes.to_string g))
                (slice_to (points (Bytes.of_string s)) max_results))
      | Some (Json.JDict _) => Raise SliceError
      | Some _ => Raise TypeError
      end
  | _ => Raise AttributeError
  end.

Fixpoint each (items : list Json.value) : result error (list Result) :=
  match items with
  | [] => Ok []
  | item :: rest =>
      match normalise_item item with
      | Raise e => Raise e
      | Ok r =>
          match each rest with
          | Ok rs => Ok (r :: rs)
          | Raise e => Raise e
          end
      end
  end.

(** [SearxngClient.search] from [data = resp.json()] on. *)
Definition normalise (q : string) (data : Json.value) (max_results : Z)
  : result error Response :=
  match items_of data max_results with
  | Raise e => Raise e
  | Ok items =>
      match each items with
      | Ok rs => Ok {| query := q; results := rs; raw := data |}
      | Raise e => Raise e
      end
  end.

(** The text fields of a result are trimmed. *)
Definition tidy (r : Result) : Prop :=
  Text.strip (title r) = title r
  /\ Text.strip (url r) = url r
  /\ Text.strip (content r) = content r.

(** An item the loop accepts whatever else it holds: a dict whose score is
    absent, [null] or a JSON float. *)
Definition plain (item : Json.value) : Prop :=
  match item with
  | Json.JDict kv =>
      match Json.dict_get kv "score" with
      | None | Some Json.JNull | Some (Json.JFloat _) => True
      | _ => False
      end
  | _ => False
  end.

Lemma text_field_tidy item k : Text.strip (text_field item k) = text_field item k.
Proof. unfold text_field. apply Strip.strip_strip. Qed.

Lemma normalise_item_tidy item r : normalise_item item = Ok r -> tidy r.
Proof.
  unfold normalise_item. destruct item as [| | | | |l|kv]; try discriminate.
  match goal with
  | |- match ?x with Ok _ => _ | Raise _ => _ end = _ -> _ =>
      destruct x as [sc|e]; [|discriminate]
  end.
  intros [= <-]. repeat split; apply text_field_tidy.
Qed.

Lemma each_spec items : forall rs,
  each items = Ok rs -> length rs = length items /\ Forall tidy rs.
Proof.
  induction items as [|item rest IH]; intros rs; cbn [each].
  - intros [= <-]. now split.
  - destruct (normalise_item item) as [r|e] eqn:Hi; [|discriminate].
    destruct (each rest) as [rs'|e]; [|discriminate].
    intros [= <-]. destruct (IH rs' eq_refl) as [Hl Ht]. split.
    + cbn [length]. now rewrite Hl.
    + constructor; [exact (normalise_item_tidy _ _ Hi)|exact Ht].
Qed.

Lemma slice_to_length {A} (l : list A) n :
  0 <= n -> length (slice_to l n) = Nat.min (Z.to_nat n) (length l).
Proof.
  intros Hn. unfold slice_to. destruct (Z.leb_spec 0 n); [|lia].
  apply length_firstn.
Qed.

Lemma each_plain items : Forall plain items -> exists rs, each items = Ok rs.
Proof.
  induction 1 as [|item rest Hp _ [rs IH]]; [now exists []|].
  cbn [each]. rewrite IH.
  destruct item as [| | | | |l|kv]; try contradiction.
  unfold plain in Hp. unfold normalise_item.
  destruct (Json.dict_get kv "score") as [[| | |f| | |]|]; try contradiction;
    eexists; reflexivity.
Qed.

(** X19.  When [search] returns, the response carries the query as it was
    given and the raw answer untouched, at most [max_results] results (for
    a [max_results] that is not negative), and every title, url and content
    in it is trimmed. *)
Theorem normalise_shape q data max_results r :
  normalise q data max_results = Ok r ->
  query r = q
  /\ raw r = data
  /\ (0 <= max_results -> (length (results r) <= Z.to_nat max_results)%nat)
  /\ Forall tidy (results r).
Proof.
  unfold normalise.
  destruct (items_of data max_results) as [items|e] eqn:Hi; [|discriminate].
  destruct (each items) as [rs|e] eqn:He; [|discriminate].
  intros [= <-]. cbn [query raw results].
  destruct (each_spec _ _ He) as [Hl Ht].
  split; [reflexivity|]. split; [reflexivity|]. split; [|exact Ht].
  intros Hn. rewrite Hl. clear -Hi Hn.
  unfold items_of in Hi. destruct data as [| | | | |l|kv]; try discriminate.
  destruct (Json.dict_get kv "results") as [[| | | |s|l|kv']|];
    try discriminate; injection Hi as <-;
    rewrite ?length_map, slice_to_length by exact Hn; lia.
Qed.

(** X20.  Only the items before the cut are looked at.  When the answer is
    an object whose ["results"] is a list and the first [max_results] items
    are dicts with a score that is absent, [null] or a float, [search]
    returns one result per item up to the cut, whatever the later items
    are; when ["results"] is absent the response has no results; when the
    answer is not an object, [search] raises. *)
Theorem normalise_cut q kv l max_results :
  0 <= max_results ->
  (Json.dict_get kv "results" = Some (Json.JList l) ->
   Forall plain (firstn (Z.to_nat max_results) l) ->
   exists r,
     normalise q (Json.JDict kv) max_results = Ok r
     /\ length (results r) = Nat.min (Z.to_nat max_results) (length l))
  /\ (Json.dict_get kv "results" = None ->
      normalise q (Json.JDict kv) max_results
      = Ok {| query := q; results := []; raw := Json.JDict kv |})
  /\ (forall data,
        match data with Json.JDict _ => False | _ => True end ->
        normalise q data max_results = Raise AttributeError).
Proof.
  intros Hn. split; [|split].
  - intros Hr Hp. unfold normalise, items_of. rewrite Hr.
    assert (Hs : slice_to l max_results = firstn (Z.to_nat max_results) l).
    { unfold slice_to. destruct (Z.leb_spec 0 max_results); [reflexivity|lia]. }
    rewrite Hs. destruct (each_plain _ Hp) as [rs Hrs]. rewrite Hrs.
    eexists. split; [reflexivity|]. cbn [results].
    destruct (each_spec _ _ Hrs) as [Hl _]. rewrite Hl. apply length_firstn.
  - intros Hr. unfold normalise, items_of. rewrite Hr.
    unfold slice_to. destruct (0 <=? max_results); now rewrite firstn_nil.
  - intros data Hd. unfold normalise, items_of.
    destruct data as [| | | | |l'|kv']; try reflexivity. contradiction.
Qed.

End Normalise.

(** An answer with one untidy item, one item without score and one item
    that is not an object at all. *)
Definition sample_data : Json.value :=
  Json.JDict
    [ ("query", Json.JStr "what is rocq");
      ("results",
       Json.JList
         [ Json.JDict [ ("title", Json.JStr "  The Rocq Prover ");
                        ("url", Json.JStr "https://rocq-prover.org ");
                        ("content", Json.JNull);
                        ("engine", Json.JStr "duckduckgo");
                        ("score", Json.JFloat (Fin (3 # 2))) ];
           Json.JDict [ ("title", Json.JStr "Rocq on GitHub");
                        ("url", Json.JStr "https://github.com/rocq-prover") ];
           Json.JStr "not an item" ]) ].

Definition sample_response : Response :=
  {| query := "what is rocq";
     results :=
       [ {| title := "The Rocq Prover"; url := "https://rocq-prover.org";
            content := ""; engine := Json.JStr "duckduckgo";
            score := Some (Fin (3 # 2)) |};
         {| title := "Rocq on GitHub"; url := "https://github.com/rocq-prover";
            content := ""; engine := Json.JNull; score := None |} ];
     raw := sample_data |}.

End Searxng.

Lemma normalise_shape_witness :
  Searxng.query Searxng.sample_response = "what is rocq"
  /\ Searxng.raw Searxng.sample_response = Searxng.sample_data
  /\ (0 <= 2 -> (length (Searxng.results Searxng.sample_response) <= Z.to_nat 2)%nat)
  /\ Forall (Searxng.tidy) (Searxng.results Searxng.sample_response).
Proof.
  apply (Searxng.normalise_shape (fun _ => "") "what is rocq" Searxng.sample_data 2
           Searxng.sample_response).
  vm_compute. reflexivity.
Defined.

Lemma normalise_cut_witness :
  exists r,
    Searxng.normalise (fun _ => "") "what is rocq" Searxng.sample_data 2 = Ok r
    /\ length (Searxng.results r) = Nat.min (Z.to_nat 2) 3.
Proof.
  apply (proj1 (Searxng.normalise_cut (fun _ => "") "what is rocq"
                  [ ("query", Json.JStr "what is rocq");
                    ("results",
                     Json.JList
                       [ Json.JDict [ ("title", Json.JStr "  The Rocq Prover ");
                                      ("url", Json.JStr "https://rocq-prover.org ");
                                      ("content", Json.JNull);
                                      ("engine", Json.JStr "duckduckgo");
                                      ("score", Json.JFloat (Fin (3 # 2))) ];
                         Json.JDict [ ("title", Json.JStr "Rocq on GitHub");
                                      ("url", Json.JStr "https://github.com/rocq-prover") ];
                         Json.JStr "not an item" ]) ]
                  [ Json.JDict [ ("title", Json.JStr "  The Rocq Prover ");
                                 ("url", Json.JStr "https://rocq-prover.org ");
                                 ("content", Json.JNull);
                                 ("engine", Json.JStr "duckduckgo");
                                 ("score", Json.JFloat (Fin (3 # 2))) ];
                    Json.JDict [ ("title", Json.JStr "Rocq on GitHub");
                                 ("url", Json.JStr "https://github.com/rocq-prover") ];
                    Json.JStr "not an item" ]
                  2 ltac:(lia))).
  - vm_compute. reflexivity.
  - vm_compute. repeat constructor.
Defined.

(** ** [RedisVectorCache.ensure_index] *)

(** [needle in hay] on two [str] *)
Fixpoint contains (needle hay : string) : bool :=
  String.prefix needle hay
  || match hay with
     | EmptyString => false
     | String _ rest => contains needle rest
     end.

(** The arguments of the [FT.CREATE] command. *)
Definition create_args (c : RedisVectorCache) : list reply :=
  [ RBulk "FT.CREATE"; RBulk (_index_name c); RBulk "ON"; RBulk "HASH";
    RBulk "PREFIX"; RInt 1; RBulk (_key_prefix c); RBulk "SCHEMA";
    RBulk "query"; RBulk "TEXT"; RBulk "payload_json"; RBulk "TEXT";
    RBulk "created_at"; RBulk "NUMERIC"; RBulk "embedding"; RBulk "VECTOR";
    RBulk "HNSW"; RInt 6; RBulk "TYPE"; RBulk "FLOAT32"; RBulk "DIM";
    RInt (_vector_dim c); RBulk "DISTANCE_METRIC"; RBulk "COSINE" ].

(** [except ResponseError as e: if "Index already exists" in str(e) or
    "index already exists" in str(e): return] *)
Definition already_exists (msg : string) : bool :=
  contains "Index already exists" msg || contains "index already exists" msg.

Section Index.

Context {W : Type}.
Variable B : backend W.

(** [RedisVectorCache.ensure_index] *)
Definition ensure_index (c : RedisVectorCache) : M W unit :=
  fun s =>
    let r := invoke (CallExecute (create_args c))
                    (execute_command B (create_args c)) s in
    match value r with
    | Ok _ => Run (Ok tt) (final r) (calls r)
    | Raise (LibError (RedisResponseError msg)) =>
        if already_exists msg then Run (Ok tt) (final r) (calls r)
        else Run (Raise (LibError (RedisResponseError msg))) (final r) (calls r)
    | Raise e => Run (Raise e) (final r) (calls r)
    end.

(** The end of [HybridSearchEngine.__init__]:
    [try: self._redis.ensure_index()  except Exception: pass] *)
Definition init_index (c : RedisVectorCache) : M W unit :=
  try_except (ensure_index c) (ret tt).

(** X21.  [ensure_index] sends one [FT.CREATE] that carries the cache's
    index name, key prefix and dimension.  It returns normally exactly when
    Redis accepted the command or refused it with a response error whose
    text contains "Index already exists" or "index already exists"; any
    other failure reaches the caller, where [__init__] drops it. *)
Theorem ensure_index_outcome c s :
  calls (ensure_index c s) = [CallExecute (create_args c)]
  /\ In (RBulk (_index_name c)) (create_args c)
  /\ In (RBulk (_key_prefix c)) (create_args c)
  /\ In (RInt (_vector_dim c)) (create_args c)
  /\ (value (ensure_index c s) = Ok tt
      <-> (exists r, fst (execute_command B (create_args c) (world s)) = Ok r)
          \/ (exists msg,
                fst (execute_command B (create_args c) (world s))
                  = Raise (RedisResponseError msg)
                /\ already_exists msg = true))
  /\ value (init_index c s) = Ok tt.
Proof.
  assert (Hc : calls (ensure_index c s) = [CallExecute (create_args c)]).
  { unfold ensure_index. cbv zeta. rewrite invoke_run. cbn [value final calls].
    destruct (fst (execute_command B (create_args c) (world s))) as [r|[]];
      try reflexivity.
    now destruct (already_exists msg). }
  split; [exact Hc|].
  split; [cbn; tauto|]. split; [cbn; tauto|]. split; [cbn; tauto|].
  split.
  - unfold ensure_index. cbv zeta. rewrite invoke_run. cbn [value final calls].
    destruct (fst (execute_command B (create_args c) (world s))) as [r|e].
    + split; [intros _; left; now exists r|reflexivity].
    + split.
      * intros H. right. destruct e as [msg|msg|msg|msg|msg|msg]; try discriminate.
        exists msg. destruct (already_exists msg); [now split|discriminate].
      * intros [[r Hr]|(msg & [= ->] & Hm)]; [discriminate|]. now rewrite Hm.
  - unfold init_index. rewrite try_except_value.
    destruct (value (ensure_index c s)) as [[]|x]; reflexivity.
Qed.

End Index.

(** *** Redis with RediSearch, as far as [FT.CREATE] goes *)

Module Stack.

(** The names of the indexes that exist. *)
Definition world := gset string.

Definition unused {A} (w : world) : result lib_error A * world :=
  (Raise (RedisConnectionError "not part of this model"), w).

(** [FT.CREATE name ...] *)
Definition execute (args : list reply) (w : world) : result lib_error reply * world :=
  match args with
  | RBulk cmd :: RBulk name :: _ =>
      if String.eqb cmd "FT.CREATE"
      then if decide (name ∈ w)
           then (Raise (RedisResponseError "Index already exists"), w)
           else (Ok (RBulk "OK"), {[ name ]} ∪ w)
      else (Raise (RedisResponseError "unknown command"), w)
  | _ => (Raise (RedisResponseError "wrong number of arguments"), w)
  end.

Definition stack_backend : backend world := {|
  hgetall := fun _ => unused;
  hset := fun _ _ => unused;
  expire := fun _ _ => unused;
  execute_command := execute;
  sqlite_select := fun _ => unused;
  sqlite_upsert := fun _ _ _ => unused;
  searxng_search := fun _ => unused;
  model_load := fun _ => unused;
  model_encode := fun _ _ => unused;
  time_time := fun w => (float_zero, w)
|}.

End Stack.

(** X22.  [ensure_index] can be called again and again: on a Redis that
    refuses to create an index twice, the first call creates the index,
    every call returns normally, and a call that finds the index there
    changes nothing. *)
Theorem ensure_index_idempotent c (w : Stack.world) m :
  let s1 := final (ensure_index Stack.stack_backend c (State w m)) in
  value (ensure_index Stack.stack_backend c (State w m)) = Ok tt
  /\ _index_name c ∈ world s1
  /\ value (ensure_index Stack.stack_backend c s1) = Ok tt
  /\ final (ensure_index Stack.stack_backend c s1) = s1.
Proof.
  cbv zeta.
  assert (H : forall w0,
            ensure_index Stack.stack_backend c (State w0 m)
            = Run (Ok tt)
                  (State (if decide (_index_name c ∈ w0) then w0
                          else {[ _index_name c ]} ∪ w0) m)
                  [CallExecute (create_args c)]).
  { intros w0. unfold ensure_index. cbv zeta. rewrite invoke_run.
    cbn [value final calls world model Stack.stack_backend execute_command
         create_args Stack.execute String.eqb Ascii.eqb Bool.eqb].
    destruct (decide (_index_name c ∈ w0)); reflexivity. }
  rewrite H. cbn [value final world].
  assert (Hin : _index_name c
                ∈ (if decide (_index_name c ∈ w) then w else {[ _index_name c ]} ∪ w)).
  { destruct (decide (_index_name c ∈ w)); [assumption|set_solver]. }
  split; [reflexivity|]. split; [exact Hin|].
  rewrite H. cbn [value final].
  destruct (decide (_index_name c ∈ (if decide (_index_name c ∈ w) then w
                                      else {[ _index_name c ]} ∪ w)));
    [now split|contradiction].
Qed.

(** ** The script of a call *)

(** What a call to a backend asks for, without its arguments. *)
Inductive kind :=
| KHgetall | KHset | KExpire | KExecute | KSelect | KUpsert
| KSearxng | KLoad | KEncode | KTime.

Definition kind_of (c : call) : kind :=
  match c with
  | CallHgetall _ => KHgetall
  | CallHset _ _ => KHset
  | CallExpire _ _ => KExpire
  | CallExecute _ => KExecute
  | CallSqliteSelect _ => KSelect
  | CallSqliteUpsert _ _ _ => KUpsert
  | CallSearxng _ => KSearxng
  | CallModelLoad _ => KLoad
  | CallModelEncode _ _ => KEncode
  | CallTime => KTime
  end.

(** The longest run of [search]: exact lookup; model and [FT.SEARCH];
    SQLite lookup; provider, SQLite write-back, a second try at the model,
    Redis write-back. *)
Definition full_script : list kind :=
  [ KHgetall; KLoad; KEncode; KExecute; KSelect; KSearxng; KTime; KUpsert;
    KLoad; KEncode; KTime; KHset; KExpire ].

Section Script.

Context {W : Type}.

(** The calls of [m], in order, are picked from [script], in order. *)
Definition follows {A} (script : list kind) (m : M W A) : Prop :=
  forall s, map kind_of (calls (m s)) `sublist_of` script.

Lemma follows_weaken {A} (p p' : list kind) (m : M W A) :
  p `sublist_of` p' -> follows p m -> follows p' m.
Proof. intros Hp Hm s. etransitivity; [apply Hm|exact Hp]. Qed.

Lemma follows_quiet {A} (p : list kind) (m : M W A) :
  (forall s, calls (m s) = []) -> follows p m.
Proof. intros H s. rewrite H. apply sublist_nil_l. Qed.

Lemma follows_invoke {A} (c : call) (op : W -> result lib_error A * W) :
  follows [kind_of c] (invoke c op).
Proof. intros s. now rewrite invoke_run. Qed.

Lemma follows_bind {A C} (p1 p2 : list kind) (m : M W A) (f : A -> M W C) :
  follows p1 m -> (forall a, follows p2 (f a)) -> follows (p1 ++ p2) (bind m f).
Proof.
  intros Hm Hf s. rewrite calls_bind, map_app. apply sublist_app; [apply Hm|].
  destruct (value (m s)); [apply Hf|apply sublist_nil_l].
Qed.

Lemma follows_attempt {A} (p : list kind) (m : M W A) :
  follows p m -> follows p (attempt m).
Proof. intros Hm s. apply Hm. Qed.

Lemma follows_try_except {A} (p1 p2 : list kind) (m h : M W A) :
  follows p1 m -> follows p2 h -> follows (p1 ++ p2) (try_except m h).
Proof.
  intros Hm Hh. apply follows_bind; [now apply follows_attempt|].
  intros [a|x]; [now apply follows_quiet|exact Hh].
Qed.

Variable B : backend W.
Variable tobytes : ndarray -> string.

Lemma get_exact_script c q : follows [KHgetall] (get_exact B c q).
Proof. intros s. now rewrite get_exact_calls. Qed.

Lemma _st_embed_script e text : follows [KLoad; KEncode] (_st_embed B e text).
Proof.
  unfold _st_embed.
  apply (follows_bind [] [KLoad; KEncode]); [now apply follows_quiet|]. intros m.
  apply (follows_bind [KLoad] [KEncode]).
  - destruct m as [name|]; [now apply follows_quiet|].
    apply (follows_bind [KLoad] []); [apply follows_invoke|]. intros _.
    now apply follows_quiet.
  - intros name. apply (follows_bind [KEncode] []); [apply follows_invoke|].
    intros [|row rows]; now apply follows_quiet.
Qed.

Lemma embed_script e text : follows [KLoad; KEncode] (embed B e text).
Proof.
  unfold embed. destruct (String.eqb _ "hash"); [now apply follows_quiet|].
  destruct (_ || _); [apply _st_embed_script|].
  apply (follows_try_except [KLoad; KEncode] []);
    [apply _st_embed_script|now apply follows_quiet].
Qed.

Lemma search_similar_script c e k : follows [KExecute] (search_similar B tobytes c e k).
Proof.
  unfold search_similar. destruct (negb _); [now apply follows_quiet|].
  apply (follows_bind [KExecute] []); [apply follows_invoke|].
  intros res. now apply follows_quiet.
Qed.

Lemma sqlite_get_script q : follows [KSelect] (sqlite_get B q).
Proof.
  unfold sqlite_get. apply (follows_bind [KSelect] []); [apply follows_invoke|].
  intros [[pj t]|]; [|now apply follows_quiet].
  apply (follows_bind [] []); [now apply follows_quiet|].
  intros v. now apply follows_quiet.
Qed.

Lemma sqlite_set_script q p : follows [KTime; KUpsert] (sqlite_set B q p).
Proof.
  unfold sqlite_set. apply (follows_bind [KTime] [KUpsert]); [apply follows_invoke|].
  intros now. apply follows_invoke.
Qed.

Lemma cache_set_script c q p e :
  follows [KTime; KHset; KExpire] (cache_set B tobytes c q p e).
Proof.
  unfold cache_set. destruct (negb _); [now apply follows_quiet|]. cbv zeta.
  apply (follows_bind [KTime] [KHset; KExpire]); [apply follows_invoke|].
  intros now. apply (follows_bind [KHset] [KExpire]); [apply follows_invoke|].
  intros _. apply follows_invoke.
Qed.

Lemma live_tier_script E q emb :
  follows [KSearxng; KTime; KUpsert; KLoad; KEncode; KTime; KHset; KExpire]
    (live_tier B tobytes E q emb).
Proof.
  unfold live_tier.
  apply (follows_try_except
           [KSearxng; KTime; KUpsert; KLoad; KEncode; KTime; KHset; KExpire] []);
    [|now apply follows_quiet].
  apply (follows_bind [KSearxng] [KTime; KUpsert; KLoad; KEncode; KTime; KHset; KExpire]);
    [apply follows_invoke|]. intros resp.
  apply (follows_bind [KTime; KUpsert] [KLoad; KEncode; KTime; KHset; KExpire]);
    [apply follows_attempt, sqlite_set_script|]. intros _.
  apply (follows_bind [KLoad; KEncode; KTime; KHset; KExpire] []);
    [|intros _; now apply follows_quiet].
  apply follows_attempt.
  apply (follows_bind [KLoad; KEncode] [KTime; KHset; KExpire]).
  - destruct emb; [now apply follows_quiet|apply embed_script].
  - intros e. apply cache_set_script.
Qed.

Lemma cold_tier_script E q emb :
  follows [KSelect; KSearxng; KTime; KUpsert; KLoad; KEncode; KTime; KHset; KExpire]
    (cold_tier B tobytes E q emb).
Proof.
  unfold cold_tier.
  apply (follows_bind [KSelect]
           [KSearxng; KTime; KUpsert; KLoad; KEncode; KTime; KHset; KExpire]);
    [apply follows_attempt, sqlite_get_script|].
  intros [[item|]|x]; try apply live_tier_script. now apply follows_quiet.
Qed.

Lemma semantic_tier_script E q :
  follows [KLoad; KEncode; KExecute; KSelect; KSearxng; KTime; KUpsert; KLoad;
           KEncode; KTime; KHset; KExpire]
    (semantic_tier B tobytes E q).
Proof.
  unfold semantic_tier.
  apply (follows_bind [KLoad; KEncode]
           [KExecute; KSelect; KSearxng; KTime; KUpsert; KLoad; KEncode; KTime;
            KHset; KExpire]);
    [apply follows_attempt, embed_script|].
  intros [e|x].
  - apply (follows_bind [KExecute]
             [KSelect; KSearxng; KTime; KUpsert; KLoad; KEncode; KTime; KHset;
              KExpire]);
      [apply follows_attempt, search_similar_script|].
    intros [[|h hs]|x]; try apply cold_tier_script. now apply follows_quiet.
  - apply (follows_weaken
             [KSelect; KSearxng; KTime; KUpsert; KLoad; KEncode; KTime; KHset; KExpire]);
      [|apply cold_tier_script].
    apply (sublist_inserts_l [KExecute]). reflexivity.
Qed.

(** X23.  One call of [search] is one pass over a fixed script.  The
    requests it makes are, in this order and each at most once: the exact
    lookup, the model for the semantic tier, [FT.SEARCH], the SQLite lookup,
    the provider, the SQLite write-back (clock, upsert), the model again,
    and the Redis write-back (clock, [HSET], [EXPIRE]).  So a call makes at
    most 13 requests; nothing is retried, the provider is asked at most
    once and only after every cache lookup, and Redis is written only after
    SQLite. *)
Theorem search_follows_script E q s :
  map kind_of (calls (search B tobytes E q s)) `sublist_of` full_script
  /\ (length (calls (search B tobytes E q s)) <= 13)%nat.
Proof.
  assert (H : map kind_of (calls (search B tobytes E q s)) `sublist_of` full_script).
  { unfold search. cbv zeta.
    destruct (negb (Text.nonempty (Text.strip q))); [apply sublist_nil_l|].
    apply (follows_bind [KHgetall]
             [KLoad; KEncode; KExecute; KSelect; KSearxng; KTime; KUpsert; KLoad;
              KEncode; KTime; KHset; KExpire]);
      [apply follows_attempt, get_exact_script|].
    intros [v|x]; [destruct (Json.truthy v)|]; try apply semantic_tier_script.
    now apply follows_quiet. }
  split; [exact H|].
  apply sublist_length in H. now rewrite length_map in H.
Qed.

End Script.

(** ** A model that cannot be built *)

Section Retry.

Context {W : Type}.
Variable B : backend W.

Lemma _st_embed_unloaded e text s :
  model s = None ->
  _st_embed B e text s
  = bind (bind (invoke (CallModelLoad (model_name e)) (model_load B (model_name e)))
               (fun _ => bind (set_model (Some (model_name e)))
                              (fun _ => ret (model_name e))))
         (fun name => encode_with B name text) s.
Proof. intros Hm. unfold _st_embed. now rewrite bind_get_model, Hm. Qed.

(** X24.  A failure to build the model is not remembered.  When the
    construction raises, [_st_embed] raises the same error and the embedder
    still holds no model; and whenever the embedder holds no model, the
    first thing [_st_embed] does is to try the construction again. *)
Theorem failed_load_is_retried e text s x :
  model s = None ->
  fst (model_load B (model_name e) (world s)) = Raise x ->
  value (_st_embed B e text s) = Raise (LibError x)
  /\ model (final (_st_embed B e text s)) = None
  /\ forall text' s',
       model s' = None ->
       exists rest,
         calls (_st_embed B e text' s') = CallModelLoad (model_name e) :: rest.
Proof.
  intros Hm Hx. split; [|split].
  - rewrite (_st_embed_unloaded _ _ _ Hm), bind_value, bind_value, invoke_run.
    cbn [value]. now rewrite Hx.
  - rewrite (_st_embed_unloaded _ _ _ Hm), final_bind, bind_value, invoke_run.
    cbn [value]. rewrite Hx. rewrite final_bind, invoke_run. cbn [value final].
    now rewrite Hx.
  - intros text' s' Hm'.
    rewrite (_st_embed_unloaded _ _ _ Hm'), calls_bind, calls_bind, invoke_run.
    cbn [calls app]. eexists. reflexivity.
Qed.

End Retry.

Lemma failed_load_is_retried_witness :
  value (_st_embed Mem.mem_backend (_embedder Demo.st_engine) "what is rocq"
           (Mem.start (Mem.empty Mem.down)))
    = Raise (LibError Mem.no_model)
  /\ model (final (_st_embed Mem.mem_backend (_embedder Demo.st_engine) "what is rocq"
                     (Mem.start (Mem.empty Mem.down)))) = None
  /\ forall text' s',
       model s' = None ->
       exists rest,
         calls (_st_embed Mem.mem_backend (_embedder Demo.st_engine) text' s')
         = CallModelLoad (model_name (_embedder Demo.st_engine)) :: rest.
Proof.
  apply (failed_load_is_retried Mem.mem_backend (_embedder Demo.st_engine)
           "what is rocq" (Mem.start (Mem.empty Mem.down)) Mem.no_model).
  - reflexivity.
  - vm_compute. reflexivity.
Defined.
